(** * youtube-recommend: the LLM response pipeline

  A shallow embedding of the taste analyzer ([server/services/analyzer.ts]),
  the recommender ([server/services/recommender.ts]), the LLM provider
  ([server/services/llm]) and the [/api/analyze] route, with the properties
  of the prompt -> provider -> parse -> validate -> normalize pipeline.

  Conventions of the embedding.
  - A JavaScript [number] is a rational ([Q]): a double is the rational
    it stands for, and a decimal literal of the source or of a response
    is the decimal itself, which the arithmetic rounds before use.
    Comparison, [Math.min], [Math.max] and the sign of a difference are
    exact on doubles; [+], [*] and [/] round to the nearest double, ties
    to the even significand ([Binary64]), subnormal numbers included.
    The exponents have no upper end here, so no operation overflows to
    [Infinity]; [NaN] and a negative zero are not represented.
    [JSON.parse] never yields [NaN].
  - A JavaScript string is a [string] whose characters stand for the code
    units below 256.
  - A value that may be [undefined] is an [option].
  - [JSON.parse] belongs to the runtime: the parsers take it as a
    parameter, and the worked examples use the reference reader
    [Json.parse] defined below.
  - [fetch], the database and the texts of the prompt templates are
    parameters as well; what is written to the console is left out. *)

From Stdlib Require Import String Ascii List ZArith QArith Qminmax Qround Qabs Lia Lqa Bool.
From Stdlib Require Import DecimalString Sorting.Permutation Sorting.Sorted.
From stdpp Require Import base option gmap.
Import ListNotations.

Set Warnings "-register-all".

#[local] Open Scope string_scope.
#[local] Open Scope list_scope.

(** ** JavaScript values *)

Module Js.

(** The result of [JSON.parse]: a JSON document. An object is its list of
    own properties, each key occurring once. *)
Inductive json : Type :=
| JNull
| JBool (b : bool)
| JNum (x : Q)
| JStr (s : string)
| JArr (items : list json)
| JObj (props : list (string * json)).

(** [typeof v] *)
Inductive js_type : Set :=
| TUndefined | TObject | TBoolean | TNumber | TString.

Definition typeof (v : option json) : js_type :=
  match v with
  | None => TUndefined
  | Some JNull => TObject
  | Some (JBool _) => TBoolean
  | Some (JNum _) => TNumber
  | Some (JStr _) => TString
  | Some (JArr _) => TObject
  | Some (JObj _) => TObject
  end.

Definition js_type_eqb (a b : js_type) : bool :=
  match a, b with
  | TUndefined, TUndefined | TObject, TObject | TBoolean, TBoolean
  | TNumber, TNumber | TString, TString => true
  | _, _ => false
  end.

(** [!!v] *)
Definition truthy (v : option json) : bool :=
  match v with
  | None => false
  | Some JNull => false
  | Some (JBool b) => b
  | Some (JNum x) => negb (Qeq_bool x 0)
  | Some (JStr s) => negb (String.eqb s "")
  | Some (JArr _) => true
  | Some (JObj _) => true
  end.

(** [Array.isArray(v)] *)
Definition isArray (v : option json) : bool :=
  match v with Some (JArr _) => true | _ => false end.

Fixpoint assoc (k : string) (props : list (string * json)) : option json :=
  match props with
  | [] => None
  | (k', v) :: rest => if String.eqb k k' then Some v else assoc k rest
  end.

Fixpoint assoc_set (k : string) (v : json) (props : list (string * json))
  : list (string * json) :=
  match props with
  | [] => [(k, v)]
  | (k', v') :: rest =>
      if String.eqb k k' then (k, v) :: rest else (k', v') :: assoc_set k v rest
  end.

(** [v as Record<string, unknown>]: the named own properties. None of the
    keys read by the parsers is a member of an array or of
    [Object.prototype], so an array has none of them. *)
Definition as_record (v : json) : list (string * json) :=
  match v with JObj props => props | _ => [] end.

(** [Math.max(0, Math.min(1, x))] *)
Definition clamp01 (x : Q) : Q := Qmax 0 (Qmin 1 x).

(** [Math.round(x)]: the nearest integer, ties towards +infinity. *)
Definition round (x : Q) : Z := Qfloor (x + (1 # 2)).

(** [String(n)] for an array index and for an integer. *)
Definition string_of_nat (n : nat) : string :=
  NilZero.string_of_uint (Nat.to_uint n).

Definition string_of_Z (z : Z) : string :=
  NilZero.string_of_int (Z.to_int z).

(** [items.join(sep)] *)
Fixpoint join (sep : string) (items : list string) : string :=
  match items with
  | [] => ""
  | [x] => x
  | x :: rest => x ++ sep ++ join sep rest
  end.

(** *** Strings *)

Definition LF : ascii := ascii_of_nat 10.
Definition nl : string := String LF "".

(** White space and line terminators of ECMAScript among the code units
    below 256: TAB, LF, VT, FF, CR, SP and NBSP. *)
Definition isWhiteSpace (c : ascii) : bool :=
  let n := nat_of_ascii c in
  (Nat.leb 9 n && Nat.leb n 13) || Nat.eqb n 32 || Nat.eqb n 160.

Fixpoint trimStart (s : string) : string :=
  match s with
  | EmptyString => EmptyString
  | String c rest => if isWhiteSpace c then trimStart rest else s
  end.

Fixpoint trimEnd (s : string) : string :=
  match s with
  | EmptyString => EmptyString
  | String c rest =>
      match trimEnd rest with
      | EmptyString => if isWhiteSpace c then EmptyString else String c EmptyString
      | kept => String c kept
      end
  end.

(** [s.trim()] *)
Definition trim (s : string) : string := trimEnd (trimStart s).

(** The rest of [s] after the prefix [p], when [s] starts with [p]. *)
Fixpoint after (p s : string) : option string :=
  match p, s with
  | EmptyString, _ => Some s
  | String a p', String b s' => if Ascii.eqb a b then after p' s' else None
  | String _ _, EmptyString => None
  end.

(** [s.startsWith(p)] *)
Definition startsWith (p s : string) : bool :=
  match after p s with Some _ => true | None => false end.

(** [hay.includes(needle)] *)
Definition includes (needle hay : string) : bool :=
  match String.index 0 needle hay with Some _ => true | None => false end.

(** A text between double quotes. *)
Definition dquote : ascii := ascii_of_nat 34.
Definition quoted (s : string) : string := String dquote (s ++ String dquote "").

(** An optional, greedy group [(?:p)?] at the head of [s]. *)
Definition skip_optional (p s : string) : string :=
  match after p s with Some rest => rest | None => s end.

End Js.

(** ** Doubles

    IEEE 754 binary64, rounding to nearest with ties to the even
    significand. The finite doubles that are not negative are the numbers
    [m * 2^j * 2^-1074] for integers [0 <= m < 2^53] and [0 <= j]; the
    negative ones are their opposites. The operations are defined on
    every rational: they round their operands first, which leaves a
    double as it is, so on doubles they are the operations of JavaScript
    as long as the result stays below [2^1024] and, for [/], the divisor
    is not zero. *)

Module Binary64.
#[local] Open Scope Q_scope.

(** The least positive double is [1 / scale]. *)
Definition scale : Q := inject_Z (2 ^ 1074).

(** The nearest integer, ties to the even one. *)
Definition rne (q : Q) : Z :=
  let f := Qfloor q in
  match Qcompare (q - inject_Z f) (1 # 2) with
  | Lt => f
  | Gt => (f + 1)%Z
  | Eq => if Z.even f then f else (f + 1)%Z
  end.

(** The doubles around [x >= 0] are [2^k / scale] apart, for this [k]:
    [x * scale] has at most 53 binary digits above the digit [k], and
    [k] is 0 in the range of the subnormal numbers. *)
Definition spacing (x : Q) : Z := Z.max (Z.log2 (Qfloor (x * scale)) - 52) 0.

(** The double nearest to [x >= 0], ties to the even significand. *)
Definition nearest (x : Q) : Q :=
  let k := spacing x in
  Qred (inject_Z (rne (x * scale / inject_Z (2 ^ k)) * 2 ^ k) / scale).

(** The double nearest to [x]: the rounding of every arithmetic operation. *)
Definition fl (x : Q) : Q :=
  if Qlt_le_dec x 0 then - nearest (- x) else nearest x.

(** [a + b], [a * b] and [a / b] on numbers. *)
Definition add (a b : Q) : Q := fl (fl a + fl b).
Definition mul (a b : Q) : Q := fl (fl a * fl b).
Definition div (a b : Q) : Q := fl (fl a / fl b).

(** The significand of the nearest double. *)
Definition significand (x : Q) : Z := rne (x * scale / inject_Z (2 ^ spacing x)).

(** The double [m * 2^j] times the least one. *)
Definition double (m j : Z) : Q := Qred (inject_Z (m * 2 ^ j) / scale).

(** The bounds of the rounding error: one part in [2^53] of the number,
    and half the least double. *)
Definition u : Q := 1 # 9007199254740992.
Definition eta : Q := 1 / (2 * scale).

(** The sum of the numbers of a list, without rounding. *)
Definition exact_sum (l : list Q) : Q := fold_right Qplus 0 l.

End Binary64.

(** ** Code-fence stripping, shared by both parsers *)

Module Fence.
Import Js.

Definition fence : string := "```".

(** [s.replace(/^```(?:json)?\n?/, '')] *)
Definition stripOpeningFence (s : string) : string :=
  match after fence s with
  | None => s
  | Some rest => skip_optional nl (skip_optional "json" rest)
  end.

(** [s.replace(/\n?```$/, '')]: the leftmost position from which
    [\n?```] reaches the end of the text is removed to the end. *)
Fixpoint stripClosingFence (s : string) : string :=
  if String.eqb s (nl ++ fence) || String.eqb s fence then EmptyString
  else match s with
       | EmptyString => EmptyString
       | String c rest => String c (stripClosingFence rest)
       end.

(** The value of the local [jsonContent] when [JSON.parse] is called, in
    [parseAnalysisResponse] and in [parseRecommendationsResponse]. *)
Definition jsonContent (content : string) : string :=
  let trimmed := trim content in
  if startsWith fence trimmed
  then stripClosingFence (stripOpeningFence trimmed)
  else trimmed.

(** A response wrapped in a fenced block with the info string [tag]. *)
Definition fenced (tag body : string) : string :=
  fence ++ tag ++ nl ++ body ++ nl ++ fence.

End Fence.

(** ** A reference JSON reader

    The runtime's [JSON.parse] on the subset used by the examples: objects,
    arrays, strings with the single-character escapes, decimal numbers and
    the three literals. A duplicated key keeps its last value. The result is
    the document, or the text of the [SyntaxError]. *)

Module Json.
Import Js.

Definition code (c : ascii) : nat := nat_of_ascii c.

Definition isDigit (c : ascii) : bool :=
  Nat.leb 48 (code c) && Nat.leb (code c) 57.

Definition isJsonSpace (c : ascii) : bool :=
  Nat.eqb (code c) 32 || Nat.eqb (code c) 9
  || Nat.eqb (code c) 10 || Nat.eqb (code c) 13.

Fixpoint skipSpace (s : string) : string :=
  match s with
  | String c rest => if isJsonSpace c then skipSpace rest else s
  | EmptyString => EmptyString
  end.

(** A run of digits: its value, its length and the rest of the text. *)
Fixpoint digits (acc : Z) (count : nat) (s : string) : Z * nat * string :=
  match s with
  | String c rest =>
      if isDigit c
      then digits (10 * acc + Z.of_nat (code c - 48)) (S count) rest
      else (acc, count, s)
  | EmptyString => (acc, count, s)
  end.

Definition pow10 (n : nat) : Z := Z.pow 10 (Z.of_nat n).

Definition scale10 (x : Q) (negative : bool) (e : Z) : Q :=
  if negative then x / inject_Z (Z.pow 10 e) else x * inject_Z (Z.pow 10 e).

Definition exponent (s : string) : option (bool * Z * string) :=
  match s with
  | String c rest =>
      if Nat.eqb (code c) 101 || Nat.eqb (code c) 69 then
        let '(negative, rest1) :=
          match rest with
          | String sign rest' =>
              if Nat.eqb (code sign) 45 then (true, rest')
              else if Nat.eqb (code sign) 43 then (false, rest')
              else (false, rest)
          | EmptyString => (false, rest)
          end in
        let '(e, n, rest2) := digits 0 0 rest1 in
        if Nat.eqb n 0 then None else Some (negative, e, rest2)
      else Some (false, 0%Z, s)
  | EmptyString => Some (false, 0%Z, s)
  end.

Definition number (s : string) : option (Q * string) :=
  let '(negative, s1) :=
    match s with
    | String c rest => if Nat.eqb (code c) 45 then (true, rest) else (false, s)
    | EmptyString => (false, s)
    end in
  let '(whole, n1, s2) := digits 0 0 s1 in
  if Nat.eqb n1 0 then None
  else if Nat.ltb 1 n1 && startsWith "0" s1 then None
  else
    let fraction :=
      match s2 with
      | String c rest =>
          if Nat.eqb (code c) 46 then
            let '(f, n2, s3) := digits 0 0 rest in
            if Nat.eqb n2 0 then None else Some (f, n2, s3)
          else Some (0%Z, 0%nat, s2)
      | EmptyString => Some (0%Z, 0%nat, s2)
      end in
    match fraction with
    | None => None
    | Some (f, n2, s3) =>
        match exponent s3 with
        | None => None
        | Some (eneg, e, s4) =>
            let magnitude := Qmake (whole * pow10 n2 + f) (Z.to_pos (pow10 n2)) in
            let signed := if negative then Qopp magnitude else magnitude in
            Some (Qred (scale10 signed eneg e), s4)
        end
    end.

Definition unescape (c : ascii) : option ascii :=
  let n := code c in
  if Nat.eqb n 34 || Nat.eqb n 92 || Nat.eqb n 47 then Some c
  else if Nat.eqb n 110 then Some (ascii_of_nat 10)
  else if Nat.eqb n 116 then Some (ascii_of_nat 9)
  else if Nat.eqb n 114 then Some (ascii_of_nat 13)
  else if Nat.eqb n 98 then Some (ascii_of_nat 8)
  else if Nat.eqb n 102 then Some (ascii_of_nat 12)
  else None.

(** The characters of a string literal after its opening quote. *)
Fixpoint chars (s : string) : option (string * string) :=
  match s with
  | EmptyString => None
  | String c rest =>
      if Nat.eqb (code c) 34 then Some (EmptyString, rest)
      else if Nat.eqb (code c) 92 then
        match rest with
        | String e rest' =>
            match unescape e, chars rest' with
            | Some c', Some (body, rest'') => Some (String c' body, rest'')
            | _, _ => None
            end
        | EmptyString => None
        end
      else if Nat.ltb (code c) 32 then None
      else match chars rest with
           | Some (body, rest') => Some (String c body, rest')
           | None => None
           end
  end.

Definition literal (word : string) (v : json) (s : string) : option (json * string) :=
  match after word s with Some rest => Some (v, rest) | None => None end.

Fixpoint value (fuel : nat) (s : string) : option (json * string) :=
  match fuel with
  | O => None
  | S fuel' =>
      match skipSpace s with
      | EmptyString => None
      | String c rest as s' =>
          if Nat.eqb (code c) 110 then literal "null" JNull s'
          else if Nat.eqb (code c) 116 then literal "true" (JBool true) s'
          else if Nat.eqb (code c) 102 then literal "false" (JBool false) s'
          else if Nat.eqb (code c) 34 then
            match chars rest with
            | Some (body, rest') => Some (JStr body, rest')
            | None => None
            end
          else if Nat.eqb (code c) 91 then
            match skipSpace rest with
            | String c' rest' as inner =>
                if Nat.eqb (code c') 93 then Some (JArr [], rest')
                else match elements fuel' inner with
                     | Some (items, rest'') => Some (JArr items, rest'')
                     | None => None
                     end
            | EmptyString => None
            end
          else if Nat.eqb (code c) 123 then
            match skipSpace rest with
            | String c' rest' as inner =>
                if Nat.eqb (code c') 125 then Some (JObj [], rest')
                else match members fuel' [] inner with
                     | Some (props, rest'') => Some (JObj props, rest'')
                     | None => None
                     end
            | EmptyString => None
            end
          else match number s' with
               | Some (x, rest') => Some (JNum x, rest')
               | None => None
               end
      end
  end
with elements (fuel : nat) (s : string) : option (list json * string) :=
  match fuel with
  | O => None
  | S fuel' =>
      match value fuel' s with
      | None => None
      | Some (v, rest) =>
          match skipSpace rest with
          | String c rest' =>
              if Nat.eqb (code c) 93 then Some ([v], rest')
              else if Nat.eqb (code c) 44 then
                match elements fuel' rest' with
                | Some (vs, rest'') => Some (v :: vs, rest'')
                | None => None
                end
              else None
          | EmptyString => None
          end
      end
  end
with members (fuel : nat) (acc : list (string * json)) (s : string)
  : option (list (string * json) * string) :=
  match fuel with
  | O => None
  | S fuel' =>
      match skipSpace s with
      | String q rest =>
          if negb (Nat.eqb (code q) 34) then None
          else
            match chars rest with
            | None => None
            | Some (key, rest1) =>
                match skipSpace rest1 with
                | String colon rest2 =>
                    if negb (Nat.eqb (code colon) 58) then None
                    else
                      match value fuel' rest2 with
                      | None => None
                      | Some (v, rest3) =>
                          let acc' := assoc_set key v acc in
                          match skipSpace rest3 with
                          | String c rest4 =>
                              if Nat.eqb (code c) 125 then Some (acc', rest4)
                              else if Nat.eqb (code c) 44 then members fuel' acc' rest4
                              else None
                          | EmptyString => None
                          end
                      end
                | EmptyString => None
                end
            end
      | EmptyString => None
      end
  end.

Definition parse (text : string) : string + json :=
  match value (2 * String.length text + 2) text with
  | Some (v, rest) =>
      match skipSpace rest with
      | EmptyString => inr v
      | _ => inl "SyntaxError: Unexpected non-whitespace character after JSON"
      end
  | None => inl "SyntaxError: Unexpected token in JSON"
  end.

End Json.

(** ** Results, thrown values and the server's state *)

Module Server.
Import Js.

(** The outcome of a call that may throw. *)
Inductive result (E A : Type) : Type :=
| Ok (value : A)
| Throw (error : E).
Arguments Ok {E A} value.
Arguments Throw {E A} error.

(** What a [throw] can carry to a [catch]. *)
Inductive thrown : Type :=
| ThrownError (message : string)                 (* new Error(message) *)
| ThrownHttp (statusCode : nat) (message : string) (* createError({ statusCode, message }) *)
| ThrownValue (v : json).                        (* any other value *)

(** database/schema.ts *)
Record TasteCategory : Type := {
  name : string;
  weight : Q;
  description : string;
  subCategories : option (list string)
}.

Definition set_weight (cat : TasteCategory) (w : Q) : TasteCategory :=
  {| name := name cat; weight := w;
     description := description cat; subCategories := subCategories cat |}.

(** llm/types.ts *)
Inductive Role : Set := system | user | assistant.

Record LLMMessage : Type := { role : Role; content : string }.

Record LLMCompletionOptions : Type := {
  temperature : option Q;
  maxTokens : option nat;
  topP : option Q;
  stop : option (list string)
}.

Record Usage : Type := {
  promptTokens : nat; completionTokens : nat; totalTokens : nat
}.

Record LLMCompletionResponse : Type := {
  response_content : string;
  response_usage : option Usage;
  response_model : string
}.

(** llm/github.ts *)
Record GitHubModelsProvider : Type := { token : string; model : string }.

Record RequestBody : Type := {
  body_model : string;
  body_messages : list LLMMessage;
  body_temperature : Q;
  body_max_tokens : nat;
  body_top_p : Q;
  body_stop : option (list string)
}.

Record FetchRequest : Type := {
  url : string;
  authorization : string;
  body : RequestBody
}.

Record GitHubModelsChoice : Type := {
  message_role : string;
  message_content : string
}.

Record GitHubModelsResponse : Type := {
  choices : option (list (option GitHubModelsChoice));
  usage : option Usage;
  data_model : option string
}.

(** The reply to a [fetch]: [response.ok], [response.status], the body as
    [response.text()] gives it and as [response.json()] decodes it. *)
Record HttpResponse : Type := {
  ok : bool;
  status : nat;
  text : string;
  json_body : result thrown GitHubModelsResponse
}.

Definition loc : Set := nat.

(** The state the server code reads and writes: [process.env], the arrays
    of categories held by callers, the module variable [cachedProvider],
    and the requests sent with [fetch], oldest first. *)
Record world : Type := {
  env : gmap string string;
  heap : gmap loc (list TasteCategory);
  cachedProvider : option GitHubModelsProvider;
  network : list FetchRequest
}.

Definition set_heap (h : gmap loc (list TasteCategory)) (w : world) : world :=
  {| env := env w; heap := h;
     cachedProvider := cachedProvider w; network := network w |}.

Definition set_cachedProvider (p : option GitHubModelsProvider) (w : world) : world :=
  {| env := env w; heap := heap w; cachedProvider := p; network := network w |}.

Definition log_request (r : FetchRequest) (w : world) : world :=
  {| env := env w; heap := heap w;
     cachedProvider := cachedProvider w; network := network w ++ [r] |}.

(** Server code: a state transformer that returns or throws. *)
Definition M (A : Type) : Type := world -> result thrown A * world.

Definition ret {A} (a : A) : M A := fun w => (Ok a, w).
Definition throw {A} (e : thrown) : M A := fun w => (Throw e, w).
Definition bind {A B} (m : M A) (k : A -> M B) : M B :=
  fun w => match m w with
           | (Ok a, w') => k a w'
           | (Throw e, w') => (Throw e, w')
           end.
Definition gets {A} (f : world -> A) : M A := fun w => (Ok (f w), w).
Definition modify (f : world -> world) : M unit := fun w => (Ok tt, f w).

(** [try { m } catch (error) { handler(error) }] *)
Definition try_catch {A} (m : M A) (handler : thrown -> M A) : M A :=
  fun w => match m w with
           | (Ok a, w') => (Ok a, w')
           | (Throw e, w') => handler e w'
           end.

(** A pure computation that may throw, run inside server code. *)
Definition lift {E A} (message : E -> string) (r : result E A) : M A :=
  match r with
  | Ok a => ret a
  | Throw e => throw (ThrownError (message e))
  end.

End Server.

Declare Scope server_scope.
Delimit Scope server_scope with server.
Notation "'let!' x ':=' m 'in' k" := (Server.bind m (fun x => k))
  (at level 10, x name, m at level 100, k at level 200) : server_scope.
Notation "'do!' m 'in' k" := (Server.bind m (fun _ => k))
  (at level 10, m at level 100, k at level 200) : server_scope.

(** ** The LLM service: llm/github.ts and llm/index.ts *)

Module Llm.
Import Js Server.
#[local] Open Scope server_scope.

Definition GITHUB_MODELS_API_URL : string :=
  "https://models.github.ai/inference/chat/completions".

(** [DEFAULT_MODELS.github] *)
Definition DEFAULT_MODEL_github : string := "openai/gpt-4o".

(** [Boolean(this.token)] *)
Definition isConfigured (p : GitHubModelsProvider) : bool :=
  negb (String.eqb (token p) "").

Section Provider.
(** The network: what the endpoint answers to a request, or the rejection
    of the [fetch] promise. *)
Variable fetch : FetchRequest -> result thrown HttpResponse.

Definition default {A} (o : option A) (d : A) : A :=
  match o with Some a => a | None => d end.

(** [GitHubModelsProvider.complete] *)
Definition provider_complete (this : GitHubModelsProvider)
    (messages : list LLMMessage) (options : LLMCompletionOptions)
  : M LLMCompletionResponse :=
  if negb (isConfigured this) then
    throw (ThrownError
      "GitHub Models provider is not configured. Set GITHUB_TOKEN environment variable.")
  else
    let requestBody :=
      {| body_model := model this;
         body_messages := messages;
         body_temperature := default (temperature options) (7 # 10);
         body_max_tokens := default (maxTokens options) 4000%nat;
         body_top_p := default (topP options) 1%Q;
         body_stop := stop options |} in
    let request :=
      {| url := GITHUB_MODELS_API_URL;
         authorization := "Bearer " ++ token this;
         body := requestBody |} in
    do! modify (log_request request) in
    match fetch request with
    | Throw e => throw e
    | Ok response =>
        if negb (ok response) then
          let errorText := text response in
          throw (ThrownError
            ("GitHub Models API error (" ++ string_of_nat (status response)
             ++ "): " ++ errorText))
        else
          match json_body response with
          | Throw e => throw e
          | Ok data =>
              match choices data with
              | None | Some [] =>
                  throw (ThrownError "GitHub Models API returned no choices")
              | Some (None :: _) =>
                  throw (ThrownError "GitHub Models API returned empty choice")
              | Some (Some choice :: _) =>
                  ret {| response_content := message_content choice;
                         response_usage := usage data;
                         response_model := default (data_model data) (model this) |}
              end
          end
    end.

(** [createGitHubModelsProvider] *)
Definition createGitHubModelsProvider : M (option GitHubModelsProvider) :=
  let! e := gets env in
  match e !! "GITHUB_TOKEN" with
  | None => ret None
  | Some tok =>
      if String.eqb tok "" then ret None
      else ret (Some {| token := tok;
                        model := default (e !! "GITHUB_MODEL") DEFAULT_MODEL_github |})
  end.

(** [getLLMProvider] *)
Definition getLLMProvider : M GitHubModelsProvider :=
  let! cached := gets cachedProvider in
  match cached with
  | Some p => ret p
  | None =>
      let! githubProvider := createGitHubModelsProvider in
      match githubProvider with
      | Some p =>
          if isConfigured p
          then do! modify (set_cachedProvider (Some p)) in ret p
          else throw (ThrownError
            "No LLM provider configured. Please set GITHUB_TOKEN environment variable with a token that has models:read permission.")
      | None =>
          throw (ThrownError
            "No LLM provider configured. Please set GITHUB_TOKEN environment variable with a token that has models:read permission.")
      end
  end.

(** [isLLMConfigured] *)
Definition isLLMConfigured : M bool :=
  try_catch (do! getLLMProvider in ret true) (fun _ => ret false).

(** [complete] *)
Definition complete (messages : list LLMMessage) (options : LLMCompletionOptions)
  : M LLMCompletionResponse :=
  let! provider := getLLMProvider in
  provider_complete provider messages options.

End Provider.
End Llm.

(** ** The taste analyzer: services/analyzer.ts *)

Module Analyzer.
Import Js Fence Server.
#[local] Open Scope string_scope.
#[local] Open Scope server_scope.

Record ChannelData : Type := {
  channelTitle : string;
  channelDescription : option string;
  subscriberCount : option Z;
  videoCount : option Z
}.

(** [VideoData]; its field [channelTitle] is [videoChannelTitle] here. *)
Record VideoData : Type := {
  videoTitle : string;
  videoChannelTitle : string
}.

Record TasteAnalysisInput : Type := {
  subscriptions : list ChannelData;
  likedVideos : list VideoData
}.

Record TasteAnalysisResult : Type := {
  categories : list TasteCategory;
  analysisSummary : string
}.

(** The [throw] sites of [parseAnalysisResponse]. *)
Inductive failure : Type :=
| FailedToParse (e : string)
| NotAnObject
| MissingCategories
| MissingAnalysisSummary
| CategoryNotObject (index : nat)
| CategoryMissingName (index : nat)
| CategoryMissingWeight (index : nat)
| CategoryMissingDescription (index : nat).

(** The message of the [Error] thrown at each site. *)
Definition message (f : failure) : string :=
  match f with
  | FailedToParse e => "Failed to parse LLM response as JSON: " ++ e
  | NotAnObject => "LLM response is not an object"
  | MissingCategories => "LLM response missing categories array"
  | MissingAnalysisSummary => "LLM response missing analysisSummary string"
  | CategoryNotObject index =>
      "Category " ++ string_of_nat index ++ " is not an object"
  | CategoryMissingName index =>
      "Category " ++ string_of_nat index ++ " missing name"
  | CategoryMissingWeight index =>
      "Category " ++ string_of_nat index ++ " missing weight"
  | CategoryMissingDescription index =>
      "Category " ++ string_of_nat index ++ " missing description"
  end.

(** [formatSubscriptions] *)
Definition formatSubscription (sub : ChannelData) : string :=
  let title := "- " ++ channelTitle sub in
  match channelDescription sub with
  | None => title
  | Some EmptyString => title
  | Some d =>
      let desc := String.substring 0 100 d in
      let dots := if Nat.ltb 100 (String.length d) then "..." else "" in
      join " " [title; "(" ++ desc ++ dots ++ ")"]
  end.

Definition formatSubscriptions (subs : list ChannelData) (maxItems : nat) : string :=
  join nl (map formatSubscription (firstn maxItems subs)).

(** [formatLikedVideos] *)
Definition formatLikedVideo (video : VideoData) : string :=
  "- " ++ quoted (videoTitle video) ++ " by " ++ videoChannelTitle video.

Definition formatLikedVideos (videos : list VideoData) (maxItems : nat) : string :=
  join nl (map formatLikedVideo (firstn maxItems videos)).

(** [a || b] on strings *)
Definition or_else (a b : string) : string :=
  match a with EmptyString => b | _ => a end.

Definition as_string (v : option json) : string :=
  match v with Some (JStr s) => s | _ => EmptyString end.

Definition as_number (v : option json) : Q :=
  match v with Some (JNum x) => x | _ => 0%Q end.

Definition as_array (v : option json) : list json :=
  match v with Some (JArr items) => items | _ => [] end.

Definition is_string (v : json) : bool :=
  js_type_eqb (typeof (Some v)) TString.

Definition string_items (items : list json) : list string :=
  map (fun s => as_string (Some s)) (List.filter is_string items).

(** The callback of [response.categories.map] (lines 155-182). *)
Definition validateCategory (cat : json) (index : nat) : result failure TasteCategory :=
  if negb (truthy (Some cat)) || negb (js_type_eqb (typeof (Some cat)) TObject)
  then Throw (CategoryNotObject index)
  else
    let category := as_record cat in
    if negb (js_type_eqb (typeof (assoc "name" category)) TString)
    then Throw (CategoryMissingName index)
    else if negb (js_type_eqb (typeof (assoc "weight" category)) TNumber)
    then Throw (CategoryMissingWeight index)
    else if negb (js_type_eqb (typeof (assoc "description" category)) TString)
    then Throw (CategoryMissingDescription index)
    else Ok {| name := as_string (assoc "name" category);
               weight := clamp01 (as_number (assoc "weight" category));
               description := as_string (assoc "description" category);
               subCategories :=
                 if isArray (assoc "subCategories" category)
                 then Some (string_items (as_array (assoc "subCategories" category)))
                 else None |}.

(** [items.map(validateCategory)] from [index] on; the first [throw] ends it. *)
Fixpoint mapCategories (items : list json) (index : nat)
  : result failure (list TasteCategory) :=
  match items with
  | [] => Ok []
  | cat :: rest =>
      match validateCategory cat index with
      | Throw e => Throw e
      | Ok c =>
          match mapCategories rest (S index) with
          | Throw e => Throw e
          | Ok cs => Ok (c :: cs)
          end
      end
  end.

(** [categories.reduce((sum, cat) => sum + cat.weight, 0)] *)
Definition totalWeight (cats : list TasteCategory) : Q :=
  fold_left (fun sum cat => Binary64.add sum (weight cat)) cats 0%Q.

(** Lines 185-190: the weights after the [forEach]. *)
Definition normalizeWeights (cats : list TasteCategory) : list TasteCategory :=
  let total := totalWeight cats in
  if Qlt_le_dec 0 total
  then map (fun cat => set_weight cat (Binary64.div (weight cat) total)) cats
  else cats.

Section Parser.
Variable JSON_parse : string -> string + json.

(** [parseAnalysisResponse] *)
Definition parseAnalysisResponse (content : string) : result failure TasteAnalysisResult :=
  match JSON_parse (jsonContent content) with
  | inl e => Throw (FailedToParse e)
  | inr parsed =>
      if negb (truthy (Some parsed)) || negb (js_type_eqb (typeof (Some parsed)) TObject)
      then Throw NotAnObject
      else
        let response := as_record parsed in
        if negb (isArray (assoc "categories" response))
        then Throw MissingCategories
        else if negb (js_type_eqb (typeof (assoc "analysisSummary" response)) TString)
        then Throw MissingAnalysisSummary
        else
          match mapCategories (as_array (assoc "categories" response)) 0 with
          | Throw e => Throw e
          | Ok cats =>
              Ok {| categories := normalizeWeights cats;
                    analysisSummary := as_string (assoc "analysisSummary" response) |}
          end
  end.

Variable fetch : FetchRequest -> result thrown HttpResponse.
Variable SYSTEM_PROMPT : string.
(** [USER_PROMPT_TEMPLATE] with its four placeholders replaced, in the
    order of the [replace] calls. *)
Variable USER_PROMPT_TEMPLATE : string -> string -> string -> string -> string.

(** [buildAnalysisPrompt] *)
Definition buildAnalysisPrompt (input : TasteAnalysisInput) : string :=
  let subscriptionsText := formatSubscriptions (subscriptions input) 50 in
  let likedVideosText := formatLikedVideos (likedVideos input) 30 in
  USER_PROMPT_TEMPLATE
    (string_of_nat (length (subscriptions input)))
    (or_else subscriptionsText "No subscriptions available")
    (string_of_nat (length (likedVideos input)))
    (or_else likedVideosText "No liked videos available").

(** [analyzeTaste] *)
Definition analyzeTaste (input : TasteAnalysisInput) : M TasteAnalysisResult :=
  if Nat.eqb (length (subscriptions input)) 0 && Nat.eqb (length (likedVideos input)) 0
  then throw (ThrownError
    "No YouTube data available to analyze. Please sync your YouTube data first.")
  else
    let userPrompt := buildAnalysisPrompt input in
    let messages :=
      [ {| role := system; content := SYSTEM_PROMPT |};
        {| role := user; content := userPrompt |} ] in
    let! response :=
      Llm.complete fetch messages
        {| temperature := Some (7 # 10); maxTokens := Some 2000%nat;
           topP := None; stop := None |} in
    lift message (parseAnalysisResponse (response_content response)).

End Parser.
End Analyzer.

(** ** The recommender: services/recommender.ts *)

Module Recommender.
Import Js Fence Server.
#[local] Open Scope string_scope.
#[local] Open Scope server_scope.

Inductive RecommendationType : Set := channel | hidden_gem | content_gap.

Record RecommendationItem : Type := {
  type : RecommendationType;
  channelTitle : string;
  channelId : option string;
  reason : string;
  category : string;
  confidenceScore : Q;
  subscriberCount : option Q
}.

(** [tasteProfile.categories] is a reference to the caller's array. *)
Record TasteProfileInput : Type := {
  categories : loc;
  analysisSummary : string
}.

Record RecommendationsInput : Type := {
  tasteProfile : TasteProfileInput;
  existingSubscriptions : list string
}.

Record RecommendationsResult : Type := {
  recommendations : list RecommendationItem
}.

(** The [throw] sites of [parseRecommendationsResponse]. *)
Inductive failure : Type :=
| FailedToParse (e : string)
| NotAnObject
| MissingRecommendations
| NoValidRecommendations.

Definition message (f : failure) : string :=
  match f with
  | FailedToParse e => "Failed to parse LLM response as JSON: " ++ e
  | NotAnObject => "LLM response is not an object"
  | MissingRecommendations => "LLM response missing recommendations array"
  | NoValidRecommendations => "No valid recommendations in LLM response"
  end.

(** [Array.prototype.sort(compareFn)]: a stable sort. Each element goes
    after those that [compareFn] orders strictly before it. *)
Section Sort.
Context {A : Type} (compareFn : A -> A -> Q).

Fixpoint insert (x : A) (sorted : list A) : list A :=
  match sorted with
  | [] => [x]
  | y :: rest =>
      if Qlt_le_dec 0 (compareFn x y) then y :: insert x rest else x :: sorted
  end.

Definition sort (items : list A) : list A := fold_right insert [] items.
End Sort.

(** [(a, b) => b.weight - a.weight]. [sort] looks at the sign of the
    difference only, and the rounded difference of two doubles has the
    sign of the exact one. *)
Definition byWeightDescending (a b : TasteCategory) : Q := (weight b - weight a)%Q.

(** The callback of [.map] in [formatCategories]. *)
Definition formatCategory (cat : TasteCategory) : string :=
  let percent := round (Binary64.mul (weight cat) 100) in
  let subs :=
    match subCategories cat with
    | Some (s :: rest) => " (" ++ join ", " (s :: rest) ++ ")"
    | Some [] => ""
    | None => ""
    end in
  "- " ++ name cat ++ " (" ++ string_of_Z percent ++ "%): " ++ description cat ++ subs.

(** [formatCategories]: [sort] reorders the array it is given, in place,
    and [map] builds the lines from it. *)
Definition formatCategories (categories : loc) : M string :=
  let! items := gets (fun w => heap w !!! categories) in
  let sorted := sort byWeightDescending items in
  do! modify (fun w => set_heap (<[categories := sorted]> (heap w)) w) in
  ret (join nl (map formatCategory sorted)).

(** [formatExclusions] *)
Definition formatExclusions (subscriptions : list string) (maxItems : nat) : string :=
  if Nat.eqb (length subscriptions) 0 then "None"
  else join ", " (firstn maxItems subscriptions).

Definition as_string (v : option json) : string :=
  match v with Some (JStr s) => s | _ => EmptyString end.

Definition as_number (v : option json) : Q :=
  match v with Some (JNum x) => x | _ => 0%Q end.

Definition as_array (v : option json) : list json :=
  match v with Some (JArr items) => items | _ => [] end.

Definition is_type (t : js_type) (v : option json) : bool :=
  js_type_eqb (typeof v) t.

(** [['channel', 'hidden_gem', 'content_gap'].includes(s)] *)
Definition recognized (s : string) : bool :=
  existsb (String.eqb s) ["channel"; "hidden_gem"; "content_gap"].

(** [v as RecommendationType] *)
Definition as_type (v : option json) : RecommendationType :=
  if String.eqb (as_string v) "hidden_gem" then hidden_gem
  else if String.eqb (as_string v) "content_gap" then content_gap
  else channel.

(** The body of the [for] loop (lines 260-301): the item it pushes, or
    [None] when it reaches a [continue]. The assignments to [item] update
    the parsed object. *)
Definition processEntry (rec : json) : option RecommendationItem :=
  if negb (truthy (Some rec)) || negb (is_type TObject (Some rec)) then None
  else
    let item := as_record rec in
    if negb (is_type TString (assoc "channelTitle" item))
       || negb (truthy (assoc "channelTitle" item))
    then None
    else
      let item :=
        if negb (is_type TString (assoc "type" item))
           || negb (recognized (as_string (assoc "type" item)))
        then assoc_set "type" (JStr "channel") item
        else item in
      if negb (is_type TString (assoc "reason" item))
         || negb (truthy (assoc "reason" item))
      then None
      else
        let item :=
          if negb (is_type TString (assoc "category" item))
             || negb (truthy (assoc "category" item))
          then assoc_set "category" (JStr "General") item
          else item in
        let item :=
          if negb (is_type TNumber (assoc "confidenceScore" item))
          then assoc_set "confidenceScore" (JNum (7 # 10)) item
          else item in
        Some {| type := as_type (assoc "type" item);
                channelTitle := as_string (assoc "channelTitle" item);
                channelId :=
                  if is_type TString (assoc "channelId" item)
                  then Some (as_string (assoc "channelId" item)) else None;
                reason := as_string (assoc "reason" item);
                category := as_string (assoc "category" item);
                confidenceScore := clamp01 (as_number (assoc "confidenceScore" item));
                subscriberCount :=
                  if is_type TNumber (assoc "subscriberCount" item)
                  then Some (as_number (assoc "subscriberCount" item)) else None |}.

(** The [for] loop over [response.recommendations], from the entries left
    to visit and the array built so far. *)
Fixpoint collect (entries : list json) (recommendations : list RecommendationItem)
  : list RecommendationItem :=
  match entries with
  | [] => recommendations
  | rec :: rest =>
      match processEntry rec with
      | None => collect rest recommendations
      | Some item => collect rest (recommendations ++ [item])%list
      end
  end.

Section Parser.
Variable JSON_parse : string -> string + json.

(** [parseRecommendationsResponse] *)
Definition parseRecommendationsResponse (content : string)
  : result failure RecommendationsResult :=
  match JSON_parse (jsonContent content) with
  | inl e => Throw (FailedToParse e)
  | inr parsed =>
      if negb (truthy (Some parsed)) || negb (is_type TObject (Some parsed))
      then Throw NotAnObject
      else
        let response := as_record parsed in
        if negb (isArray (assoc "recommendations" response))
        then Throw MissingRecommendations
        else
          let recommendations :=
            collect (as_array (assoc "recommendations" response)) [] in
          if Nat.eqb (length recommendations) 0
          then Throw NoValidRecommendations
          else Ok {| recommendations := recommendations |}
  end.

Variable fetch : FetchRequest -> result thrown HttpResponse.
Variable SYSTEM_PROMPT : string.
(** [USER_PROMPT_TEMPLATE] with its three placeholders replaced, in the
    order of the [replace] calls. *)
Variable USER_PROMPT_TEMPLATE : string -> string -> string -> string.

(** [buildPrompt] *)
Definition buildPrompt (input : RecommendationsInput) : M string :=
  let! categoriesText := formatCategories (categories (tasteProfile input)) in
  let exclusionsText := formatExclusions (existingSubscriptions input) 100 in
  ret (USER_PROMPT_TEMPLATE
         (analysisSummary (tasteProfile input)) categoriesText exclusionsText).

(** [generateRecommendations] *)
Definition generateRecommendations (input : RecommendationsInput)
  : M RecommendationsResult :=
  let! items := gets (fun w => heap w !!! categories (tasteProfile input)) in
  if Nat.eqb (length items) 0
  then throw (ThrownError
    "No taste profile available. Please analyze your tastes first.")
  else
    let! userPrompt := buildPrompt input in
    let messages :=
      [ {| role := system; content := SYSTEM_PROMPT |};
        {| role := user; content := userPrompt |} ] in
    let! response :=
      Llm.complete fetch messages
        {| temperature := Some (8 # 10); maxTokens := Some 3000%nat;
           topP := None; stop := None |} in
    lift message (parseRecommendationsResponse (response_content response)).

End Parser.
End Recommender.

(** ** The route POST /api/analyze: api/analyze.post.ts *)

Module AnalyzeRoute.
Import Js Server.
#[local] Open Scope string_scope.
#[local] Open Scope server_scope.

Record AnalyzeResponse : Type := {
  profile_id : nat;
  profile_categories : list TasteCategory;
  profile_analysisSummary : string;
  response_message : string
}.

(** [error && typeof error === 'object' && 'statusCode' in error] *)
Definition has_statusCode (error : thrown) : bool :=
  match error with
  | ThrownError _ => false
  | ThrownHttp _ _ => true
  | ThrownValue (JObj props) =>
      match assoc "statusCode" props with Some _ => true | None => false end
  | ThrownValue _ => false
  end.

(** [error instanceof Error ? error.message : fallback] *)
Definition message_or (error : thrown) (fallback : string) : string :=
  match error with
  | ThrownError m => m
  | ThrownHttp _ m => m
  | ThrownValue _ => fallback
  end.

(** The [catch] block (lines 81-93); what it throws reaches the client. *)
Definition catch_block {A} (error : thrown) : M A :=
  if has_statusCode error then throw error
  else throw (ThrownHttp 500 (message_or error "Failed to analyze taste profile")).

Section Handler.
Variable JSON_parse : string -> string + json.
Variable fetch : FetchRequest -> result thrown HttpResponse.
Variable SYSTEM_PROMPT : string.
Variable USER_PROMPT_TEMPLATE : string -> string -> string -> string -> string.
(** The database: replacing the user's taste profile gives the new row's
    id, no row, or throws. *)
Variable db_replace_profile :
  Analyzer.TasteAnalysisResult -> result thrown (option nat).

(** The handler, for an authenticated session whose stored rows are
    [userSubscriptions] and [userLikedVideos]. *)
Definition handler (userSubscriptions : list Analyzer.ChannelData)
    (userLikedVideos : list Analyzer.VideoData) : M AnalyzeResponse :=
  let! configured := Llm.isLLMConfigured in
  if negb configured
  then throw (ThrownHttp 503
    "LLM service is not configured. Please set GITHUB_TOKEN environment variable.")
  else
    try_catch
      (if Nat.eqb (length userSubscriptions) 0 && Nat.eqb (length userLikedVideos) 0
       then throw (ThrownHttp 400
         "No YouTube data found. Please sync your YouTube data first.")
       else
         let analysisInput :=
           {| Analyzer.subscriptions := userSubscriptions;
              Analyzer.likedVideos := userLikedVideos |} in
         let! result :=
           Analyzer.analyzeTaste JSON_parse fetch SYSTEM_PROMPT
             USER_PROMPT_TEMPLATE analysisInput in
         match db_replace_profile result with
         | Throw e => throw e
         | Ok None => throw (ThrownError "Failed to save taste profile")
         | Ok (Some id) =>
             ret {| profile_id := id;
                    profile_categories := Analyzer.categories result;
                    profile_analysisSummary := Analyzer.analysisSummary result;
                    response_message :=
                      "Analyzed " ++ string_of_nat (length userSubscriptions)
                      ++ " subscriptions and "
                      ++ string_of_nat (length userLikedVideos)
                      ++ " liked videos" |}
         end)
      catch_block.

End Handler.
End AnalyzeRoute.

(** ** The documented behaviour

    The failure classes of the specification, and the per-entry rules of
    the two parsers as the specification words them. *)

Module Documented.
Import Js Server.
#[local] Open Scope string_scope.

(** The taxonomy of failures. *)
Inductive classification : Set :=
| NotConfigured | ProviderError | EmptyResponse | MalformedResponse
| InvalidShape | NoData | NoTasteProfile | NoValidRecommendations.

Definition classifyAnalysis (f : Analyzer.failure) : classification :=
  match f with
  | Analyzer.FailedToParse _ => MalformedResponse
  | _ => InvalidShape
  end.

Definition classifyRecommendations (f : Recommender.failure) : classification :=
  match f with
  | Recommender.FailedToParse _ => MalformedResponse
  | Recommender.NoValidRecommendations => NoValidRecommendations
  | _ => InvalidShape
  end.

(** The category index a failure names. *)
Definition namedIndex (f : Analyzer.failure) : option nat :=
  match f with
  | Analyzer.CategoryNotObject i | Analyzer.CategoryMissingName i
  | Analyzer.CategoryMissingWeight i | Analyzer.CategoryMissingDescription i => Some i
  | _ => None
  end.

Definition isString (v : option json) : bool :=
  match v with Some (JStr _) => true | _ => false end.

Definition isNumber (v : option json) : bool :=
  match v with Some (JNum _) => true | _ => false end.

Definition isNonEmptyString (v : option json) : bool :=
  match v with Some (JStr s) => negb (String.eqb s "") | _ => false end.

(** A category entry is well formed when it is an object whose [name] is a
    string, whose [weight] is a number and whose [description] is a string. *)
Definition wellFormedCategory (entry : json) : bool :=
  match entry with
  | JObj props =>
      isString (assoc "name" props) && isNumber (assoc "weight" props)
      && isString (assoc "description" props)
  | _ => false
  end.

(** The string entries of a list, the others dropped. *)
Fixpoint onlyStrings (items : list json) : list string :=
  match items with
  | [] => []
  | JStr s :: rest => s :: onlyStrings rest
  | _ :: rest => onlyStrings rest
  end.

(** [subCategories] of a category entry: filtered when it is an array. *)
Definition documentedSubCategories (entry : json) : option (list string) :=
  match assoc "subCategories" (as_record entry) with
  | Some (JArr items) => Some (onlyStrings items)
  | _ => None
  end.

(** A recommendation entry is kept when it is an object whose
    [channelTitle] and [reason] are non-empty strings. *)
Definition kept (entry : json) : bool :=
  match entry with
  | JObj props =>
      isNonEmptyString (assoc "channelTitle" props)
      && isNonEmptyString (assoc "reason" props)
  | _ => false
  end.

Definition documentedType (v : option json) : Recommender.RecommendationType :=
  match v with
  | Some (JStr s) =>
      if String.eqb s "hidden_gem" then Recommender.hidden_gem
      else if String.eqb s "content_gap" then Recommender.content_gap
      else Recommender.channel
  | _ => Recommender.channel
  end.



(** The item built from the properties of a kept entry. *)
Definition itemOf (props : list (string * json)) : Recommender.RecommendationItem :=
  {| Recommender.type := documentedType (assoc "type" props);
     Recommender.channelTitle := Recommender.as_string (assoc "channelTitle" props);
     Recommender.channelId :=
       match assoc "channelId" props with Some (JStr s) => Some s | _ => None end;
     Recommender.reason := Recommender.as_string (assoc "reason" props);
     Recommender.category :=
       if isNonEmptyString (assoc "category" props)
       then Recommender.as_string (assoc "category" props) else "General";
     Recommender.confidenceScore :=
       match assoc "confidenceScore" props with
       | Some (JNum x) => clamp01 x
       | _ => (7 # 10)%Q
       end;
     Recommender.subscriberCount :=
       match assoc "subscriberCount" props with Some (JNum x) => Some x | _ => None end |}.


(** The sum of the weights, as a sum of real numbers. *)
Definition sumOfWeights (cats : list TasteCategory) : Q :=
  fold_right (fun c sum => (weight c + sum)%Q) 0%Q cats.

(** A language tag runs to the end of the line of the opening marker: it
    has no line break. *)
Fixpoint noLineBreak (s : string) : bool :=
  match s with
  | EmptyString => true
  | String c rest => negb (Ascii.eqb c LF) && noLineBreak rest
  end.

(** [p] is [x] rounded to the nearest integer, upwards from the middle. *)
Definition roundedTo (x : Q) (p : Z) : Prop :=
  (inject_Z p - (1 # 2) <= x < inject_Z p + (1 # 2))%Q.

(** The sub-categories of a line, joined by [, ] in parentheses: "when
    present", and when present and not empty. *)
Definition subsWhenPresent (cat : TasteCategory) : string :=
  match subCategories cat with
  | Some subs => " (" ++ String.concat ", " subs ++ ")"
  | None => ""
  end.

Definition subsWhenNotEmpty (cat : TasteCategory) : string :=
  match subCategories cat with
  | Some (s :: rest) => " (" ++ String.concat ", " (s :: rest) ++ ")"
  | _ => ""
  end.

(** [- {name} ({percent}%): {description}], and what follows. *)
Definition lineOf (cat : TasteCategory) (percent : Z) (subs : string) : string :=
  "- " ++ name cat ++ " (" ++ NilZero.string_of_int (Z.to_int percent) ++ "%): "
  ++ description cat ++ subs.

(** [a] may stand before [b] in the order of descending weight. *)
Definition descending (a b : TasteCategory) : Prop := (weight b <= weight a)%Q.

(** The categories of weight [v]. *)
Definition sameWeight (v : Q) (c : TasteCategory) : bool := Qeq_bool (weight c) v.

(** The items of the outcomes that are not skipped, in order. *)
Fixpoint keptItems {A} (outcomes : list (option A)) : list A :=
  match outcomes with
  | [] => []
  | Some a :: rest => a :: keptItems rest
  | None :: rest => keptItems rest
  end.

End Documented.

(** ** Sample responses *)

Module Examples.
Import Js Server.
#[local] Open Scope string_scope.

(** ["key":value] *)
Definition field (key value : string) : string := quoted key ++ ":" ++ value.

(** [{"categories":[],"analysisSummary":"s"}] *)
Definition emptyCategories : string :=
  "{" ++ field "categories" "[]" ++ "," ++ field "analysisSummary" (quoted "s") ++ "}".

Definition categoryEntry (name weight description : string) : string :=
  "{" ++ field "name" (quoted name) ++ "," ++ field "weight" weight ++ ","
  ++ field "description" (quoted description) ++ "}".

(** Two categories of weights 1.5 and 0.25, the second with
    [subCategories] set to ["a",1,null]. *)
Definition overweight : string :=
  "{" ++ field "categories"
           ("[" ++ categoryEntry "Tech" "1.5" "x" ++ ",{"
            ++ field "name" (quoted "Games") ++ "," ++ field "weight" "0.25" ++ ","
            ++ field "description" (quoted "y") ++ ","
            ++ field "subCategories" ("[" ++ quoted "a" ++ ",1,null]") ++ "}]")
  ++ "," ++ field "analysisSummary" (quoted "s") ++ "}".

(** What the parser makes of it: the weights 1 and 0.25 over their sum
    1.25, that is the doubles 0.8 and 0.2. *)
Definition overweightResult : Analyzer.TasteAnalysisResult :=
  {| Analyzer.categories :=
       [ {| name := "Tech"; weight := 3602879701896397 # 4503599627370496;
            description := "x"; subCategories := None |};
         {| name := "Games"; weight := 3602879701896397 # 18014398509481984;
            description := "y"; subCategories := Some ["a"] |} ];
     Analyzer.analysisSummary := "s" |}.

(** Three categories of weights 0.1, 0.2 and 0.3, and what the parser
    makes of them: 0.16666666666666666, 0.3333333333333333 and
    0.4999999999999999. *)
Definition tenths : string :=
  "{" ++ field "categories"
           ("[" ++ categoryEntry "A" "0.1" "a" ++ "," ++ categoryEntry "B" "0.2" "b"
            ++ "," ++ categoryEntry "C" "0.3" "c" ++ "]")
  ++ "," ++ field "analysisSummary" (quoted "s") ++ "}".

Definition tenthsResult : Analyzer.TasteAnalysisResult :=
  {| Analyzer.categories :=
       [ {| name := "A"; weight := 6004799503160661 # 36028797018963968;
            description := "a"; subCategories := None |};
         {| name := "B"; weight := 6004799503160661 # 18014398509481984;
            description := "b"; subCategories := None |};
         {| name := "C"; weight := 4503599627370495 # 9007199254740992;
            description := "c"; subCategories := None |} ];
     Analyzer.analysisSummary := "s" |}.

(** A long response, as [JSON.parse] returns it: one category of weight
    1 followed by ten million of weight 1.2e-16, with empty names and
    descriptions. Its text has 460 million characters. *)
Definition manySmallCount : nat := N.to_nat 10000000.

Definition smallWeight : Q := Binary64.fl (12 # 100000000000000000).

Definition heavyEntry : json :=
  JObj [("name", JStr ""); ("weight", JNum 1); ("description", JStr "")].

Definition lightEntry : json :=
  JObj [("name", JStr ""); ("weight", JNum smallWeight); ("description", JStr "")].

Definition manySmall : json :=
  JObj [("categories", JArr (heavyEntry :: repeat lightEntry manySmallCount));
        ("analysisSummary", JStr "")].

Definition unnamed (w : Q) : TasteCategory :=
  {| name := ""; weight := w; description := ""; subCategories := None |}.

(** The categories with their clamped weights, and the result: the
    doubles nearest to [1 / total] and to [smallWeight / total], for the
    total [1 + 10^7 * 2^-52] that [reduce] arrives at. *)
Definition manySmallClamped : list TasteCategory :=
  unnamed 1 :: repeat (unnamed smallWeight) manySmallCount.

Definition manySmallResult : Analyzer.TasteAnalysisResult :=
  {| Analyzer.categories :=
       unnamed (35184372010707 # 35184372088832)
       :: repeat (unnamed (2433889147033881 # 20282409603651670423947251286016))
            manySmallCount;
     Analyzer.analysisSummary := "" |}.

(** Three entries: a well-formed one, a string, and an object without
    [name]. *)
Definition secondMalformed : string :=
  "{" ++ field "categories"
           ("[" ++ categoryEntry "Tech" "0.5" "x" ++ "," ++ quoted "not an object"
            ++ ",{}]")
  ++ "," ++ field "analysisSummary" (quoted "s") ++ "}".


(** Entries that are all skipped: no field, no reason, an empty title, a
    number. *)
Definition allSkipped : string :=
  "{" ++ field "recommendations"
           ("[{" ++ field "type" (quoted "channel") ++ "},{"
            ++ field "channelTitle" (quoted "Test") ++ "},{"
            ++ field "channelTitle" (quoted "") ++ ","
            ++ field "reason" (quoted "r") ++ "},3]") ++ "}".

(** A skipped entry followed by a complete one with a score of 1.5. *)
Definition oneKept : string :=
  "{" ++ field "recommendations"
           ("[{" ++ field "reason" (quoted "r") ++ "},{"
            ++ field "type" (quoted "hidden_gem") ++ ","
            ++ field "channelTitle" (quoted "B") ++ ","
            ++ field "channelId" (quoted "UC1") ++ ","
            ++ field "reason" (quoted "why") ++ ","
            ++ field "category" (quoted "Tech") ++ ","
            ++ field "confidenceScore" "1.5" ++ ","
            ++ field "subscriberCount" "1000" ++ "}]") ++ "}".

(** A profile whose lighter category comes first, and two of equal weight. *)
Definition low : TasteCategory :=
  {| name := "Low"; weight := 1 # 10; description := "l"; subCategories := None |}.
Definition high : TasteCategory :=
  {| name := "High"; weight := 5 # 10; description := "h";
     subCategories := Some ["a"; "b"] |}.
Definition first : TasteCategory :=
  {| name := "First"; weight := 2 # 10; description := "f"; subCategories := Some [] |}.
Definition second : TasteCategory :=
  {| name := "Second"; weight := 1 # 5; description := "s"; subCategories := None |}.

(** A category of weight 0.145, whose product with 100 is
    14.499999999999998. *)
Definition odd : TasteCategory :=
  {| name := "Odd"; weight := 145 # 1000; description := "o";
     subCategories := Some ["x"] |}.

(** A server with a token, no provider built yet, and the caller's array
    of categories at location 0. *)
Definition server : world :=
  {| env := {[ "GITHUB_TOKEN" := "t" ]};
     heap := {[ 0%nat := [low; first; high; second] ]};
     cachedProvider := None;
     network := [] |}.

(** The same server with another array at location 0. *)
Definition serverWithOdd : world :=
  set_heap {[ 0%nat := [first; odd; high] ]} server.

(** An endpoint that answers every request with status 500 and a body. *)
Definition failingEndpoint (request : FetchRequest) : result thrown HttpResponse :=
  Ok {| ok := false; status := 500;
        text := "upstream stack trace: secret";
        json_body := Throw (ThrownError "Unexpected token") |}.

Definition oneSubscription : list Analyzer.ChannelData :=
  [ {| Analyzer.channelTitle := "Fireship";
       Analyzer.channelDescription := None;
       Analyzer.subscriberCount := None;
       Analyzer.videoCount := None |} ].

End Examples.

(** ** More of the LLM service: llm/index.ts, llm/github.ts, api/llm/status.get.ts *)

Module LlmClient.
Import Js Server.
#[local] Open Scope string_scope.
#[local] Open Scope server_scope.

(** The server with [process.env] replaced. *)
Definition set_env (e : gmap string string) (w : world) : world :=
  {| env := e; heap := heap w;
     cachedProvider := cachedProvider w; network := network w |}.

(** The request of [GitHubModelsProvider.complete]: its URL, its
    [Authorization] header and its body. *)
Definition requestOf (this : GitHubModelsProvider) (messages : list LLMMessage)
    (options : LLMCompletionOptions) : FetchRequest :=
  {| url := Llm.GITHUB_MODELS_API_URL;
     authorization := "Bearer " ++ token this;
     body :=
       {| body_model := model this;
          body_messages := messages;
          body_temperature := Llm.default (temperature options) (7 # 10);
          body_max_tokens := Llm.default (maxTokens options) 4000%nat;
          body_top_p := Llm.default (topP options) 1%Q;
          body_stop := stop options |} |}.

(** [GitHubModelsProvider.getDefaultModel] *)
Definition getDefaultModel (this : GitHubModelsProvider) : string := model this.

(** No option given: [{}]. *)
Definition noOptions : LLMCompletionOptions :=
  {| temperature := None; maxTokens := None; topP := None; stop := None |}.

(** The reply of GET /api/llm/status. *)
Record StatusResponse : Type := {
  configured : bool;
  provider : option string;
  status_model : option string;
  status_message : string
}.

(** The handler of GET /api/llm/status. *)
Definition statusHandler : M StatusResponse :=
  let! isConfigured := Llm.isLLMConfigured in
  if negb isConfigured
  then ret {| configured := false; provider := None; status_model := None;
              status_message :=
                "No LLM provider configured. Set GITHUB_TOKEN environment variable." |}
  else
    let! provider := Llm.getLLMProvider in
    ret {| configured := true; provider := Some "github";
           status_model := Some (getDefaultModel provider);
           status_message := "LLM ready with " ++ "github" ++ " provider" |}.

End LlmClient.

(** ** The route POST /api/recommendations: api/recommendations.post.ts *)

Module RecommendationsRoute.
Import Js Server Recommender.
#[local] Open Scope string_scope.
#[local] Open Scope server_scope.

(** A row of the table [recommendations], as [returning()] gives it. *)
Record Row : Type := {
  row_id : nat;
  row_type : RecommendationType;
  row_channelId : option string;
  row_channelTitle : string;
  row_subscriberCount : option Q;
  row_reason : string;
  row_category : string;
  row_confidenceScore : Q
}.

(** The values inserted for one recommendation, without the columns set by
    the session and the clock. *)
Record NewRow : Type := {
  new_type : RecommendationType;
  new_channelId : option string;
  new_channelTitle : string;
  new_subscriberCount : option Q;
  new_reason : string;
  new_category : string;
  new_confidenceScore : Q
}.

Definition toNewRow (rec : RecommendationItem) : NewRow :=
  {| new_type := type rec;
     new_channelId := channelId rec;
     new_channelTitle := channelTitle rec;
     new_subscriberCount := subscriberCount rec;
     new_reason := reason rec;
     new_category := category rec;
     new_confidenceScore := confidenceScore rec |}.

Record ResponseItem : Type := {
  item_id : nat;
  item_type : RecommendationType;
  item_channelTitle : string;
  item_channelId : option string;
  item_reason : string;
  item_category : string;
  item_confidenceScore : Q
}.

Definition toResponseItem (rec : Row) : ResponseItem :=
  {| item_id := row_id rec;
     item_type := row_type rec;
     item_channelTitle := row_channelTitle rec;
     item_channelId := row_channelId rec;
     item_reason := row_reason rec;
     item_category := row_category rec;
     item_confidenceScore := row_confidenceScore rec |}.

Record Counts : Type := {
  count_channel : nat;
  count_hidden_gem : nat;
  count_content_gap : nat
}.

Record RecommendationsResponse : Type := {
  response_recommendations : list ResponseItem;
  counts : Counts;
  response_message : string
}.

Definition type_eqb (a b : RecommendationType) : bool :=
  match a, b with
  | channel, channel | hidden_gem, hidden_gem | content_gap, content_gap => true
  | _, _ => false
  end.

(** [result.recommendations.filter(r => r.type === t).length] *)
Definition countOf (t : RecommendationType) (recs : list RecommendationItem) : nat :=
  length (List.filter (fun r => type_eqb (type r) t) recs).

(** The [catch] block (lines 94-106). *)
Definition catch_block {A} (error : thrown) : M A :=
  if AnalyzeRoute.has_statusCode error then throw error
  else throw (ThrownHttp 500
                (AnalyzeRoute.message_or error "Failed to generate recommendations")).

Section Handler.
Variable JSON_parse : string -> string + json.
Variable fetch : FetchRequest -> result thrown HttpResponse.
Variable SYSTEM_PROMPT : string.
Variable USER_PROMPT_TEMPLATE : string -> string -> string -> string.
(** The database: replacing the user's recommendations gives the rows
    inserted, or throws. *)
Variable db_replace_recommendations : list NewRow -> result thrown (list Row).

(** The handler, for an authenticated session whose stored taste profile
    is [tasteProfile] and whose subscriptions have the titles
    [existingChannels]. *)
Definition handler (tasteProfile : option TasteProfileInput)
    (existingChannels : list string) : M RecommendationsResponse :=
  let! configured := Llm.isLLMConfigured in
  if negb configured
  then throw (ThrownHttp 503
    "LLM service is not configured. Please set GITHUB_TOKEN environment variable.")
  else
    try_catch
      (match tasteProfile with
       | None => throw (ThrownHttp 400
           "No taste profile found. Please analyze your tastes first.")
       | Some profile =>
           let! result :=
             generateRecommendations JSON_parse fetch SYSTEM_PROMPT USER_PROMPT_TEMPLATE
               {| Recommender.tasteProfile :=
                    {| categories := categories profile;
                       analysisSummary := analysisSummary profile |};
                  existingSubscriptions := existingChannels |} in
           match db_replace_recommendations (map toNewRow (recommendations result)) with
           | Throw e => throw e
           | Ok newRecommendations =>
               ret {| response_recommendations := map toResponseItem newRecommendations;
                      counts :=
                        {| count_channel := countOf channel (recommendations result);
                           count_hidden_gem := countOf hidden_gem (recommendations result);
                           count_content_gap :=
                             countOf content_gap (recommendations result) |};
                      response_message :=
                        "Generated "
                        ++ string_of_nat (length (recommendations result))
                        ++ " personalized recommendations" |}
           end
       end)
      catch_block.

End Handler.
End RecommendationsRoute.

(** ** The YouTube service: services/youtube.ts, and the routes that call it

    A reply of the YouTube Data API is taken to have the type the code
    declares for it.  [parseInt] is exact on integers of any size.  A loop
    that follows [nextPageToken] runs for as long as the API gives one:
    it takes the number of pages it may fetch, and ends as [OutOfFuel]
    when this number does not suffice. *)

Module YouTube.
Import Js Server.
#[local] Open Scope string_scope.

Definition YOUTUBE_API_BASE : string := "https://www.googleapis.com/youtube/v3".

(** What [parseInt] gives: an integer, or [NaN]. *)
Inductive integer : Set := NaN | Int (z : Z).

Definition digitValue (c : ascii) : option Z :=
  let n := nat_of_ascii c in
  if Nat.leb 48 n && Nat.leb n 57 then Some (Z.of_nat (n - 48)) else None.

(** The value of the longest prefix of decimal digits, if there is a digit. *)
Fixpoint digitsValue (acc : option Z) (s : string) : option Z :=
  match s with
  | EmptyString => acc
  | String c rest =>
      match digitValue c with
      | Some d =>
          digitsValue (Some (10 * match acc with Some n => n | None => 0 end + d)%Z) rest
      | None => acc
      end
  end.

Definition signed (negative : bool) (digits : option Z) : integer :=
  match digits with
  | Some n => Int (if negative then (- n)%Z else n)
  | None => NaN
  end.

(** [parseInt(s, 10)] *)
Definition parseInt (s : string) : integer :=
  match trimStart s with
  | String c rest =>
      if Ascii.eqb c "-" then signed true (digitsValue None rest)
      else if Ascii.eqb c "+" then signed false (digitsValue None rest)
      else signed false (digitsValue None (String c rest))
  | EmptyString => NaN
  end.

(** [n || fallback] on what [parseInt] gives *)
Definition integer_or (n : integer) (fallback : Z) : Z :=
  match n with
  | Int z => if Z.eqb z 0 then fallback else z
  | NaN => fallback
  end.

Record YouTubeChannel : Type := {
  id : string;
  title : string;
  description : string;
  thumbnail : string;
  subscriberCount : option integer;
  videoCount : option integer
}.

Record YouTubeVideo : Type := {
  video_id : string;
  video_title : string;
  video_thumbnail : string;
  video_channelId : string;
  video_channelTitle : string
}.

(** [thumbnails]: the [url] of each size that is present. *)
Record Thumbnails : Type := {
  default_url : option string;
  medium_url : option string;
  high_url : option string
}.

(** [YouTubeSubscriptionItem], its [snippet] flattened. *)
Record YouTubeSubscriptionItem : Type := {
  snippet_channelId : string;
  snippet_title : string;
  snippet_description : string;
  snippet_thumbnails : Thumbnails
}.

Record Statistics : Type := {
  statistics_subscriberCount : option string;
  statistics_videoCount : option string
}.

Record YouTubeChannelItem : Type := {
  item_id : string;
  statistics : option Statistics
}.

(** An item of the list of liked videos. *)
Record YouTubeVideoItem : Type := {
  liked_id : string;
  liked_title : string;
  liked_thumbnails : Thumbnails;
  liked_channelId : string;
  liked_channelTitle : string
}.

Record YouTubeListResponse (T : Type) : Type := {
  items : list T;
  nextPageToken : option string
}.
Arguments items {T} _.
Arguments nextPageToken {T} _.

(** A request: the URL before [?], the search parameters in the order
    [URLSearchParams] holds them, and the [Authorization] header. *)
Record Request : Type := {
  url : string;
  query : list (string * string);
  authorization : string
}.

(** The reply to a [fetch]: [response.ok], the body as [response.text()]
    gives it and as [response.json()] decodes it. *)
Record Response (T : Type) : Type := {
  ok : bool;
  text : string;
  json : result thrown (YouTubeListResponse T)
}.
Arguments ok {T} _.
Arguments text {T} _.
Arguments json {T} _.

(** How a call ends. *)
Inductive outcome (A : Type) : Type :=
| Returns (value : A)
| Throws (error : thrown)
| OutOfFuel.
Arguments Returns {A} value.
Arguments Throws {A} error.
Arguments OutOfFuel {A}.

(** Service code: it adds the requests it sends to those sent before. *)
Definition Y (A : Type) : Type := list Request -> outcome A * list Request.

Definition ret {A} (a : A) : Y A := fun sent => (Returns a, sent).
Definition throw {A} (e : thrown) : Y A := fun sent => (Throws e, sent).
Definition outOfFuel {A} : Y A := fun sent => (OutOfFuel, sent).
Definition bind {A B} (m : Y A) (k : A -> Y B) : Y B :=
  fun sent => match m sent with
              | (Returns a, sent') => k a sent'
              | (Throws e, sent') => (Throws e, sent')
              | (OutOfFuel, sent') => (OutOfFuel, sent')
              end.

(** [try { m } catch (error) { handler(error) }] *)
Definition try_catch {A} (m : Y A) (handler : thrown -> Y A) : Y A :=
  fun sent => match m sent with
              | (Throws e, sent') => handler e sent'
              | other => other
              end.

(** [await fetch(...)] against an endpoint. *)
Definition call {T} (endpoint : Request -> result thrown (Response T))
    (request : Request) : Y (Response T) :=
  fun sent => match endpoint request with
              | Ok response => (Returns response, (sent ++ [request])%list)
              | Throw e => (Throws e, (sent ++ [request])%list)
              end.

Definition lift {A} (r : result thrown A) : Y A :=
  match r with
  | Ok a => ret a
  | Throw e => throw e
  end.

Declare Scope youtube_scope.
Delimit Scope youtube_scope with youtube.
Notation "'let!' x ':=' m 'in' k" := (bind m (fun x => k))
  (at level 10, x name, m at level 100, k at level 200) : youtube_scope.
#[local] Open Scope youtube_scope.

(** [medium?.url || default?.url || ''] *)
Definition thumbnailOf (thumbnails : Thumbnails) : string :=
  match medium_url thumbnails with
  | Some (String c u) => String c u
  | _ => match default_url thumbnails with
         | Some u => u
         | None => ""
         end
  end.

(** The search parameters of a page: [pageToken] is set when it is truthy. *)
Definition pageParams (first : list (string * string)) (pageToken : option string)
  : list (string * string) :=
  match pageToken with
  | Some (String c t) => (first ++ [("pageToken", String c t)])%list
  | _ => first
  end.

Definition bearer (accessToken : string) : string := "Bearer " ++ accessToken.

Definition subscriptionsRequest (accessToken : string) (pageToken : option string)
  : Request :=
  {| url := YOUTUBE_API_BASE ++ "/subscriptions";
     query := pageParams [("part", "snippet"); ("mine", "true"); ("maxResults", "50")]
                pageToken;
     authorization := bearer accessToken |}.

Definition channelsRequest (accessToken : string) (batch : list YouTubeChannel)
  : Request :=
  {| url := YOUTUBE_API_BASE ++ "/channels";
     query := [("part", "statistics"); ("id", join "," (map id batch))];
     authorization := bearer accessToken |}.

Definition videosRequest (accessToken : string) (pageToken : option string) : Request :=
  {| url := YOUTUBE_API_BASE ++ "/videos";
     query := pageParams [("part", "snippet"); ("myRating", "like"); ("maxResults", "50")]
                pageToken;
     authorization := bearer accessToken |}.

(** The channel pushed for an item of a page of subscriptions. *)
Definition toChannel (item : YouTubeSubscriptionItem) : YouTubeChannel :=
  {| id := snippet_channelId item;
     title := snippet_title item;
     description := snippet_description item;
     thumbnail := thumbnailOf (snippet_thumbnails item);
     subscriberCount := None;
     videoCount := None |}.

(** The video pushed for an item of a page of liked videos. *)
Definition toVideo (item : YouTubeVideoItem) : YouTubeVideo :=
  {| video_id := liked_id item;
     video_title := liked_title item;
     video_thumbnail := thumbnailOf (liked_thumbnails item);
     video_channelId := liked_channelId item;
     video_channelTitle := liked_channelTitle item |}.

(** A value of [statsMap]. *)
Record Stats : Type := {
  stats_subscriberCount : option integer;
  stats_videoCount : option integer
}.

(** [count ? parseInt(count, 10) : undefined] *)
Definition parseCount (count : option string) : option integer :=
  match count with
  | Some (String c d) => Some (parseInt (String c d))
  | _ => None
  end.

Definition statsOf (item : YouTubeChannelItem) : Stats :=
  {| stats_subscriberCount :=
       parseCount (match statistics item with
                   | Some s => statistics_subscriberCount s
                   | None => None
                   end);
     stats_videoCount :=
       parseCount (match statistics item with
                   | Some s => statistics_videoCount s
                   | None => None
                   end) |}.

(** [statsMap] after the loop over [data.items]. *)
Definition statsMapOf (items : list YouTubeChannelItem) : gmap string Stats :=
  fold_left (fun statsMap item => <[item_id item := statsOf item]> statsMap) items ∅.

(** [{ ...channel, subscriberCount: stats?.subscriberCount,
       videoCount: stats?.videoCount }] *)
Definition withStats (statsMap : gmap string Stats) (channel : YouTubeChannel)
  : YouTubeChannel :=
  let stats := statsMap !! id channel in
  {| id := id channel;
     title := title channel;
     description := description channel;
     thumbnail := thumbnail channel;
     subscriberCount := match stats with
                        | Some s => stats_subscriberCount s
                        | None => None
                        end;
     videoCount := match stats with
                   | Some s => stats_videoCount s
                   | None => None
                   end |}.

(** The [for] loop over one page of liked videos: the videos, the count,
    and whether [return videos] was reached. *)
Fixpoint pushVideos (maxResults : Z) (items : list YouTubeVideoItem)
    (videos : list YouTubeVideo) (fetched : nat) : list YouTubeVideo * nat * bool :=
  match items with
  | [] => (videos, fetched, false)
  | item :: rest =>
      let videos := (videos ++ [toVideo item])%list in
      let fetched := S fetched in
      if Z.leb maxResults (Z.of_nat fetched) then (videos, fetched, true)
      else pushVideos maxResults rest videos fetched
  end.

(** The reply of the two GET routes. *)
Record Listing (A : Type) : Type := {
  data : list A;
  count : nat
}.
Arguments data {A} _.
Arguments count {A} _.

Section Service.
(** The three endpoints of the API. *)
Variable subscriptionsEndpoint :
  Request -> result thrown (Response YouTubeSubscriptionItem).
Variable channelsEndpoint : Request -> result thrown (Response YouTubeChannelItem).
Variable videosEndpoint : Request -> result thrown (Response YouTubeVideoItem).

(** The loop of [enrichChannelsWithStats], from the index [i]. *)
Fixpoint enrichBatches (fuel : nat) (accessToken : string)
    (channels : list YouTubeChannel) (i : nat) (enrichedChannels : list YouTubeChannel)
  : Y (list YouTubeChannel) :=
  if Nat.ltb i (length channels) then
    match fuel with
    | O => outOfFuel
    | S fuel =>
        let batch := firstn 50 (skipn i channels) in
        let! response := call channelsEndpoint (channelsRequest accessToken batch) in
        if negb (ok response) then ret channels
        else
          let! data := lift (json response) in
          let statsMap := statsMapOf (items data) in
          enrichBatches fuel accessToken channels (i + 50)
            (enrichedChannels ++ map (withStats statsMap) batch)%list
    end
  else ret enrichedChannels.

(** [enrichChannelsWithStats]: [i] grows by 50 at each step, so the loop
    takes no more steps than there are channels. *)
Definition enrichChannelsWithStats (accessToken : string)
    (channels : list YouTubeChannel) : Y (list YouTubeChannel) :=
  enrichBatches (length channels) accessToken channels 0 [].

(** The [do ... while (pageToken)] loop of [fetchSubscriptions]. *)
Fixpoint subscriptionPages (fuel : nat) (accessToken : string)
    (pageToken : option string) (channels : list YouTubeChannel)
  : Y (list YouTubeChannel) :=
  match fuel with
  | O => outOfFuel
  | S fuel =>
      let! response :=
        call subscriptionsEndpoint (subscriptionsRequest accessToken pageToken) in
      if negb (ok response)
      then throw (ThrownError ("Failed to fetch subscriptions: " ++ text response))
      else
        let! data := lift (json response) in
        let channels := (channels ++ map toChannel (items data))%list in
        match nextPageToken data with
        | Some (String c t) =>
            subscriptionPages fuel accessToken (Some (String c t)) channels
        | _ => ret channels
        end
  end.

(** [fetchSubscriptions] *)
Definition fetchSubscriptions (fuel : nat) (accessToken : string)
  : Y (list YouTubeChannel) :=
  let! channels := subscriptionPages fuel accessToken None [] in
  let! channelsWithStats := enrichChannelsWithStats accessToken channels in
  ret channelsWithStats.

(** The [do ... while (pageToken && fetched < maxResults)] loop of
    [fetchLikedVideos]. *)
Fixpoint likedVideoPages (fuel : nat) (accessToken : string) (maxResults : Z)
    (pageToken : option string) (videos : list YouTubeVideo) (fetched : nat)
  : Y (list YouTubeVideo) :=
  match fuel with
  | O => outOfFuel
  | S fuel =>
      let! response := call videosEndpoint (videosRequest accessToken pageToken) in
      if negb (ok response)
      then throw (ThrownError ("Failed to fetch liked videos: " ++ text response))
      else
        let! data := lift (json response) in
        match pushVideos maxResults (items data) videos fetched with
        | (videos, fetched, true) => ret videos
        | (videos, fetched, false) =>
            match nextPageToken data with
            | Some (String c t) =>
                if Z.ltb (Z.of_nat fetched) maxResults
                then likedVideoPages fuel accessToken maxResults
                       (Some (String c t)) videos fetched
                else ret videos
            | _ => ret videos
            end
        end
  end.

(** [fetchLikedVideos] *)
Definition fetchLikedVideos (fuel : nat) (accessToken : string) (maxResults : Z)
  : Y (list YouTubeVideo) :=
  likedVideoPages fuel accessToken maxResults None [] 0.

(** [Math.min(parseInt(query.limit as string, 10) || 200, 500)]; a missing
    [limit] is read as the text of [undefined]. *)
Definition maxResultsOf (limit : option string) : Z :=
  Z.min (integer_or (parseInt (match limit with
                               | Some s => s
                               | None => "undefined"
                               end)) 200) 500.

(** The handler of GET /api/youtube/liked-videos, for an authenticated
    session. *)
Definition likedVideosHandler (fuel : nat) (accessToken : string)
    (limit : option string) : Y (Listing YouTubeVideo) :=
  let maxResults := maxResultsOf limit in
  try_catch
    (let! likedVideos := fetchLikedVideos fuel accessToken maxResults in
     ret {| data := likedVideos; count := length likedVideos |})
    (fun error => throw (ThrownHttp 500 "Failed to fetch liked videos from YouTube")).

(** The handler of GET /api/youtube/subscriptions, for an authenticated
    session. *)
Definition subscriptionsHandler (fuel : nat) (accessToken : string)
  : Y (Listing YouTubeChannel) :=
  try_catch
    (let! subscriptions := fetchSubscriptions fuel accessToken in
     ret {| data := subscriptions; count := length subscriptions |})
    (fun error => throw (ThrownHttp 500 "Failed to fetch subscriptions from YouTube")).

End Service.
End YouTube.

(** ** Scenarios

    Endpoints, servers and inputs on which the properties below are run. *)

Module Scenarios.
Import Js Server.
#[local] Open Scope string_scope.

Definition oneVideo : list Analyzer.VideoData :=
  [ {| Analyzer.videoTitle := "Rust in 100 seconds";
       Analyzer.videoChannelTitle := "Fireship" |} ].

(** An endpoint that answers every request with one choice of the given
    content. *)
Definition answering (content : string) (request : FetchRequest)
  : result thrown HttpResponse :=
  Ok {| ok := true; status := 200; text := content;
        json_body :=
          Ok {| choices := Some [ Some {| message_role := "assistant";
                                          message_content := content |} ];
                usage := None;
                data_model := None |} |}.

Definition provider : GitHubModelsProvider :=
  {| token := "t"; model := "openai/gpt-4o" |}.

(** [Examples.server] once its provider is built. *)
Definition ready : world := set_cachedProvider (Some provider) Examples.server.

(** A server without a token. *)
Definition unconfigured : world :=
  {| env := ∅; heap := ∅; cachedProvider := None; network := [] |}.

(** The taste profile stored at location 0 of [Examples.server]. *)
Definition profile : Recommender.TasteProfileInput :=
  {| Recommender.categories := 0%nat; Recommender.analysisSummary := "s" |}.

(** A profile whose array holds no category. *)
Definition emptyProfile : Recommender.TasteProfileInput :=
  {| Recommender.categories := 1%nat; Recommender.analysisSummary := "s" |}.

(** A database that stores every profile under the id 7. *)
Definition storeProfile (analysis : Analyzer.TasteAnalysisResult)
  : result thrown (option nat) :=
  Ok (Some 7%nat).

(** A database that numbers the rows it inserts from 1. *)
Definition insertRows (rows : list RecommendationsRoute.NewRow)
  : result thrown (list RecommendationsRoute.Row) :=
  Ok (imap (fun i new =>
              {| RecommendationsRoute.row_id := S i;
                 RecommendationsRoute.row_type := RecommendationsRoute.new_type new;
                 RecommendationsRoute.row_channelId :=
                   RecommendationsRoute.new_channelId new;
                 RecommendationsRoute.row_channelTitle :=
                   RecommendationsRoute.new_channelTitle new;
                 RecommendationsRoute.row_subscriberCount :=
                   RecommendationsRoute.new_subscriberCount new;
                 RecommendationsRoute.row_reason := RecommendationsRoute.new_reason new;
                 RecommendationsRoute.row_category :=
                   RecommendationsRoute.new_category new;
                 RecommendationsRoute.row_confidenceScore :=
                   RecommendationsRoute.new_confidenceScore new |})
           rows).

End Scenarios.

(** Replies of the YouTube Data API. *)

Module YouTubeScenarios.
Import Js Server YouTube.
#[local] Open Scope string_scope.

Definition noThumbnails : Thumbnails :=
  {| default_url := None; medium_url := None; high_url := None |}.

Definition likedItem (k : string) : YouTubeVideoItem :=
  {| liked_id := k; liked_title := k; liked_thumbnails := noThumbnails;
     liked_channelId := "c"; liked_channelTitle := "C" |}.

(** An API whose every page of liked videos has two items and names a
    next page. *)
Definition endlessVideos (request : Request)
  : result thrown (Response YouTubeVideoItem) :=
  Ok {| ok := true; text := "";
        json := Ok {| items := [likedItem "v1"; likedItem "v2"];
                      nextPageToken := Some "next" |} |}.

Definition subscription (k : string) : YouTubeSubscriptionItem :=
  {| snippet_channelId := k; snippet_title := k; snippet_description := "";
     snippet_thumbnails := noThumbnails |}.

Definition hasPageToken (request : Request) : bool :=
  existsb (fun param => String.eqb (fst param) "pageToken") (query request).

(** Two pages of subscriptions: the first names the second. *)
Definition twoPages (request : Request)
  : result thrown (Response YouTubeSubscriptionItem) :=
  Ok {| ok := true; text := "";
        json := Ok (if hasPageToken request
                    then {| items := [subscription "b"]; nextPageToken := None |}
                    else {| items := [subscription "a"];
                            nextPageToken := Some "p2" |}) |}.

(** Statistics that cannot be had. *)
Definition statsDown (request : Request)
  : result thrown (Response YouTubeChannelItem) :=
  Ok {| ok := false; text := "quotaExceeded";
        json := Throw (ThrownError "Unexpected end of JSON input") |}.

(** Subscriptions that cannot be had. *)
Definition subscriptionsDown (request : Request)
  : result thrown (Response YouTubeSubscriptionItem) :=
  Ok {| ok := false; text := "upstream stack trace: secret";
        json := Throw (ThrownError "Unexpected end of JSON input") |}.

(** Statistics that name the channel [a] twice and the channel [b] not at
    all. *)
Definition statsTwice (request : Request)
  : result thrown (Response YouTubeChannelItem) :=
  Ok {| ok := true; text := "";
        json :=
          Ok {| items :=
                  [ {| item_id := "a";
                       statistics :=
                         Some {| statistics_subscriberCount := Some "10";
                                 statistics_videoCount := Some "3 videos" |} |};
                    {| item_id := "a";
                       statistics :=
                         Some {| statistics_subscriberCount := Some "12";
                                 statistics_videoCount := None |} |} ];
                nextPageToken := None |} |}.

Definition twoChannels : list YouTubeChannel :=
  [ toChannel (subscription "a"); toChannel (subscription "b") ].

End YouTubeScenarios.

(** * Properties *)

(** ** Rounding to the nearest double *)

Module Binary64Facts.
Import Binary64.
#[local] Open Scope Q_scope.

Lemma scale_pos : 0 < scale.
Proof. reflexivity. Qed.

Lemma pow2_pos (k : Z) : (0 <= k)%Z -> 0 < inject_Z (2 ^ k).
Proof.
  intros Hk. change 0 with (inject_Z 0). rewrite <- Zlt_Qlt.
  apply Z.pow_pos_nonneg; lia.
Qed.

(** *** Rounding to an integer *)

Ltac compared H :=
  match type of H with
  | Qcompare _ _ = Eq => apply (proj2 (Qeq_alt _ _)) in H
  | Qcompare _ _ = Lt => apply (proj2 (Qlt_alt _ _)) in H
  | Qcompare _ _ = Gt => apply (proj2 (Qgt_alt _ _)) in H
  end.

Lemma rne_floor (q : Q) : (Qfloor q <= rne q <= Qfloor q + 1)%Z.
Proof.
  unfold rne. destruct (Qcompare _ _); [destruct (Z.even _)| |]; lia.
Qed.

Lemma rne_error (q : Q) : - (1 # 2) <= inject_Z (rne q) - q <= 1 # 2.
Proof.
  pose proof (Qfloor_le q) as Hlo. pose proof (Qlt_floor q) as Hhi.
  rewrite inject_Z_plus in Hhi. change (inject_Z 1) with 1 in Hhi.
  unfold rne. destruct (Qcompare (q - inject_Z (Qfloor q)) (1 # 2)) eqn:Hcmp.
  - compared Hcmp.
    destruct (Z.even _); rewrite ?inject_Z_plus; change (inject_Z 1) with 1; lra.
  - compared Hcmp. lra.
  - compared Hcmp. rewrite inject_Z_plus. change (inject_Z 1) with 1. lra.
Qed.

Lemma rne_comp (p q : Q) : p == q -> rne p = rne q.
Proof.
  intros Heq. unfold rne. rewrite (Qfloor_comp p q Heq).
  now rewrite (Qcompare_comp (p - inject_Z (Qfloor q)) (q - inject_Z (Qfloor q))
                 ltac:(now rewrite Heq) (1 # 2) (1 # 2) (Qeq_refl _)).
Qed.

Lemma rne_integer (z : Z) : rne (inject_Z z) = z.
Proof.
  unfold rne. rewrite Qfloor_Z.
  assert (H : Qcompare (inject_Z z - inject_Z z) (1 # 2) = Lt).
  { apply Qlt_alt. setoid_replace (inject_Z z - inject_Z z) with 0 using relation Qeq by ring. reflexivity. }
  now rewrite H.
Qed.

Lemma rne_mono (p q : Q) : p <= q -> (rne p <= rne q)%Z.
Proof.
  intros Hle. pose proof (Qfloor_resp_le p q Hle) as Hfloor.
  destruct (Z.eq_dec (Qfloor p) (Qfloor q)) as [Heq | Hne].
  - unfold rne. rewrite Heq.
    destruct (Qcompare (p - inject_Z (Qfloor q)) (1 # 2)) eqn:Hp;
      destruct (Qcompare (q - inject_Z (Qfloor q)) (1 # 2)) eqn:Hq;
      compared Hp; compared Hq;
      try (destruct (Z.even _)); try lia; exfalso; lra.
  - pose proof (rne_floor p). pose proof (rne_floor q). lia.
Qed.

Lemma rne_nonneg (q : Q) : 0 <= q -> (0 <= rne q)%Z.
Proof.
  intros Hq. pose proof (rne_floor q) as [Hlo _].
  pose proof (Qfloor_resp_le 0 q Hq) as Hfloor. change (Qfloor 0) with 0%Z in Hfloor. lia.
Qed.

Lemma rne_below (q : Q) (z : Z) : q <= inject_Z z -> (rne q <= z)%Z.
Proof. intros Hq. rewrite <- (rne_integer z). now apply rne_mono. Qed.

Lemma rne_above (q : Q) (z : Z) : inject_Z z <= q -> (z <= rne q)%Z.
Proof. intros Hq. rewrite <- (rne_integer z). now apply rne_mono. Qed.

(** *** The spacing of the doubles *)

Lemma spacing_nonneg (x : Q) : (0 <= spacing x)%Z.
Proof. unfold spacing. lia. Qed.

Lemma spacing_comp (x y : Q) : x == y -> spacing x = spacing y.
Proof.
  intros Heq. unfold spacing.
  now rewrite (Qfloor_comp (x * scale) (y * scale) ltac:(now rewrite Heq)).
Qed.

(** Below what the spacing is made for. *)
Lemma spacing_above (x : Q) :
  0 <= x -> x * scale < inject_Z (2 ^ 53 * 2 ^ spacing x).
Proof.
  intros Hx. pose proof scale_pos as Hs.
  pose proof (Qlt_floor (x * scale)) as Hhi.
  assert (Hfloor : (0 <= Qfloor (x * scale))%Z).
  { change 0%Z with (Qfloor 0). apply Qfloor_resp_le. nra. }
  eapply Qlt_le_trans; [exact Hhi|]. rewrite <- Zle_Qle.
  unfold spacing. set (a := Qfloor (x * scale)) in *.
  destruct (Z.eq_dec a 0%Z) as [-> | Ha].
  - change (Z.log2 0) with 0%Z. rewrite Z.max_r by lia. apply Z.leb_le. reflexivity.
  - pose proof (Z.log2_spec a ltac:(lia)) as [_ Hlog].
    pose proof (Z.log2_nonneg a) as Hnn.
    rewrite <- Z.pow_add_r by lia.
    apply Z.le_trans with (2 ^ Z.succ (Z.log2 a))%Z; [lia|].
    apply Z.pow_le_mono_r; lia.
Qed.

(** In the range of the normal doubles the spacing is 52 binary digits
    below the number. *)
Lemma spacing_below (x : Q) :
  (0 < spacing x)%Z -> inject_Z (2 ^ 52 * 2 ^ spacing x) <= x * scale.
Proof.
  intros Hk. eapply Qle_trans; [|apply Qfloor_le]. rewrite <- Zle_Qle.
  unfold spacing in *. set (a := Qfloor (x * scale)) in *.
  assert (Ha : (0 < a)%Z).
  { destruct (Z.le_gt_cases a 0%Z) as [Hle | Hgt]; [|exact Hgt].
    rewrite (Z.log2_nonpos a Hle) in Hk. lia. }
  pose proof (Z.log2_spec a Ha) as [Hlog _].
  rewrite Z.max_l in * by lia.
  rewrite <- Z.pow_add_r by lia.
  now replace (52 + (Z.log2 a - 52))%Z with (Z.log2 a) by lia.
Qed.

Lemma spacing_mono (x y : Q) : 0 <= x -> x <= y -> (spacing x <= spacing y)%Z.
Proof.
  intros Hx Hle. pose proof scale_pos as Hs. unfold spacing.
  assert (Hfloor : (Qfloor (x * scale) <= Qfloor (y * scale))%Z)
    by (apply Qfloor_resp_le; nra).
  pose proof (Z.log2_le_mono _ _ Hfloor). lia.
Qed.

(** *** The nearest double *)

Lemma nearest_eq (x : Q) :
  nearest x == inject_Z (significand x * 2 ^ spacing x) / scale.
Proof. unfold nearest. apply Qred_correct. Qed.

Lemma nearest_comp (x y : Q) : x == y -> nearest x = nearest y.
Proof.
  intros Heq. unfold nearest. rewrite (spacing_comp x y Heq).
  now rewrite (rne_comp (x * scale / inject_Z (2 ^ spacing y))
                 (y * scale / inject_Z (2 ^ spacing y)) ltac:(now rewrite Heq)).
Qed.

Lemma significand_bounds (x : Q) : 0 <= x -> (0 <= significand x <= 2 ^ 53)%Z.
Proof.
  intros Hx. pose proof scale_pos as Hs.
  pose proof (pow2_pos (spacing x) (spacing_nonneg x)) as Hp.
  unfold significand. split.
  - apply rne_nonneg. apply Qle_shift_div_l; [exact Hp | nra].
  - apply rne_below. apply Qle_shift_div_r; [exact Hp|].
    rewrite <- inject_Z_mult. apply Qlt_le_weak, spacing_above, Hx.
Qed.

Lemma significand_normal (x : Q) : (0 < spacing x)%Z -> (2 ^ 52 <= significand x)%Z.
Proof.
  intros Hk. pose proof (pow2_pos (spacing x) (spacing_nonneg x)) as Hp.
  unfold significand. apply rne_above. apply Qle_shift_div_l; [exact Hp|].
  rewrite <- inject_Z_mult. now apply spacing_below.
Qed.

(** The nearest double is within half a spacing. *)
Lemma nearest_error (x : Q) :
  0 <= x ->
  Qabs (nearest x - x) <= inject_Z (2 ^ spacing x) / scale * (1 # 2).
Proof.
  intros Hx. pose proof scale_pos as Hs.
  pose proof (pow2_pos (spacing x) (spacing_nonneg x)) as Hp.
  rewrite nearest_eq. unfold significand.
  pose proof (rne_error (x * scale / inject_Z (2 ^ spacing x))) as Herr.
  set (m := rne _) in *. rewrite inject_Z_mult.
  set (P := inject_Z (2 ^ spacing x)) in *.
  assert (Hq : x * scale / P * P == x * scale) by (field; lra).
  assert (Hdiff : inject_Z m * P / scale - x
                  == (inject_Z m - x * scale / P) * (P / scale)) by (field; lra).
  rewrite Hdiff, Qabs_Qmult.
  assert (Hps : 0 < P / scale) by (apply Qlt_shift_div_l; lra).
  rewrite (Qabs_pos (P / scale)) by lra.
  assert (Habs : Qabs (inject_Z m - x * scale / P) <= 1 # 2) by (apply Qabs_Qle_condition; lra).
  setoid_replace (P / scale * (1 # 2)) with ((1 # 2) * (P / scale)) using relation Qeq by ring.
  apply Qmult_le_compat_r; lra.
Qed.

Lemma u_pos : 0 < u.
Proof. reflexivity. Qed.

Lemma eta_pos : 0 < eta.
Proof. reflexivity. Qed.

(** In the range of the normal doubles half a spacing is at most one part
    in [2^53]. *)
Lemma half_spacing_relative (x : Q) :
  (0 < spacing x)%Z -> inject_Z (2 ^ spacing x) / scale * (1 # 2) <= u * x.
Proof.
  intros Hk. pose proof scale_pos as Hs. pose proof (spacing_below x Hk) as Hbelow.
  pose proof (pow2_pos (spacing x) (spacing_nonneg x)) as Hp.
  rewrite inject_Z_mult in Hbelow.
  set (P := inject_Z (2 ^ spacing x)) in *.
  change (inject_Z (2 ^ 52)) with (4503599627370496 # 1) in Hbelow.
  assert (Ht : exists t, t * scale == P /\ P / scale == t).
  { exists (P / scale). split; [field; lra | reflexivity]. }
  destruct Ht as (t & Ht & ->). rewrite <- Ht in Hbelow. unfold u.
  assert (Hct : (4503599627370496 # 1) * t <= x) by nra.
  lra.
Qed.

Lemma nearest_relative (x : Q) :
  0 <= x -> Qabs (nearest x - x) <= u * x + eta.
Proof.
  intros Hx. pose proof scale_pos as Hs. pose proof u_pos as Hu. pose proof eta_pos as He.
  eapply Qle_trans; [apply nearest_error, Hx|].
  destruct (Z.eq_dec (spacing x) 0%Z) as [H0 | Hne].
  - rewrite H0. change (inject_Z (2 ^ 0) / scale * (1 # 2)) with eta. nra.
  - pose proof (spacing_nonneg x).
    pose proof (half_spacing_relative x ltac:(lia)). lra.
Qed.

(** A multiple of the least double is rounded with an error of one part in
    [2^53] at most, however small it is. *)
Lemma nearest_on_grid (x : Q) (z : Z) :
  0 <= x -> x * scale == inject_Z z -> Qabs (nearest x - x) <= u * x.
Proof.
  intros Hx Hz. pose proof scale_pos as Hs. pose proof u_pos as Hu.
  destruct (Z.eq_dec (spacing x) 0%Z) as [H0 | Hne].
  - assert (Hexact : nearest x == x).
    { rewrite nearest_eq. unfold significand. rewrite H0.
      change (inject_Z (2 ^ 0)) with 1.
      assert (Hq : x * scale / 1 == inject_Z z) by (rewrite <- Hz; field).
      rewrite (rne_comp _ _ Hq), rne_integer.
      change (2 ^ 0)%Z with 1%Z. rewrite Z.mul_1_r, <- Hz. field. lra. }
    rewrite Hexact. setoid_replace (x - x) with 0 using relation Qeq by ring.
    change (Qabs 0) with 0. nra.
  - eapply Qle_trans; [apply nearest_error, Hx|].
    pose proof (spacing_nonneg x).
    apply half_spacing_relative. lia.
Qed.

Lemma nearest_nonneg (x : Q) : 0 <= x -> 0 <= nearest x.
Proof.
  intros Hx. pose proof scale_pos as Hs. rewrite nearest_eq.
  apply Qle_shift_div_l; [exact Hs|]. rewrite Qmult_0_l.
  change 0 with (inject_Z 0). rewrite <- Zle_Qle.
  pose proof (significand_bounds x Hx). pose proof (spacing_nonneg x).
  apply Z.mul_nonneg_nonneg; [lia|]. apply Z.pow_nonneg. lia.
Qed.

Lemma nearest_mono (x y : Q) : 0 <= x -> x <= y -> nearest x <= nearest y.
Proof.
  intros Hx Hle. pose proof scale_pos as Hs.
  rewrite !nearest_eq. apply Qmult_le_compat_r; [|apply Qlt_le_weak, Qinv_lt_0_compat, Hs].
  rewrite <- Zle_Qle.
  pose proof (spacing_mono x y Hx Hle) as Hk.
  pose proof (spacing_nonneg x) as Hkx.
  destruct (Z.eq_dec (spacing x) (spacing y)) as [Heq | Hne].
  - unfold significand. rewrite Heq.
    apply Z.mul_le_mono_nonneg_r; [apply Z.pow_nonneg; lia|].
    apply rne_mono.
    pose proof (pow2_pos (spacing y) (spacing_nonneg y)) as Hp.
    apply Qmult_le_compat_r; [nra | apply Qlt_le_weak, Qinv_lt_0_compat, Hp].
  - pose proof (significand_bounds x Hx) as [_ Hmx].
    pose proof (significand_normal y ltac:(lia)) as Hmy.
    apply Z.le_trans with (2 ^ 53 * 2 ^ spacing x)%Z.
    + apply Z.mul_le_mono_nonneg_r; [apply Z.pow_nonneg; lia | exact Hmx].
    + apply Z.le_trans with (2 ^ 52 * 2 ^ spacing y)%Z.
      * rewrite <- !Z.pow_add_r by lia. apply Z.pow_le_mono_r; lia.
      * apply Z.mul_le_mono_nonneg_r; [apply Z.pow_nonneg; lia | exact Hmy].
Qed.

(** A number [m * 2^j] times the least double, with [m] up to [2^53], is a
    double: rounding leaves it as it is. *)
Lemma nearest_fixed (x : Q) (m j : Z) :
  (0 <= m <= 2 ^ 53)%Z -> (0 <= j)%Z ->
  x * scale == inject_Z (m * 2 ^ j) -> nearest x == x.
Proof.
  intros Hm Hj Hx. pose proof scale_pos as Hs.
  assert (Hnn : 0 <= x).
  { assert (H : 0 <= x * scale).
    { rewrite Hx. change 0 with (inject_Z 0). rewrite <- Zle_Qle.
      apply Z.mul_nonneg_nonneg; [lia | apply Z.pow_nonneg; lia]. }
    nra. }
  assert (Hfix : exists z, x * scale / inject_Z (2 ^ spacing x) == inject_Z z).
  { pose proof (pow2_pos (spacing x) (spacing_nonneg x)) as Hp.
    pose proof (spacing_nonneg x) as Hk.
    assert (Hfloor : Qfloor (x * scale) = (m * 2 ^ j)%Z)
      by (rewrite (Qfloor_comp _ _ Hx); apply Qfloor_Z).
    destruct (Z.eq_dec m 0%Z) as [-> | Hm0].
    { exists 0%Z. rewrite Hx. rewrite Z.mul_0_l. change (inject_Z 0) with 0. field. lra. }
    assert (Hlog : Z.log2 (m * 2 ^ j) = (j + Z.log2 m)%Z)
      by (apply Z.log2_mul_pow2; lia).
    pose proof (Z.log2_nonneg m) as Hlm.
    assert (Hl53 : (Z.log2 m <= 53)%Z).
    { assert (Hlt : (m < 2 ^ 54)%Z) by lia.
      apply (proj1 (Z.log2_lt_pow2 m 54 ltac:(lia))) in Hlt. lia. }
    destruct (Z.le_gt_cases (spacing x) j) as [Hle | Hgt].
    - exists (m * 2 ^ (j - spacing x))%Z. rewrite Hx.
      replace j with ((j - spacing x) + spacing x)%Z at 1 by lia.
      rewrite Z.pow_add_r by lia. rewrite Z.mul_assoc, inject_Z_mult. field. lra.
    - (* the spacing exceeds [j]: the significand is [2^53] *)
      unfold spacing in Hgt, Hk |- *. rewrite Hfloor, Hlog in *.
      assert (Hl : Z.log2 m = 53%Z) by lia.
      assert (Hm53 : m = (2 ^ 53)%Z).
      { pose proof (Z.log2_spec m ltac:(lia)) as [Hlo _]. rewrite Hl in Hlo. lia. }
      subst m. rewrite Z.max_l by lia.
      replace (j + Z.log2 (2 ^ 53) - 52)%Z with (j + 1)%Z by lia.
      exists (2 ^ 52)%Z. rewrite Hx.
      rewrite Z.pow_add_r by lia. rewrite !inject_Z_mult.
      change (inject_Z (2 ^ 53)) with (2 * inject_Z (2 ^ 52)).
      change (inject_Z (2 ^ 1)) with 2.
      pose proof (pow2_pos j Hj). field. lra. }
  destruct Hfix as (z & Hz).
  rewrite nearest_eq. unfold significand. rewrite (rne_comp _ _ Hz), rne_integer.
  pose proof (pow2_pos (spacing x) (spacing_nonneg x)) as Hp.
  rewrite inject_Z_mult, <- Hz. field. split; lra.
Qed.

Lemma nearest_canonical (x : Q) : Qred (nearest x) = nearest x.
Proof. unfold nearest. apply Qred_complete, Qred_correct. Qed.

(** Two doubles that are equal as fractions are the same. *)
Lemma nearest_inj (x y : Q) : nearest x == nearest y -> nearest x = nearest y.
Proof.
  intros Heq. rewrite <- (nearest_canonical x), <- (nearest_canonical y).
  now apply Qred_complete.
Qed.

(** The nearest double is a double. *)
Lemma nearest_idempotent (x : Q) : 0 <= x -> nearest (nearest x) = nearest x.
Proof.
  intros Hx. pose proof scale_pos as Hs.
  apply nearest_inj.
  apply (nearest_fixed (nearest x) (significand x) (spacing x)).
  - apply significand_bounds, Hx.
  - apply spacing_nonneg.
  - rewrite nearest_eq. field. lra.
Qed.

(** *** Rounding a number *)

Lemma fl_nonneg_eq (x : Q) : 0 <= x -> fl x = nearest x.
Proof.
  intros Hx. unfold fl. destruct (Qlt_le_dec x 0) as [Hlt | _]; [exfalso; lra | reflexivity].
Qed.

Lemma fl_nonneg (x : Q) : 0 <= x -> 0 <= fl x.
Proof. intros Hx. rewrite (fl_nonneg_eq x Hx). now apply nearest_nonneg. Qed.

Lemma fl_mono (x y : Q) : 0 <= x -> x <= y -> fl x <= fl y.
Proof.
  intros Hx Hle. rewrite (fl_nonneg_eq x Hx), (fl_nonneg_eq y ltac:(lra)).
  now apply nearest_mono.
Qed.

Lemma fl_idempotent (x : Q) : 0 <= x -> fl (fl x) = fl x.
Proof.
  intros Hx. rewrite (fl_nonneg_eq (fl x) (fl_nonneg x Hx)), (fl_nonneg_eq x Hx).
  now apply nearest_idempotent.
Qed.

Lemma fl_comp (x y : Q) : x == y -> fl x = fl y.
Proof.
  intros Heq. unfold fl.
  destruct (Qlt_le_dec x 0), (Qlt_le_dec y 0); try (exfalso; lra).
  - f_equal. apply nearest_comp. now rewrite Heq.
  - now apply nearest_comp.
Qed.

Lemma fl_0 : fl 0 = 0.
Proof. reflexivity. Qed.

Lemma fl_1 : fl 1 = 1.
Proof. vm_compute. reflexivity. Qed.

Lemma fl_le_1 (x : Q) : 0 <= x -> x <= 1 -> fl x <= 1.
Proof. intros H0 H1. rewrite <- fl_1. now apply fl_mono. Qed.

(** A double is a multiple of the least one. *)
Lemma fl_grid (x : Q) : 0 <= x -> exists z : Z, fl x * scale == inject_Z z.
Proof.
  intros Hx. pose proof scale_pos as Hs. rewrite (fl_nonneg_eq x Hx).
  exists (significand x * 2 ^ spacing x)%Z. rewrite nearest_eq. field. lra.
Qed.

Lemma fl_relative (x : Q) :
  0 <= x -> - (u * x + eta) <= fl x - x <= u * x + eta.
Proof.
  intros Hx. rewrite (fl_nonneg_eq x Hx).
  apply Qabs_Qle_condition. now apply nearest_relative.
Qed.

Lemma fl_grid_relative (x : Q) (z : Z) :
  0 <= x -> x * scale == inject_Z z -> - (u * x) <= fl x - x <= u * x.
Proof.
  intros Hx Hz. rewrite (fl_nonneg_eq x Hx).
  apply Qabs_Qle_condition. now apply (nearest_on_grid x z).
Qed.

(** A double given by its significand and its exponent. *)
Lemma double_eq (m j : Z) : double m j == inject_Z (m * 2 ^ j) / scale.
Proof. apply Qred_correct. Qed.

Lemma double_nonneg (m j : Z) : (0 <= m)%Z -> (0 <= j)%Z -> 0 <= double m j.
Proof.
  intros Hm Hj. pose proof scale_pos as Hs. rewrite double_eq.
  apply Qle_shift_div_l; [exact Hs|]. rewrite Qmult_0_l.
  change 0 with (inject_Z 0). rewrite <- Zle_Qle.
  apply Z.mul_nonneg_nonneg; [lia | apply Z.pow_nonneg; lia].
Qed.

Lemma fl_double (m j : Z) :
  (0 <= m <= 2 ^ 53)%Z -> (0 <= j)%Z -> fl (double m j) = double m j.
Proof.
  intros Hm Hj. pose proof scale_pos as Hs.
  rewrite (fl_nonneg_eq _ (double_nonneg m j ltac:(lia) Hj)).
  rewrite <- (nearest_canonical (double m j)). unfold double at 2.
  apply Qred_complete. rewrite <- double_eq.
  apply (nearest_fixed (double m j) m j Hm Hj).
  rewrite double_eq. field. lra.
Qed.

(** *** Addition and division *)

Lemma add_nonneg (a b : Q) : 0 <= a -> 0 <= b -> 0 <= add a b.
Proof.
  intros Ha Hb. apply fl_nonneg.
  pose proof (fl_nonneg a Ha). pose proof (fl_nonneg b Hb). lra.
Qed.

Lemma add_fixed (a b : Q) : 0 <= a -> 0 <= b -> fl (add a b) = add a b.
Proof.
  intros Ha Hb. apply fl_idempotent.
  pose proof (fl_nonneg a Ha). pose proof (fl_nonneg b Hb). lra.
Qed.

Lemma add_ge_l (a b : Q) : 0 <= a -> 0 <= b -> fl a <= add a b.
Proof.
  intros Ha Hb. rewrite <- (fl_idempotent a Ha) at 1.
  pose proof (fl_nonneg a Ha). pose proof (fl_nonneg b Hb).
  apply fl_mono; lra.
Qed.

Lemma add_ge_r (a b : Q) : 0 <= a -> 0 <= b -> fl b <= add a b.
Proof.
  intros Ha Hb. rewrite <- (fl_idempotent b Hb) at 1.
  pose proof (fl_nonneg a Ha). pose proof (fl_nonneg b Hb).
  apply fl_mono; lra.
Qed.

(** The sum of two doubles is rounded with an error of one part in [2^53]. *)
Lemma add_relative (a b : Q) :
  0 <= a -> 0 <= b ->
  - (u * (fl a + fl b)) <= add a b - (fl a + fl b) <= u * (fl a + fl b).
Proof.
  intros Ha Hb.
  destruct (fl_grid a Ha) as (za & Hza). destruct (fl_grid b Hb) as (zb & Hzb).
  pose proof (fl_nonneg a Ha). pose proof (fl_nonneg b Hb).
  apply (fl_grid_relative (fl a + fl b) (za + zb)); [lra|].
  rewrite inject_Z_plus, <- Hza, <- Hzb. ring.
Qed.

Lemma div_nonneg (a b : Q) : 0 <= a -> 0 < fl b -> 0 <= div a b.
Proof.
  intros Ha Hb. apply fl_nonneg. pose proof (fl_nonneg a Ha).
  apply Qle_shift_div_l; lra.
Qed.

Lemma div_le_1 (a b : Q) : 0 <= a -> 0 < fl b -> fl a <= fl b -> div a b <= 1.
Proof.
  intros Ha Hb Hle. pose proof (fl_nonneg a Ha). apply fl_le_1.
  - apply Qle_shift_div_l; lra.
  - apply Qle_shift_div_r; lra.
Qed.

(** Division by a positive double keeps the order. *)
Lemma div_mono (a b c : Q) :
  0 <= a -> a <= b -> 0 < fl c -> div a c <= div b c.
Proof.
  intros Ha Hab Hc. pose proof (fl_nonneg a Ha) as Hfa.
  pose proof (fl_mono a b Ha Hab) as Hle.
  apply fl_mono.
  - apply Qle_shift_div_l; lra.
  - apply Qmult_le_compat_r; [exact Hle|].
    apply Qlt_le_weak, Qinv_lt_0_compat, Hc.
Qed.

Lemma div_relative (a b : Q) :
  0 <= a -> 0 < fl b ->
  - (u * (fl a / fl b) + eta) <= div a b - fl a / fl b <= u * (fl a / fl b) + eta.
Proof.
  intros Ha Hb. pose proof (fl_nonneg a Ha).
  apply fl_relative. apply Qle_shift_div_l; lra.
Qed.

(** *** Sums *)

Lemma mult_le_compat_l (x y z : Q) : 0 <= z -> x <= y -> z * x <= z * y.
Proof.
  intros Hz Hle. rewrite (Qmult_comm z x), (Qmult_comm z y).
  now apply Qmult_le_compat_r.
Qed.

Lemma exact_sum_nonneg (l : list Q) : Forall (fun x => 0 <= x) l -> 0 <= exact_sum l.
Proof.
  induction 1 as [|x l Hx _ IH]; simpl; [discriminate | lra].
Qed.

(** One more term: the running sum stays within [k + 1] parts in [2^53]
    of the exact one. *)
Lemma sum_step (k acc a E t : Q) :
  0 <= k -> (k + 1) * u <= 1 -> 0 <= acc -> 0 <= a -> 0 <= E ->
  (1 - k * u) * E <= acc -> acc * (1 - k * u) <= E ->
  - (u * (acc + a)) <= t - (acc + a) <= u * (acc + a) ->
  (1 - (k + 1) * u) * (E + a) <= t /\ t * (1 - (k + 1) * u) <= E + a.
Proof.
  intros Hk Hku Hacc Ha HE Hlo Hhi [Htlo Hthi].
  pose proof u_pos as Hu. generalize dependent u. intros v Hku Hlo Hhi Htlo Hthi Hv.
  assert (Hkv : 0 <= k * v) by (apply Qmult_le_0_compat; lra).
  assert (Hk1 : 0 <= 1 - k * v) by lra.
  assert (Hkva : 0 <= k * v * a) by (apply Qmult_le_0_compat; lra).
  assert (Hkvve : 0 <= k * v * v * E) by (repeat apply Qmult_le_0_compat; lra).
  assert (Hvv : 0 <= k * v * v) by (repeat apply Qmult_le_0_compat; lra).
  split.
  - apply Qle_trans with ((1 - v) * (acc + a)); [|nra].
    apply Qle_trans with ((1 - v) * ((1 - k * v) * E + a)).
    { setoid_replace ((1 - v) * ((1 - k * v) * E + a))
        with ((1 - (k + 1) * v) * (E + a) + (k * v * v * E + k * v * a))
        using relation Qeq by ring.
      lra. }
    apply mult_le_compat_l; lra.
  - apply Qle_trans with ((1 + v) * (acc + a) * (1 - (k + 1) * v)).
    { apply Qmult_le_compat_r; nra. }
    apply Qle_trans with ((acc + a) * (1 - k * v)).
    { setoid_replace ((1 + v) * (acc + a) * (1 - (k + 1) * v))
        with ((acc + a) * ((1 + v) * (1 - (k + 1) * v))) using relation Qeq by ring.
      apply mult_le_compat_l; [lra|].
      setoid_replace ((1 + v) * (1 - (k + 1) * v))
        with (1 - k * v - (v * v + k * v * v)) using relation Qeq by ring.
      assert (0 <= v * v) by (apply Qmult_le_0_compat; lra). lra. }
    setoid_replace ((acc + a) * (1 - k * v))
      with (acc * (1 - k * v) + (a - k * v * a)) using relation Qeq by ring.
    lra.
Qed.

Lemma fold_add_bounds (l : list Q) (acc E : Q) (k : nat) :
  Forall (fun x => 0 <= x) l -> 0 <= acc -> fl acc = acc -> 0 <= E ->
  inject_Z (Z.of_nat (k + length l)) * u <= 1 ->
  (1 - inject_Z (Z.of_nat k) * u) * E <= acc ->
  acc * (1 - inject_Z (Z.of_nat k) * u) <= E ->
  0 <= fold_left add l acc
  /\ fl (fold_left add l acc) = fold_left add l acc
  /\ (1 - inject_Z (Z.of_nat (k + length l)) * u) * (E + exact_sum (map fl l))
     <= fold_left add l acc
  /\ fold_left add l acc * (1 - inject_Z (Z.of_nat (k + length l)) * u)
     <= E + exact_sum (map fl l).
Proof.
  intros Hall. revert acc E k.
  induction Hall as [|a l Ha _ IH]; intros acc E k Hacc Hfix HE Hku Hlo Hhi.
  - simpl. rewrite Nat.add_0_r in *. repeat split; try assumption; lra.
  - cbn [fold_left map exact_sum fold_right length] in *.
    fold (exact_sum (map fl l)).
    replace (k + S (length l))%nat with (S k + length l)%nat in * by lia.
    pose proof u_pos as Hu.
    pose proof (fl_nonneg a Ha) as Hfa.
    pose proof (add_relative acc a Hacc Ha) as Hrel. rewrite Hfix in Hrel.
    assert (HSk : inject_Z (Z.of_nat (S k)) == inject_Z (Z.of_nat k) + 1).
    { rewrite Nat2Z.inj_succ. unfold Z.succ. now rewrite inject_Z_plus. }
    assert (Hk0 : 0 <= inject_Z (Z.of_nat k)).
    { change 0 with (inject_Z 0). rewrite <- Zle_Qle. lia. }
    assert (Hk1 : (inject_Z (Z.of_nat k) + 1) * u <= 1).
    { apply Qle_trans with (inject_Z (Z.of_nat (S k + length l)) * u); [|exact Hku].
      apply Qmult_le_compat_r; [|lra]. rewrite <- HSk, <- Zle_Qle. lia. }
    destruct (sum_step (inject_Z (Z.of_nat k)) acc (fl a) E (add acc a)
                Hk0 Hk1 Hacc Hfa HE Hlo Hhi Hrel) as [Hlo' Hhi'].
    rewrite <- HSk in Hlo', Hhi'.
    destruct (IH (add acc a) (E + fl a) (S k) (add_nonneg acc a Hacc Ha)
                (add_fixed acc a Hacc Ha) ltac:(lra) Hku Hlo' Hhi')
      as (H1 & H2 & H3 & H4).
    repeat split; try assumption.
    + setoid_replace (E + (fl a + exact_sum (map fl l)))
        with (E + fl a + exact_sum (map fl l)) using relation Qeq by ring.
      exact H3.
    + setoid_replace (E + (fl a + exact_sum (map fl l)))
        with (E + fl a + exact_sum (map fl l)) using relation Qeq by ring.
      exact H4.
Qed.

(** The running sum never goes down. *)
Lemma fold_add_ge_acc (l : list Q) (acc : Q) :
  Forall (fun x => 0 <= x) l -> 0 <= acc -> fl acc = acc ->
  acc <= fold_left add l acc.
Proof.
  intros Hall. revert acc.
  induction Hall as [|a l Ha _ IH]; intros acc Hacc Hfix; simpl; [lra|].
  apply Qle_trans with (add acc a).
  - rewrite <- Hfix at 1. now apply add_ge_l.
  - apply IH; [now apply add_nonneg | now apply add_fixed].
Qed.

(** The sum is at least each of its terms. *)
Lemma fold_add_ge_term (l : list Q) (acc x : Q) :
  Forall (fun x => 0 <= x) l -> 0 <= acc -> In x l -> fl x <= fold_left add l acc.
Proof.
  intros Hall. revert acc.
  induction Hall as [|a l Ha Hall IH]; intros acc Hacc Hin; [destruct Hin|].
  simpl. destruct Hin as [-> | Hin].
  - apply Qle_trans with (add acc x); [now apply add_ge_r|].
    apply fold_add_ge_acc; [exact Hall | now apply add_nonneg | now apply add_fixed].
  - apply IH; [now apply add_nonneg | exact Hin].
Qed.

Lemma fold_add_nonneg (l : list Q) (acc : Q) :
  Forall (fun x => 0 <= x) l -> 0 <= acc -> 0 <= fold_left add l acc.
Proof.
  intros Hall. revert acc.
  induction Hall as [|a l Ha _ IH]; intros acc Hacc; simpl; [exact Hacc|].
  apply IH. now apply add_nonneg.
Qed.

Lemma fold_add_fixed (l : list Q) (acc : Q) :
  Forall (fun x => 0 <= x) l -> 0 <= acc -> fl acc = acc ->
  fl (fold_left add l acc) = fold_left add l acc.
Proof.
  intros Hall. revert acc.
  induction Hall as [|a l Ha _ IH]; intros acc Hacc Hfix; simpl; [exact Hfix|].
  apply IH; [now apply add_nonneg | now apply add_fixed].
Qed.

(** Terms that are zero add up to zero. *)
Lemma fold_add_zeros (l : list Q) :
  Forall (fun x => fl x == 0) l -> fold_left add l 0 = 0.
Proof.
  induction 1 as [|x l Hx _ IH]; [reflexivity|]. cbn [fold_left].
  replace (add 0 x) with 0; [exact IH|].
  unfold add. rewrite fl_0. transitivity (fl 0); [reflexivity|].
  apply fl_comp. rewrite Hx. reflexivity.
Qed.

(** A quotient by a positive double, times the divisor. *)
Lemma div_scaled (x T : Q) :
  0 <= x -> 0 < T -> fl T = T ->
  (1 - u) * fl x - eta * T <= div x T * T <= (1 + u) * fl x + eta * T.
Proof.
  intros Hx HT Hfix.
  pose proof (div_relative x T Hx ltac:(rewrite Hfix; exact HT)) as [Hlo Hhi].
  rewrite Hfix in Hlo, Hhi.
  assert (Hq : fl x / T * T == fl x) by (field; lra).
  set (q := fl x / T) in *. set (d := div x T) in *.
  apply (Qmult_le_compat_r _ _ T) in Hlo; [|lra].
  apply (Qmult_le_compat_r _ _ T) in Hhi; [|lra].
  setoid_replace (- (u * q + eta) * T) with (- (u * (q * T)) - eta * T)
    using relation Qeq in Hlo by ring.
  setoid_replace ((d - q) * T) with (d * T - q * T) using relation Qeq in Hlo by ring.
  setoid_replace ((d - q) * T) with (d * T - q * T) using relation Qeq in Hhi by ring.
  setoid_replace ((u * q + eta) * T) with (u * (q * T) + eta * T)
    using relation Qeq in Hhi by ring.
  rewrite Hq in Hlo, Hhi.
  setoid_replace ((1 - u) * fl x) with (fl x - u * fl x) using relation Qeq by ring.
  setoid_replace ((1 + u) * fl x) with (fl x + u * fl x) using relation Qeq by ring.
  split; lra.
Qed.

(** The quotients of the terms by a positive double add up to the
    quotient of the sum, each within one part in [2^53] and half the least
    double. *)
Lemma sum_div_bounds (l : list Q) (T : Q) :
  0 < T -> fl T = T -> Forall (fun x => 0 <= x) l ->
  (1 - u) * exact_sum (map fl l) - inject_Z (Z.of_nat (length l)) * eta * T
  <= exact_sum (map (fun x => div x T) l) * T
  <= (1 + u) * exact_sum (map fl l) + inject_Z (Z.of_nat (length l)) * eta * T.
Proof.
  intros HT Hfix Hall.
  induction Hall as [|a l Ha _ IH].
  - cbn [map exact_sum fold_right length]. change (inject_Z (Z.of_nat 0)) with 0.
    split; ring_simplify; apply Qle_refl.
  - cbn [map exact_sum fold_right length].
    fold (exact_sum (map fl l)). fold (exact_sum (map (fun x => div x T) l)).
    rewrite Nat2Z.inj_succ. unfold Z.succ. rewrite inject_Z_plus.
    change (inject_Z 1) with 1.
    pose proof (div_scaled a T Ha HT Hfix) as [Hlo Hhi].
    destruct IH as [IHlo IHhi].
    set (n := inject_Z (Z.of_nat (length l))) in *.
    set (A := exact_sum (map fl l)) in *.
    set (R := exact_sum (map (fun x => div x T) l)) in *.
    setoid_replace ((1 - u) * (fl a + A)) with ((1 - u) * fl a + (1 - u) * A)
      using relation Qeq by ring.
    setoid_replace ((1 + u) * (fl a + A)) with ((1 + u) * fl a + (1 + u) * A)
      using relation Qeq by ring.
    setoid_replace ((n + 1) * eta * T) with (n * eta * T + eta * T)
      using relation Qeq by ring.
    setoid_replace ((div a T + R) * T) with (div a T * T + R * T)
      using relation Qeq by ring.
    split; lra.
Qed.

(** *** Sums that creep *)

Lemma rne_unique (q : Q) (z : Z) :
  inject_Z z - (1 # 2) < q -> q < inject_Z z + (1 # 2) -> rne q = z.
Proof.
  intros Hlo Hhi. pose proof (rne_error q) as [Hlo' Hhi'].
  assert (H1 : inject_Z (rne q) < inject_Z z + 1) by lra.
  assert (H2 : inject_Z z < inject_Z (rne q) + 1) by lra.
  change 1 with (inject_Z 1) in H1, H2.
  rewrite <- inject_Z_plus, <- Zlt_Qlt in H1, H2. lia.
Qed.

(** A term between half the spacing and three halves of it takes the sum
    to the next double. *)
Lemma add_rounds_up (m j yz : Z) (y : Q) :
  (2 ^ 52 <= m)%Z -> (m + 2 <= 2 ^ 53)%Z -> (0 <= j)%Z ->
  fl y = y -> y * scale == inject_Z yz -> (2 ^ j < 2 * yz < 3 * 2 ^ j)%Z ->
  add (double m j) y = double (m + 1) j.
Proof.
  intros Hm Hm2 Hj Hy Hyz Hin. pose proof scale_pos as Hs.
  assert (Hpj : (0 < 2 ^ j)%Z) by (apply Z.pow_pos_nonneg; lia).
  unfold add. rewrite (fl_double m j) by lia. rewrite Hy.
  assert (Hd : 0 <= double m j) by (apply double_nonneg; lia).
  assert (Hy0 : 0 <= y).
  { assert (H : 0 <= y * scale).
    { rewrite Hyz. change 0 with (inject_Z 0). rewrite <- Zle_Qle. lia. }
    nra. }
  set (x := double m j + y).
  assert (Hx : x * scale == inject_Z (m * 2 ^ j + yz)).
  { unfold x. rewrite inject_Z_plus, <- Hyz, double_eq. field. lra. }
  rewrite (fl_nonneg_eq x ltac:(unfold x; lra)).
  assert (Hfloor : Qfloor (x * scale) = (m * 2 ^ j + yz)%Z)
    by (rewrite (Qfloor_comp _ _ Hx); apply Qfloor_Z).
  assert (Hk : spacing x = j).
  { unfold spacing. rewrite Hfloor.
    rewrite (Z.log2_unique (m * 2 ^ j + yz) (52 + j)); [lia | lia |].
    rewrite Z.pow_add_r, Z.pow_succ_r by lia. rewrite Z.pow_add_r by lia. nia. }
  unfold nearest, double. apply Qred_complete. rewrite Hk.
  assert (Hr : rne (x * scale / inject_Z (2 ^ j)) = (m + 1)%Z).
  { pose proof (pow2_pos j Hj) as Hp.
    apply rne_unique.
    - apply Qlt_shift_div_l; [exact Hp|]. rewrite Hx.
      setoid_replace ((inject_Z (m + 1) - (1 # 2)) * inject_Z (2 ^ j))
        with (inject_Z (2 * m * 2 ^ j + 2 ^ j) / 2) using relation Qeq.
      2:{ rewrite !inject_Z_plus, !inject_Z_mult. change (inject_Z 2) with 2.
          change (inject_Z 1) with 1. field. }
      apply Qlt_shift_div_r; [reflexivity|].
      change 2 with (inject_Z 2). rewrite <- inject_Z_mult, <- Zlt_Qlt. lia.
    - apply Qlt_shift_div_r; [exact Hp|]. rewrite Hx.
      setoid_replace ((inject_Z (m + 1) + (1 # 2)) * inject_Z (2 ^ j))
        with (inject_Z (2 * m * 2 ^ j + 3 * 2 ^ j) / 2) using relation Qeq.
      2:{ rewrite !inject_Z_plus, !inject_Z_mult. change (inject_Z 2) with 2.
          change (inject_Z 3) with 3. change (inject_Z 1) with 1. field. }
      apply Qlt_shift_div_l; [reflexivity|].
      change 2 with (inject_Z 2). rewrite <- inject_Z_mult, <- Zlt_Qlt. lia. }
  now rewrite Hr.
Qed.

Lemma fold_add_rounds_up (n : nat) (m j yz : Z) (y : Q) :
  (2 ^ 52 <= m)%Z -> (m + Z.of_nat n + 1 <= 2 ^ 53)%Z -> (0 <= j)%Z ->
  fl y = y -> y * scale == inject_Z yz -> (2 ^ j < 2 * yz < 3 * 2 ^ j)%Z ->
  fold_left add (repeat y n) (double m j) = double (m + Z.of_nat n) j.
Proof.
  revert m. induction n as [|n IH]; intros m Hm Hmn Hj Hy Hyz Hin.
  - simpl. now rewrite Z.add_0_r.
  - cbn [repeat fold_left].
    rewrite (add_rounds_up m j yz y Hm ltac:(lia) Hj Hy Hyz Hin).
    rewrite (IH (m + 1)%Z ltac:(lia) ltac:(lia) Hj Hy Hyz Hin).
    f_equal. lia.
Qed.

Lemma exact_sum_repeat (y : Q) (n : nat) :
  exact_sum (repeat y n) == inject_Z (Z.of_nat n) * y.
Proof.
  induction n as [|n IH].
  - simpl. ring.
  - cbn [repeat exact_sum fold_right]. fold (exact_sum (repeat y n)).
    rewrite IH, Nat2Z.inj_succ. unfold Z.succ. rewrite inject_Z_plus.
    change (inject_Z 1) with 1. ring.
Qed.

(** *** Samples

    [0.1], [0.1 + 0.2 = 0.30000000000000004], [1 / 3 = 0.3333333333333333],
    [0.145 * 100 = 14.499999999999998] and [0.015 * 100 = 1.5]; half the
    least double is rounded to zero and three halves of it to twice it. *)
Example samples :
  fl (1 # 10) = 3602879701896397 # 36028797018963968
  /\ add (1 # 10) (2 # 10) = 1351079888211149 # 4503599627370496
  /\ div 1 3 = 6004799503160661 # 18014398509481984
  /\ mul (145 # 1000) 100 = 8162774324609023 # 562949953421312
  /\ mul (15 # 1000) 100 = 3 # 2
  /\ div (1 / scale) 2 = 0
  /\ div (3 / scale) 2 = double 2 0
  /\ fl (- (1 # 10)) = - fl (1 # 10).
Proof.
  do 7 (split; [vm_compute; reflexivity|]). vm_compute. reflexivity.
Qed.

End Binary64Facts.

(** ** Code-fence stripping *)

Module FenceFacts.
Import Js Fence.
#[local] Open Scope string_scope.

Lemma length_append (a b : string) :
  String.length (a ++ b) = (String.length a + String.length b)%nat.
Proof. induction a as [|c a IH]; simpl; [reflexivity | now rewrite IH]. Qed.

Lemma eqb_length_false (a b : string) :
  String.length a <> String.length b -> String.eqb a b = false.
Proof.
  intros Hlen. apply String.eqb_neq. intros ->. now apply Hlen.
Qed.

(** The closing fence, on a line of its own, is cut off whatever precedes it. *)
Lemma stripClosingFence_line (body : string) :
  stripClosingFence (body ++ nl ++ fence) = body.
Proof.
  induction body as [|c body IH]; [reflexivity|].
  change ((String c body) ++ nl ++ fence) with (String c (body ++ nl ++ fence)).
  unfold stripClosingFence; fold stripClosingFence.
  rewrite !eqb_length_false, IH; [reflexivity | |];
    simpl; rewrite length_append; simpl; lia.
Qed.

(** The opening fence goes with the tag [json], when it is there, and with
    the line break after it. *)
Lemma stripOpeningFence_line (tag rest : string) :
  tag = "" \/ tag = "json" ->
  stripOpeningFence (fence ++ tag ++ nl ++ rest) = rest.
Proof. intros [-> | ->]; reflexivity. Qed.

Lemma startsWith_fenced (tag body : string) :
  startsWith fence (fenced tag body) = true.
Proof. reflexivity. Qed.

(** A text without the marker at its head is not touched beyond [trim]. *)
Lemma jsonContent_open (content : string) :
  startsWith fence (trim content) = false -> jsonContent content = trim content.
Proof. unfold jsonContent. now intros ->. Qed.

Lemma jsonContent_fenced (content tag body : string) :
  tag = "" \/ tag = "json" ->
  trim content = fenced tag body ->
  jsonContent content = body.
Proof.
  intros Htag Htrim. unfold jsonContent. rewrite Htrim, startsWith_fenced.
  unfold fenced. rewrite stripOpeningFence_line by assumption.
  apply stripClosingFence_line.
Qed.

(** *** Other language tags *)

Lemma append_assoc (a b c : string) : (a ++ b) ++ c = a ++ b ++ c.
Proof.
  induction a as [|x a IH]; [reflexivity|].
  change (String x ((a ++ b) ++ c) = String x (a ++ b ++ c)). now rewrite IH.
Qed.

Lemma after_Some (p s rest : string) : after p s = Some rest -> s = p ++ rest.
Proof.
  revert s. induction p as [|a p IH]; intros s; simpl.
  - now intros [= ->].
  - destruct s as [|b s]; [discriminate|].
    destruct (Ascii.eqb_spec a b) as [-> | _]; [|discriminate].
    intros H. now rewrite (IH s H).
Qed.

(** The letters [json] are looked for in the tag alone. *)
Lemma skip_json_tag (tag rest : string) :
  skip_optional "json" (tag ++ nl ++ rest) = skip_optional "json" tag ++ nl ++ rest.
Proof.
  unfold skip_optional.
  destruct tag as [|c1 [|c2 [|c3 [|c4 more]]]]; cbv -[Ascii.eqb];
    repeat match goal with
           | |- context [Ascii.eqb ?a ?b] =>
               is_var b; destruct (Ascii.eqb_spec a b) as [<- | ?]
           end; reflexivity.
Qed.

Lemma skip_json_nonempty (tag : string) :
  tag <> "" -> tag <> "json" -> skip_optional "json" tag <> "".
Proof.
  intros Hempty Hjson. unfold skip_optional.
  destruct (after "json" tag) as [more|] eqn:Hafter; [|exact Hempty].
  intros ->. apply after_Some in Hafter. now apply Hjson.
Qed.

Lemma skip_json_noLineBreak (tag : string) :
  Documented.noLineBreak tag = true ->
  Documented.noLineBreak (skip_optional "json" tag) = true.
Proof.
  intros Htag. unfold skip_optional.
  destruct (after "json" tag) as [more|] eqn:Hafter; [|exact Htag].
  apply after_Some in Hafter. subst tag. simpl in Htag. exact Htag.
Qed.

(** No line break is skipped at the head of a tag. *)
Lemma skip_nl_tag (tag rest : string) :
  tag <> "" -> Documented.noLineBreak tag = true ->
  skip_optional nl (tag ++ rest) = tag ++ rest.
Proof.
  intros Hempty Htag. destruct tag as [|c tag]; [now destruct Hempty|].
  simpl in Htag. apply andb_prop in Htag as [Hc _].
  unfold skip_optional, nl.
  change (String c tag ++ rest) with (String c (tag ++ rest)). cbn [after].
  destruct (Ascii.eqb_spec LF c) as [<- | _]; [|reflexivity].
  now rewrite Ascii.eqb_refl in Hc.
Qed.

(** A block with another tag keeps it, less the letters [json] at its head. *)
Lemma jsonContent_other_tag (content tag body : string) :
  Documented.noLineBreak tag = true -> tag <> "" -> tag <> "json" ->
  trim content = fenced tag body ->
  jsonContent content = skip_optional "json" tag ++ nl ++ body.
Proof.
  intros Htag Hempty Hjson Htrim. unfold jsonContent.
  rewrite Htrim, startsWith_fenced. unfold fenced, stripOpeningFence.
  change (after fence (fence ++ tag ++ nl ++ body ++ nl ++ fence))
    with (Some (tag ++ nl ++ body ++ nl ++ fence)).
  cbv beta iota. rewrite skip_json_tag.
  rewrite skip_nl_tag
    by (auto using skip_json_nonempty, skip_json_noLineBreak).
  replace (skip_optional "json" tag ++ nl ++ body ++ nl ++ fence)
    with ((skip_optional "json" tag ++ nl ++ body) ++ nl ++ fence)
    by (rewrite !append_assoc; reflexivity).
  apply stripClosingFence_line.
Qed.

Lemma tagged_not_body (rest body : string) : rest <> "" -> rest ++ nl ++ body <> body.
Proof.
  intros Hrest Heq. apply (f_equal String.length) in Heq.
  rewrite !length_append in Heq. destruct rest; [now apply Hrest | simpl in Heq; lia].
Qed.

End FenceFacts.

(** C4, as amended. Once the response is trimmed: a block fenced with the
    bare marker or with the marker and the tag [json] is reduced to its
    body; a block with any other tag is not: the tag stays in the text
    with its line break, less the letters [json] when it begins with
    them; a text that does not start with the marker is passed on as it
    is; and each parser calls [JSON.parse] on that text and no other. *)
Theorem fence_stripping_json_tag (content : string) :
  (forall tag body : string,
      tag = EmptyString \/ tag = "json"%string ->
      Js.trim content = Fence.fenced tag body ->
      Fence.jsonContent content = body)
  /\ (forall tag body : string,
      Documented.noLineBreak tag = true ->
      tag <> EmptyString -> tag <> "json"%string ->
      Js.trim content = Fence.fenced tag body ->
      Fence.jsonContent content = (Js.skip_optional "json" tag ++ Js.nl ++ body)%string
      /\ Js.skip_optional "json" tag <> EmptyString
      /\ Fence.jsonContent content <> body)
  /\ (Js.startsWith Fence.fence (Js.trim content) = false ->
      Fence.jsonContent content = Js.trim content)
  /\ (forall P1 P2 : string -> string + Js.json,
      P1 (Fence.jsonContent content) = P2 (Fence.jsonContent content) ->
      Analyzer.parseAnalysisResponse P1 content
        = Analyzer.parseAnalysisResponse P2 content
      /\ Recommender.parseRecommendationsResponse P1 content
        = Recommender.parseRecommendationsResponse P2 content).
Proof.
  split; [|split; [|split]].
  - intros tag body Htag Htrim. now apply FenceFacts.jsonContent_fenced with tag.
  - intros tag body Htag Hempty Hjson Htrim.
    pose proof (FenceFacts.skip_json_nonempty tag Hempty Hjson) as Hrest.
    rewrite (FenceFacts.jsonContent_other_tag content tag body Htag Hempty Hjson Htrim).
    split; [reflexivity|]. split; [exact Hrest|].
    now apply FenceFacts.tagged_not_body.
  - apply FenceFacts.jsonContent_open.
  - intros P1 P2 Hagree.
    unfold Analyzer.parseAnalysisResponse, Recommender.parseRecommendationsResponse.
    now rewrite Hagree.
Qed.

Lemma fence_stripping_json_tag_witness :
  Fence.jsonContent (" " ++ Fence.fenced "json" "{}" ++ Js.nl)%string = "{}"%string
  /\ Fence.jsonContent (Fence.fenced "json5" "{}") = ("5" ++ Js.nl ++ "{}")%string
  /\ Fence.jsonContent (Fence.fenced "javascript" "{}")
     = ("javascript" ++ Js.nl ++ "{}")%string
  /\ Fence.jsonContent " [1] "%string = "[1]"%string
  /\ Analyzer.parseAnalysisResponse Json.parse " [1] "%string
     = Analyzer.parseAnalysisResponse (fun _ => inr (Js.JArr [Js.JNum 1])) " [1] "%string.
Proof.
  split; [|split; [|split; [|split]]].
  - apply (proj1 (fence_stripping_json_tag _) "json"%string "{}"%string).
    + right; reflexivity.
    + reflexivity.
  - apply (proj1 (proj2 (fence_stripping_json_tag _)) "json5"%string "{}"%string);
      [reflexivity | discriminate | discriminate | reflexivity].
  - apply (proj1 (proj2 (fence_stripping_json_tag _)) "javascript"%string "{}"%string);
      [reflexivity | discriminate | discriminate | reflexivity].
  - apply (proj1 (proj2 (proj2 (fence_stripping_json_tag " [1] "%string)))).
    reflexivity.
  - apply (proj2 (proj2 (proj2 (fence_stripping_json_tag " [1] "%string)))).
    reflexivity.
Defined.

(** Counterexample to C4 as stated: with a language tag other than
    [json] the tag stays in the text handed to [JSON.parse], which then
    rejects it. *)
Lemma fence_other_tag_kept :
  Js.trim (Fence.fenced "js" "{}") = Fence.fenced "js" "{}"
  /\ Fence.jsonContent (Fence.fenced "js" "{}") = ("js" ++ Js.nl ++ "{}")%string
  /\ Fence.jsonContent (Fence.fenced "js" "{}") <> "{}"%string
  /\ Json.parse (Fence.jsonContent (Fence.fenced "js" "{}"))
     = inl "SyntaxError: Unexpected token in JSON"%string
  /\ Json.parse "{}" = inr (Js.JObj []).
Proof. repeat split; try reflexivity. discriminate. Qed.

(** ** The taste-analysis parser *)

Module AnalyzerFacts.
Import Js Fence Server Analyzer Documented.
#[local] Open Scope string_scope.

(** *** Clamping and the sum of weights *)

Lemma clamp01_bounds (x : Q) : (0 <= clamp01 x <= 1)%Q.
Proof.
  unfold clamp01. split.
  - apply Q.le_max_l.
  - apply Q.max_lub; [discriminate | apply Q.le_min_l].
Qed.


(** The reduction runs over the weights. *)
Lemma totalWeight_weights (cats : list TasteCategory) :
  totalWeight cats = fold_left Binary64.add (map weight cats) 0%Q.
Proof.
  unfold totalWeight. generalize 0%Q as acc.
  induction cats as [|c cats IH]; intros acc; simpl; [reflexivity | apply IH].
Qed.

Lemma weights_nonneg (cats : list TasteCategory) :
  Forall (fun c => 0 <= weight c <= 1)%Q cats ->
  Forall (fun x => 0 <= x)%Q (map weight cats).
Proof.
  induction 1 as [|c cats [Hc _] _ IH]; simpl; constructor; assumption.
Qed.

Lemma totalWeight_nonneg (cats : list TasteCategory) :
  Forall (fun c => 0 <= weight c <= 1)%Q cats -> (0 <= totalWeight cats)%Q.
Proof.
  intros Hall. rewrite totalWeight_weights.
  apply Binary64Facts.fold_add_nonneg; [now apply weights_nonneg | discriminate].
Qed.

(** The total is a double. *)
Lemma totalWeight_fixed (cats : list TasteCategory) :
  Forall (fun c => 0 <= weight c <= 1)%Q cats ->
  Binary64.fl (totalWeight cats) = totalWeight cats.
Proof.
  intros Hall. rewrite totalWeight_weights.
  apply Binary64Facts.fold_add_fixed;
    [now apply weights_nonneg | discriminate | reflexivity].
Qed.

(** The weights after the division. *)
Lemma weights_scaled (cats : list TasteCategory) (total : Q) :
  map weight (map (fun cat => set_weight cat (Binary64.div (weight cat) total)) cats)
  = map (fun x => Binary64.div x total) (map weight cats).
Proof. rewrite !map_map. reflexivity. Qed.

Lemma sumOfWeights_weights (cats : list TasteCategory) :
  sumOfWeights cats = Binary64.exact_sum (map weight cats).
Proof.
  unfold sumOfWeights, Binary64.exact_sum.
  induction cats as [|c cats IH]; simpl; [reflexivity | now rewrite IH].
Qed.

(** A positive total is divided into each weight. *)
Lemma normalizeWeights_positive (cats : list TasteCategory) :
  (0 < totalWeight cats)%Q ->
  normalizeWeights cats
  = map (fun cat => set_weight cat (Binary64.div (weight cat) (totalWeight cats))) cats.
Proof.
  intros Hpos. unfold normalizeWeights.
  destruct (Qlt_le_dec 0 (totalWeight cats)) as [_ | Hle]; [reflexivity|].
  exfalso. apply (Qlt_irrefl 0). now apply Qlt_le_trans with (totalWeight cats).
Qed.

(** A zero total leaves the array as it is. *)
Lemma normalizeWeights_zero (cats : list TasteCategory) :
  (totalWeight cats == 0)%Q -> normalizeWeights cats = cats.
Proof.
  intros Hz. unfold normalizeWeights.
  destruct (Qlt_le_dec 0 (totalWeight cats)) as [Hpos | _]; [|reflexivity].
  rewrite Hz in Hpos. discriminate.
Qed.

(** Up to four million weights, divided by their positive total, add up
    to 1 within 4.5 parts in [10^10]. *)
Lemma scaled_weights_sum (ws : list Q) :
  Forall (fun x => 0 <= x)%Q ws ->
  (Z.of_nat (length ws) <= 4000000)%Z ->
  (0 < fold_left Binary64.add ws 0)%Q ->
  (Qabs (Binary64.exact_sum
           (map (fun x => Binary64.div x (fold_left Binary64.add ws 0)) ws) - 1)
   <= 9 # 20000000000)%Q.
Proof.
  intros Hall Hlen Hpos.
  assert (Hn : (inject_Z (Z.of_nat (length ws)) <= 4000000)%Q).
  { change 4000000%Q with (inject_Z 4000000). now rewrite <- Zle_Qle. }
  assert (Hn0 : (0 <= inject_Z (Z.of_nat (length ws)))%Q).
  { change 0%Q with (inject_Z 0). rewrite <- Zle_Qle. lia. }
  set (n := inject_Z (Z.of_nat (length ws))) in *.
  assert (Hnu : (n * Binary64.u <= 1 # 2250000000)%Q).
  { apply Qle_trans with (4000000 * Binary64.u)%Q; [|discriminate].
    apply Qmult_le_compat_r; [exact Hn | discriminate]. }
  assert (Hne : (n * Binary64.eta <= 1 # 100000000000000000000)%Q).
  { apply Qle_trans with (4000000 * Binary64.eta)%Q; [|discriminate].
    apply Qmult_le_compat_r; [exact Hn | discriminate]. }
  destruct (Binary64Facts.fold_add_bounds ws 0 0 0 Hall) as (_ & Hfix & Hlo & Hhi);
    try discriminate; try reflexivity.
  { cbn [Nat.add]. fold n. apply Qle_trans with (1 # 2250000000)%Q; [exact Hnu | discriminate]. }
  cbn [Nat.add] in Hlo, Hhi. fold n in Hlo, Hhi.
  pose proof (Binary64Facts.sum_div_bounds ws _ Hpos Hfix Hall) as [Hqlo Hqhi].
  fold n in Hqlo, Hqhi.
  pose proof (Binary64Facts.exact_sum_nonneg (map Binary64.fl ws)) as HA.
  assert (HA' : (0 <= Binary64.exact_sum (map Binary64.fl ws))%Q).
  { apply HA. clear - Hall. induction Hall as [|x l Hx _ IH]; simpl; constructor;
      [now apply Binary64Facts.fl_nonneg | exact IH]. }
  clear HA.
  set (T := fold_left Binary64.add ws 0%Q) in *.
  set (A := Binary64.exact_sum (map Binary64.fl ws)) in *.
  set (R := Binary64.exact_sum (map (fun x => Binary64.div x T) ws)) in *.
  assert (HnuA : (n * Binary64.u * A <= (1 # 2250000000) * A)%Q)
    by (apply Qmult_le_compat_r; assumption).
  assert (HnuT : (n * Binary64.u * T <= (1 # 2250000000) * T)%Q)
    by (apply Qmult_le_compat_r; [assumption | lra]).
  assert (HneT : (n * Binary64.eta * T <= (1 # 100000000000000000000) * T)%Q)
    by (apply Qmult_le_compat_r; [assumption | lra]).
  setoid_replace ((1 - n * Binary64.u) * (0 + A))%Q with (A - n * Binary64.u * A)%Q
    using relation Qeq in Hlo by ring.
  setoid_replace (T * (1 - n * Binary64.u))%Q with (T - n * Binary64.u * T)%Q
    using relation Qeq in Hhi by ring.
  setoid_replace ((1 - Binary64.u) * A)%Q with (A - Binary64.u * A)%Q
    using relation Qeq in Hqlo by ring.
  setoid_replace ((1 + Binary64.u) * A)%Q with (A + Binary64.u * A)%Q
    using relation Qeq in Hqhi by ring.
  assert (HuA : (0 <= Binary64.u * A)%Q) by (apply Qmult_le_0_compat; [discriminate | exact HA']).
  assert (HuA' : (Binary64.u * A <= (1 # 1000000000000000) * A)%Q)
    by (apply Qmult_le_compat_r; [discriminate | exact HA']).
  apply Qabs_Qle_condition. split.
  - apply (Qmult_lt_0_le_reg_r _ _ T Hpos).
    setoid_replace ((R - 1) * T)%Q with (R * T - T)%Q using relation Qeq by ring.
    lra.
  - apply (Qmult_lt_0_le_reg_r _ _ T Hpos).
    setoid_replace ((R - 1) * T)%Q with (R * T - T)%Q using relation Qeq by ring.
    lra.
Qed.

(** The quotients are doubles. *)
Lemma scaled_weights_fixed (ws : list Q) (total : Q) :
  Forall (fun x => 0 <= x)%Q ws -> (0 < Binary64.fl total)%Q ->
  map Binary64.fl (map (fun x => Binary64.div x total) ws)
  = map (fun x => Binary64.div x total) ws.
Proof.
  intros Hall Hpos. rewrite map_map.
  induction Hall as [|x l Hx _ IH]; simpl; [reflexivity|]. rewrite IH. f_equal.
  unfold Binary64.div. apply Binary64Facts.fl_idempotent.
  pose proof (Binary64Facts.fl_nonneg x Hx). apply Qle_shift_div_l; lra.
Qed.

Lemma scaled_weights_nonneg (ws : list Q) (total : Q) :
  Forall (fun x => 0 <= x)%Q ws -> (0 < Binary64.fl total)%Q ->
  Forall (fun x => 0 <= x)%Q (map (fun x => Binary64.div x total) ws).
Proof.
  intros Hall Hpos. induction Hall as [|x l Hx _ IH]; simpl; constructor;
    [now apply Binary64Facts.div_nonneg | exact IH].
Qed.

(** The same weights, added up by [reduce]: within nine parts in [10^10]. *)
Lemma scaled_weights_total (ws : list Q) :
  Forall (fun x => 0 <= x)%Q ws ->
  (Z.of_nat (length ws) <= 4000000)%Z ->
  (0 < fold_left Binary64.add ws 0)%Q ->
  (Qabs (fold_left Binary64.add
           (map (fun x => Binary64.div x (fold_left Binary64.add ws 0)) ws) 0 - 1)
   <= 9 # 10000000000)%Q.
Proof.
  intros Hall Hlen Hpos.
  pose proof (scaled_weights_sum ws Hall Hlen Hpos) as Hsum.
  apply Qabs_Qle_condition in Hsum as [Hslo Hshi].
  assert (Hfix : Binary64.fl (fold_left Binary64.add ws 0%Q) = fold_left Binary64.add ws 0%Q).
  { apply Binary64Facts.fold_add_fixed; [exact Hall | discriminate | reflexivity]. }
  assert (Hpos' : (0 < Binary64.fl (fold_left Binary64.add ws 0%Q))%Q) by now rewrite Hfix.
  set (T := fold_left Binary64.add ws 0%Q) in *.
  pose proof (scaled_weights_nonneg ws T Hall Hpos') as Hrs.
  assert (Hn : (inject_Z (Z.of_nat (length ws)) <= 4000000)%Q).
  { change 4000000%Q with (inject_Z 4000000). now rewrite <- Zle_Qle. }
  set (rs := map (fun x => Binary64.div x T) ws) in *.
  assert (Hlen' : length rs = length ws) by (unfold rs; apply length_map).
  assert (Hnu : (inject_Z (Z.of_nat (length rs)) * Binary64.u <= 1 # 2250000000)%Q).
  { rewrite Hlen'. apply Qle_trans with (4000000 * Binary64.u)%Q; [|discriminate].
    apply Qmult_le_compat_r; [exact Hn | discriminate]. }
  destruct (Binary64Facts.fold_add_bounds rs 0 0 0 Hrs) as (H0 & _ & Hlo & Hhi);
    try discriminate; try reflexivity.
  { cbn [Nat.add]. apply Qle_trans with (1 # 2250000000)%Q; [exact Hnu | discriminate]. }
  cbn [Nat.add] in Hlo, Hhi.
  assert (Hfixed : map Binary64.fl rs = rs)
    by (unfold rs; now apply scaled_weights_fixed).
  rewrite Hfixed in Hlo, Hhi.
  set (n := inject_Z (Z.of_nat (length rs))) in *.
  set (R := Binary64.exact_sum rs) in *.
  set (F := fold_left Binary64.add rs 0%Q) in *.
  assert (HR : (0 <= R)%Q) by lra.
  assert (HnuR : (n * Binary64.u * R <= (1 # 2250000000) * R)%Q)
    by (apply Qmult_le_compat_r; assumption).
  assert (HnuF : (n * Binary64.u * F <= (1 # 2250000000) * F)%Q)
    by (apply Qmult_le_compat_r; assumption).
  setoid_replace ((1 - n * Binary64.u) * (0 + R))%Q with (R - n * Binary64.u * R)%Q
    using relation Qeq in Hlo by ring.
  setoid_replace (F * (1 - n * Binary64.u))%Q with (F - n * Binary64.u * F)%Q
    using relation Qeq in Hhi by ring.
  apply Qabs_Qle_condition. split; lra.
Qed.

(** [reduce] arrives at zero exactly when every weight is zero. *)
Lemma totalWeight_zero_iff (cats : list TasteCategory) :
  Forall (fun c => 0 <= weight c <= 1)%Q cats ->
  (totalWeight cats == 0)%Q
  <-> Forall (fun c => (Binary64.fl (weight c) == 0)%Q) cats.
Proof.
  intros Hall. split.
  - intros Hz. apply List.Forall_forall. intros c Hin.
    pose proof (proj1 (List.Forall_forall _ _) Hall c Hin) as [H0 _].
    pose proof (Binary64Facts.fl_nonneg _ H0) as Hfl.
    assert (Hle : (Binary64.fl (weight c) <= totalWeight cats)%Q).
    { rewrite totalWeight_weights.
      apply Binary64Facts.fold_add_ge_term;
        [now apply weights_nonneg | discriminate | now apply in_map]. }
    lra.
  - intros Hzero. rewrite totalWeight_weights.
    rewrite Binary64Facts.fold_add_zeros; [reflexivity|].
    clear Hall. induction Hzero as [|c l Hc _ IH]; simpl; constructor; assumption.
Qed.

Lemma totalWeight_positive (cats : list TasteCategory) :
  Forall (fun c => 0 <= weight c <= 1)%Q cats ->
  ~ (totalWeight cats == 0)%Q -> (0 < totalWeight cats)%Q.
Proof.
  intros Hall Hnz.
  destruct (Qlt_le_dec 0 (totalWeight cats)) as [Hlt | Hle]; [assumption|].
  exfalso. apply Hnz. apply Qle_antisym; [assumption|].
  now apply totalWeight_nonneg.
Qed.

Lemma normalizeWeights_sum (cats : list TasteCategory) :
  Forall (fun c => 0 <= weight c <= 1)%Q cats ->
  ~ (totalWeight cats == 0)%Q ->
  (Z.of_nat (length cats) <= 4000000)%Z ->
  (Qabs (sumOfWeights (normalizeWeights cats) - 1) <= 9 # 20000000000)%Q.
Proof.
  intros Hall Hnz Hlen. pose proof (totalWeight_positive cats Hall Hnz) as Hpos.
  rewrite (normalizeWeights_positive cats Hpos), sumOfWeights_weights, weights_scaled.
  rewrite totalWeight_weights in *.
  apply scaled_weights_sum; [now apply weights_nonneg | now rewrite length_map | exact Hpos].
Qed.

Lemma normalizeWeights_total (cats : list TasteCategory) :
  Forall (fun c => 0 <= weight c <= 1)%Q cats ->
  ~ (totalWeight cats == 0)%Q ->
  (Z.of_nat (length cats) <= 4000000)%Z ->
  (Qabs (totalWeight (normalizeWeights cats) - 1) <= 9 # 10000000000)%Q.
Proof.
  intros Hall Hnz Hlen. pose proof (totalWeight_positive cats Hall Hnz) as Hpos.
  rewrite (normalizeWeights_positive cats Hpos).
  rewrite (totalWeight_weights (map _ cats)), weights_scaled.
  rewrite totalWeight_weights in *.
  apply scaled_weights_total; [now apply weights_nonneg | now rewrite length_map | exact Hpos].
Qed.

(** *** A long list of small weights *)

Lemma manySmallCount_Z : Z.of_nat Examples.manySmallCount = 10000000%Z.
Proof. unfold Examples.manySmallCount. now rewrite N_nat_Z. Qed.

Lemma mapCategories_repeat (entry : json) (c : TasteCategory) (n index : nat) :
  (forall i, validateCategory entry i = Ok c) ->
  mapCategories (repeat entry n) index = Ok (repeat c n).
Proof.
  intros Hc. revert index. induction n as [|n IH]; intros index; [reflexivity|].
  cbn [repeat mapCategories]. now rewrite Hc, IH.
Qed.

Lemma manySmall_clamped (n : nat) :
  mapCategories (Examples.heavyEntry :: repeat Examples.lightEntry n) 0
  = Ok (Examples.unnamed 1 :: repeat (Examples.unnamed Examples.smallWeight) n).
Proof.
  cbn [mapCategories].
  rewrite (mapCategories_repeat Examples.lightEntry (Examples.unnamed Examples.smallWeight) n 1);
    [reflexivity|].
  intros i. vm_compute. reflexivity.
Qed.

(** [reduce] on the clamped weights: each small weight takes the sum one
    double up. *)
Lemma manySmall_total (n : nat) (z : Z) :
  Z.of_nat n = z -> (z <= 10000000)%Z ->
  totalWeight (Examples.unnamed 1 :: repeat (Examples.unnamed Examples.smallWeight) n)
  = Binary64.double (2 ^ 52 + z) 1022.
Proof.
  intros Hn Hz. rewrite totalWeight_weights. cbn [map fold_left]. rewrite map_repeat.
  change (Binary64.add 0 (weight (Examples.unnamed 1))) with (Binary64.add 0 1).
  replace (Binary64.add 0 1) with (Binary64.double (2 ^ 52) 1022)
    by (vm_compute; reflexivity).
  rewrite (Binary64Facts.fold_add_rounds_up n (2 ^ 52) 1022
             (4867778304876401 * 2 ^ 969) (weight (Examples.unnamed Examples.smallWeight))).
  - now rewrite Hn.
  - reflexivity.
  - rewrite Hn. apply Z.le_trans with (2 ^ 52 + 10000000 + 1)%Z; [lia|].
    vm_compute. discriminate.
  - discriminate.
  - vm_compute. reflexivity.
  - vm_compute. reflexivity.
  - split; vm_compute; reflexivity.
Qed.

(** The division by that total. *)
Lemma manySmall_normalized (n : nat) :
  Z.of_nat n = 10000000%Z ->
  normalizeWeights (Examples.unnamed 1 :: repeat (Examples.unnamed Examples.smallWeight) n)
  = Examples.unnamed (35184372010707 # 35184372088832)
    :: repeat (Examples.unnamed (2433889147033881 # 20282409603651670423947251286016)) n.
Proof.
  intros Hn.
  pose proof (manySmall_total n 10000000 Hn ltac:(vm_compute; discriminate)) as Htotal.
  rewrite normalizeWeights_positive; rewrite Htotal; [|vm_compute; reflexivity].
  cbn [map]. rewrite map_repeat.
  assert (Hheavy :
    set_weight (Examples.unnamed 1)
      (Binary64.div (weight (Examples.unnamed 1))
         (Binary64.double (2 ^ 52 + 10000000) 1022))
    = Examples.unnamed (35184372010707 # 35184372088832))
    by (vm_compute; reflexivity).
  assert (Hlight :
    set_weight (Examples.unnamed Examples.smallWeight)
      (Binary64.div (weight (Examples.unnamed Examples.smallWeight))
         (Binary64.double (2 ^ 52 + 10000000) 1022))
    = Examples.unnamed (2433889147033881 # 20282409603651670423947251286016))
    by (vm_compute; reflexivity).
  now rewrite Hheavy, Hlight.
Qed.

(** [reduce] on the returned weights: again one double up with each. *)
Lemma manySmall_returned_total (n : nat) (z : Z) :
  Z.of_nat n = z -> (z <= 10000000)%Z ->
  totalWeight
    (Examples.unnamed (35184372010707 # 35184372088832)
     :: repeat (Examples.unnamed (2433889147033881 # 20282409603651670423947251286016)) n)
  = Binary64.double (9007199234740992 + z) 1021.
Proof.
  intros Hn Hz. rewrite totalWeight_weights. cbn [map fold_left]. rewrite map_repeat.
  change (weight (Examples.unnamed (35184372010707 # 35184372088832)))
    with (35184372010707 # 35184372088832)%Q.
  replace (Binary64.add 0 (35184372010707 # 35184372088832))
    with (Binary64.double 9007199234740992 1021) by (vm_compute; reflexivity).
  rewrite (Binary64Facts.fold_add_rounds_up n 9007199234740992 1021
             (2433889147033881 * 2 ^ 970)
             (weight (Examples.unnamed (2433889147033881 # 20282409603651670423947251286016)))).
  - now rewrite Hn.
  - vm_compute. discriminate.
  - rewrite Hn. apply Z.le_trans with (9007199234740992 + 10000000 + 1)%Z; [lia|].
    vm_compute. discriminate.
  - discriminate.
  - vm_compute. reflexivity.
  - vm_compute. reflexivity.
  - split; vm_compute; reflexivity.
Qed.

(** Normalising touches the weights only. *)
Lemma normalizeWeights_keeps (cats : list TasteCategory) :
  Forall2 (fun c c' => name c' = name c /\ description c' = description c
                       /\ subCategories c' = subCategories c)
          cats (normalizeWeights cats).
Proof.
  unfold normalizeWeights. destruct (Qlt_le_dec 0 (totalWeight cats)) as [_ | _].
  - generalize (totalWeight cats) as total. intros total.
    induction cats as [|c cats IH]; simpl; constructor; auto.
  - induction cats as [|c cats IH]; constructor; auto.
Qed.

(** *** One entry *)

Lemma string_items_onlyStrings (items : list json) :
  string_items items = onlyStrings items.
Proof.
  unfold string_items.
  induction items as [|v items IH]; [reflexivity|].
  destruct v; cbn; try assumption. f_equal. exact IH.
Qed.

Lemma validateCategory_wellFormed (entry : json) (index : nat) :
  wellFormedCategory entry = true ->
  exists c, validateCategory entry index = Ok c
            /\ (0 <= weight c <= 1)%Q
            /\ subCategories c = documentedSubCategories entry.
Proof.
  destruct entry as [| | | | |props]; try discriminate. simpl.
  intros Hwf. apply andb_prop in Hwf as [Hwf Hd]. apply andb_prop in Hwf as [Hn Hw].
  unfold validateCategory, documentedSubCategories. simpl.
  destruct (assoc "name" props) as [[]|]; try discriminate.
  destruct (assoc "weight" props) as [[]|]; try discriminate.
  destruct (assoc "description" props) as [[]|]; try discriminate.
  simpl. eexists. split; [reflexivity|]. simpl. split; [apply clamp01_bounds|].
  destruct (assoc "subCategories" props) as [[]|]; simpl; try reflexivity.
  now rewrite string_items_onlyStrings.
Qed.

Lemma validateCategory_malformed (entry : json) (index : nat) :
  wellFormedCategory entry = false ->
  exists f, validateCategory entry index = Throw f
            /\ classifyAnalysis f = InvalidShape
            /\ namedIndex f = Some index.
Proof.
  unfold validateCategory.
  destruct entry as [|b|x|s|items|props]; simpl;
    try (intros _; eexists; split; [reflexivity | split; reflexivity]).
  - destruct (negb b); intros _; eexists; (split; [reflexivity | split; reflexivity]).
  - destruct (negb (Qeq_bool x 0)); intros _; eexists;
      (split; [reflexivity | split; reflexivity]).
  - destruct (negb (String.eqb s "")); intros _; eexists;
      (split; [reflexivity | split; reflexivity]).
  - destruct (assoc "name" props) as [[]|]; simpl;
      try (intros _; eexists; split; [reflexivity | split; reflexivity]).
    destruct (assoc "weight" props) as [[]|]; simpl;
      try (intros _; eexists; split; [reflexivity | split; reflexivity]).
    destruct (assoc "description" props) as [[]|]; simpl;
      try (intros _; eexists; split; [reflexivity | split; reflexivity]).
    discriminate.
Qed.

(** The failure that names an index carries it in its message. *)
Lemma namedIndex_message (f : failure) (i : nat) :
  namedIndex f = Some i ->
  exists rest, message f = "Category " ++ string_of_nat i ++ rest.
Proof.
  destruct f; try discriminate; intros [= ->]; eexists; reflexivity.
Qed.

(** *** The array of entries *)

Lemma Forall2_compose {A B C : Type} (P : A -> B -> Prop) (Q : B -> C -> Prop)
    (R : A -> C -> Prop) (l : list A) (k : list B) (m : list C) :
  (forall a b c, P a b -> Q b c -> R a c) ->
  Forall2 P l k -> Forall2 Q k m -> Forall2 R l m.
Proof.
  intros HPQ HP. revert m.
  induction HP as [|a b l k Hab _ IH]; intros m HQ; inversion HQ; subst; constructor.
  - eapply HPQ; eassumption.
  - now apply IH.
Qed.

Lemma mapCategories_wellFormed (entries : list json) (index : nat) :
  Forall (fun e => wellFormedCategory e = true) entries ->
  exists cats, mapCategories entries index = Ok cats
               /\ Forall (fun c => 0 <= weight c <= 1)%Q cats
               /\ Forall2 (fun e c => subCategories c = documentedSubCategories e)
                          entries cats.
Proof.
  intros Hall. revert index.
  induction Hall as [|e entries He _ IH]; intros index.
  - exists []. repeat split; constructor.
  - destruct (validateCategory_wellFormed e index He) as (c & Hc & Hw & Hs).
    destruct (IH (S index)) as (cats & Hcats & Hws & Hss).
    exists (c :: cats). simpl. rewrite Hc, Hcats.
    repeat split; constructor; assumption.
Qed.

(** The first malformed entry ends the [map], and the failure names it. *)
Lemma mapCategories_first_malformed (entries : list json) (index i : nat) (entry : json) :
  entries !! i = Some entry ->
  wellFormedCategory entry = false ->
  (forall j e, (j < i)%nat -> entries !! j = Some e -> wellFormedCategory e = true) ->
  exists f, mapCategories entries index = Throw f
            /\ classifyAnalysis f = InvalidShape
            /\ namedIndex f = Some (index + i)%nat.
Proof.
  revert index i. induction entries as [|e entries IH]; intros index i Hi Hbad Hbefore.
  - discriminate.
  - destruct i as [|i]; simpl in Hi.
    + injection Hi as ->.
      destruct (validateCategory_malformed entry index Hbad) as (f & Hf & Hc & Hn).
      exists f. simpl. rewrite Hf, Nat.add_0_r. auto.
    + assert (He : wellFormedCategory e = true).
      { apply (Hbefore 0%nat e); [lia | reflexivity]. }
      destruct (validateCategory_wellFormed e index He) as (c & Hc & _).
      destruct (IH (S index) i Hi Hbad) as (f & Hf & Hcl & Hn).
      { intros j e' Hj He'. apply (Hbefore (S j) e'); [lia | exact He']. }
      exists f. simpl. rewrite Hc, Hf.
      replace (index + S i)%nat with (S index + i)%nat by lia. auto.
Qed.

(** A malformed entry anywhere makes the [map] fail, at that entry or at
    an earlier one. *)
Lemma mapCategories_malformed (entries : list json) (index i : nat) (entry : json) :
  entries !! i = Some entry ->
  wellFormedCategory entry = false ->
  exists f k, mapCategories entries index = Throw f
              /\ classifyAnalysis f = InvalidShape
              /\ namedIndex f = Some (index + k)%nat
              /\ (k <= i)%nat.
Proof.
  revert index i. induction entries as [|e entries IH]; intros index i Hi Hbad.
  - discriminate.
  - destruct (wellFormedCategory e) eqn:He.
    + destruct i as [|i]; simpl in Hi; [injection Hi as ->; congruence|].
      destruct (validateCategory_wellFormed e index He) as (c & Hc & _).
      destruct (IH (S index) i Hi Hbad) as (f & k & Hf & Hcl & Hn & Hk).
      exists f, (S k). simpl. rewrite Hc, Hf.
      replace (index + S k)%nat with (S index + k)%nat by lia.
      repeat split; [assumption | assumption | lia].
    + destruct (validateCategory_malformed e index He) as (f & Hf & Hc & Hn).
      exists f, 0%nat. simpl. rewrite Hf, Nat.add_0_r.
      repeat split; [assumption | assumption | lia].
Qed.

Lemma mapCategories_Ok_inv (entries : list json) (index : nat) (cats : list TasteCategory) :
  mapCategories entries index = Ok cats ->
  Forall (fun c => 0 <= weight c <= 1)%Q cats.
Proof.
  revert index cats. induction entries as [|e entries IH]; intros index cats; simpl.
  - intros [= <-]. constructor.
  - unfold validateCategory at 1.
    destruct (negb (truthy (Some e)) || negb (js_type_eqb (typeof (Some e)) TObject));
      [discriminate|].
    destruct (negb (js_type_eqb (typeof (assoc "name" (as_record e))) TString));
      [discriminate|].
    destruct (negb (js_type_eqb (typeof (assoc "weight" (as_record e))) TNumber));
      [discriminate|].
    destruct (negb (js_type_eqb (typeof (assoc "description" (as_record e))) TString));
      [discriminate|].
    destruct (mapCategories entries (S index)) as [cs|] eqn:Hcs; [|discriminate].
    intros [= <-]. constructor; [apply clamp01_bounds | now apply (IH (S index))].
Qed.

Section Parser.
Variable JSON_parse : string -> string + json.
#[local] Abbreviation parseAnalysisResponse := (Analyzer.parseAnalysisResponse JSON_parse).

(** What the parser does once the top-level shape is right. *)
Lemma parseAnalysis_shaped (content : string) (props : list (string * json))
    (entries : list json) (summary : string) :
  JSON_parse (jsonContent content) = inr (JObj props) ->
  assoc "categories" props = Some (JArr entries) ->
  assoc "analysisSummary" props = Some (JStr summary) ->
  parseAnalysisResponse content =
    match mapCategories entries 0 with
    | Throw e => Throw e
    | Ok cats => Ok {| categories := normalizeWeights cats; analysisSummary := summary |}
    end.
Proof.
  intros Hparse Hcats Hsum. unfold Analyzer.parseAnalysisResponse.
  rewrite Hparse. simpl. rewrite Hcats, Hsum. reflexivity.
Qed.

(** A returned result comes from an array of entries that all passed. *)
Lemma parseAnalysis_Ok_inv (content : string) (res : TasteAnalysisResult) :
  parseAnalysisResponse content = Ok res ->
  exists parsed entries cats,
    JSON_parse (jsonContent content) = inr parsed
    /\ assoc "categories" (as_record parsed) = Some (JArr entries)
    /\ mapCategories entries 0 = Ok cats
    /\ categories res = normalizeWeights cats.
Proof.
  unfold Analyzer.parseAnalysisResponse.
  destruct (JSON_parse (jsonContent content)) as [e|parsed]; [discriminate|].
  destruct (negb (truthy (Some parsed))
            || negb (js_type_eqb (typeof (Some parsed)) TObject)); [discriminate|].
  destruct (assoc "categories" (as_record parsed)) as [[| | | |entries|]|] eqn:Hc;
    simpl; try discriminate.
  destruct (negb (js_type_eqb (typeof (assoc "analysisSummary" (as_record parsed))) TString));
    [discriminate|].
  destruct (mapCategories entries 0) as [cats|] eqn:Hm; [|discriminate].
  intros [= <-]. exists parsed, entries, cats. auto.
Qed.

End Parser.

End AnalyzerFacts.

Section AnalysisParser.
Import Js Fence Server Analyzer Documented.
Variable JSON_parse : string -> string + json.
#[local] Abbreviation parseAnalysisResponse := (Analyzer.parseAnalysisResponse JSON_parse).

(** C1, as amended. When the parser returns, the entries of
    [categories] all passed validation and their weights were clamped
    into [0, 1]; the returned categories are as many. [reduce] adds the
    clamped weights up to zero exactly when each of them is zero, and the
    returned categories are then the clamped ones, unchanged. Otherwise,
    for a response of at most 4,000,000 categories, the returned weights
    sum to 1 within 1e-9, both as real numbers and as [reduce] adds them
    up. *)
Theorem bounded_list_weights_sum_to_one (content : string) (res : TasteAnalysisResult) :
  parseAnalysisResponse content = Ok res ->
  exists parsed entries clamped,
    JSON_parse (jsonContent content) = inr parsed
    /\ assoc "categories" (as_record parsed) = Some (JArr entries)
    /\ mapCategories entries 0 = Ok clamped
    /\ Forall (fun c => 0 <= weight c <= 1)%Q clamped
    /\ length (categories res) = length clamped
    /\ ((totalWeight clamped == 0)%Q
        <-> Forall (fun c => (Binary64.fl (weight c) == 0)%Q) clamped)
    /\ ((totalWeight clamped == 0)%Q -> categories res = clamped)
    /\ (~ (totalWeight clamped == 0)%Q ->
        (Z.of_nat (length clamped) <= 4000000)%Z ->
        (Qabs (sumOfWeights (categories res) - 1) <= 1 # 1000000000)%Q
        /\ (Qabs (totalWeight (categories res) - 1) <= 1 # 1000000000)%Q).
Proof.
  intros Hres.
  destruct (AnalyzerFacts.parseAnalysis_Ok_inv _ _ _ Hres) as (parsed & entries & cats & Hp & Hc & Hm & Hr).
  exists parsed, entries, cats.
  pose proof (AnalyzerFacts.mapCategories_Ok_inv _ _ _ Hm) as Hbounds.
  split; [exact Hp|]. split; [exact Hc|]. split; [exact Hm|]. split; [exact Hbounds|].
  split.
  { rewrite Hr. symmetry.
    exact (Forall2_length _ _ _ (AnalyzerFacts.normalizeWeights_keeps cats)). }
  split; [now apply AnalyzerFacts.totalWeight_zero_iff|].
  split; [|split].
  - intros Hz. rewrite Hr. now apply AnalyzerFacts.normalizeWeights_zero.
  - rewrite Hr. apply Qle_trans with (9 # 20000000000)%Q; [|discriminate].
    now apply AnalyzerFacts.normalizeWeights_sum.
  - rewrite Hr. apply Qle_trans with (9 # 10000000000)%Q; [|discriminate].
    now apply AnalyzerFacts.normalizeWeights_total.
Qed.

(** C2. With the top-level shape right: the entries are taken in index
    order, and the first one that is not an object, or whose [name] is not
    a string, [weight] not a number or [description] not a string, makes
    the parser fail with an InvalidShape failure that names its index, in
    its message too; so a malformed entry at any index makes the parser
    fail, naming that index or an earlier one. When no entry is malformed
    the parser returns, whatever [subCategories] holds, and an array there
    is kept with its string elements only. *)
Theorem malformed_category_names_index (content : string)
    (props : list (string * json)) (entries : list json) (summary : string) :
  JSON_parse (jsonContent content) = inr (JObj props) ->
  assoc "categories" props = Some (JArr entries) ->
  assoc "analysisSummary" props = Some (JStr summary) ->
  (forall (i : nat) (entry : json),
      entries !! i = Some entry ->
      wellFormedCategory entry = false ->
      (forall j e, (j < i)%nat -> entries !! j = Some e -> wellFormedCategory e = true) ->
      exists f rest, parseAnalysisResponse content = Throw f
                     /\ classifyAnalysis f = InvalidShape
                     /\ namedIndex f = Some i
                     /\ message f = ("Category " ++ string_of_nat i ++ rest)%string)
  /\ (forall (i : nat) (entry : json),
      entries !! i = Some entry ->
      wellFormedCategory entry = false ->
      exists f k, parseAnalysisResponse content = Throw f
                  /\ classifyAnalysis f = InvalidShape
                  /\ namedIndex f = Some k
                  /\ (k <= i)%nat)
  /\ (Forall (fun e => wellFormedCategory e = true) entries ->
      exists res, parseAnalysisResponse content = Ok res
                  /\ Forall2 (fun e c => subCategories c = documentedSubCategories e)
                             entries (categories res)).
Proof.
  intros Hparse Hcats Hsum.
  rewrite (AnalyzerFacts.parseAnalysis_shaped JSON_parse _ _ _ _ Hparse Hcats Hsum).
  split; [|split].
  - intros i entry Hi Hbad Hbefore.
    destruct (AnalyzerFacts.mapCategories_first_malformed entries 0 i entry Hi Hbad Hbefore)
      as (f & Hf & Hc & Hn).
    destruct (AnalyzerFacts.namedIndex_message f i Hn) as (rest & Hmsg).
    exists f, rest. rewrite Hf. auto.
  - intros i entry Hi Hbad.
    destruct (AnalyzerFacts.mapCategories_malformed entries 0 i entry Hi Hbad)
      as (f & k & Hf & Hc & Hn & Hk).
    exists f, k. rewrite Hf. auto.
  - intros Hall.
    destruct (AnalyzerFacts.mapCategories_wellFormed entries 0 Hall) as (cats & Hm & _ & Hs).
    rewrite Hm. eexists. split; [reflexivity|]. simpl.
    eapply AnalyzerFacts.Forall2_compose;
      [| exact Hs | exact (AnalyzerFacts.normalizeWeights_keeps cats)].
    intros e c c' Hec (_ & _ & Hsub). cbn beta in *. congruence.
Qed.

(** C10. A response whose [categories] is the empty array is accepted:
    the result has no category and the summary as it came; nothing checks
    a minimum count, and the normalising step has nothing to divide. *)
Theorem empty_categories_accepted (content : string)
    (props : list (string * json)) (summary : string) :
  JSON_parse (jsonContent content) = inr (JObj props) ->
  assoc "categories" props = Some (JArr []) ->
  assoc "analysisSummary" props = Some (JStr summary) ->
  parseAnalysisResponse content = Ok {| categories := []; analysisSummary := summary |}
  /\ mapCategories [] 0 = Ok []
  /\ normalizeWeights [] = [].
Proof.
  intros Hparse Hcats Hsum.
  rewrite (AnalyzerFacts.parseAnalysis_shaped JSON_parse _ _ _ _ Hparse Hcats Hsum).
  repeat split.
Qed.

End AnalysisParser.

Lemma bounded_list_weights_sum_to_one_witness :
  Analyzer.parseAnalysisResponse Json.parse Examples.tenths
    = Server.Ok Examples.tenthsResult
  /\ (Qabs (Documented.sumOfWeights (Analyzer.categories Examples.tenthsResult) - 1)
      <= 1 # 1000000000)%Q
  /\ (Qabs (Analyzer.totalWeight (Analyzer.categories Examples.tenthsResult) - 1)
      <= 1 # 1000000000)%Q.
Proof.
  split; [vm_compute; reflexivity|].
  destruct (bounded_list_weights_sum_to_one Json.parse Examples.tenths Examples.tenthsResult)
    as (parsed & entries & clamped & Hp & Hc & Hm & _ & _ & _ & _ & Hsum).
  { vm_compute. reflexivity. }
  vm_compute in Hp. injection Hp as <-.
  vm_compute in Hc. injection Hc as <-.
  vm_compute in Hm. injection Hm as <-.
  apply Hsum; vm_compute; discriminate.
Defined.

(** The weights that come out of the division are rounded: those of
    [tenths] add up to [1 - 5 * 2^-55] as real numbers, and [reduce] adds
    them up to 0.9999999999999999. *)
Example tenths_sum_below_one :
  (Documented.sumOfWeights (Analyzer.categories Examples.tenthsResult)
   == 1 - (5 # 36028797018963968))%Q
  /\ Analyzer.totalWeight (Analyzer.categories Examples.tenthsResult)
     = (9007199254740991 # 9007199254740992)%Q.
Proof. split; vm_compute; reflexivity. Qed.

(** Counterexample to C1 as stated: for a category of weight 1 followed
    by ten million of weight 1.2e-16, [reduce] arrives at the total
    [1 + 10^7 * 2^-52], each term taking the sum one double up, and the
    returned weights sum to less than [1 - 1e-9], as real numbers and as
    [reduce] adds them up. *)
Lemma long_list_weights_sum_off :
  Analyzer.parseAnalysisResponse (fun _ => inr Examples.manySmall) ""
    = Server.Ok Examples.manySmallResult
  /\ Analyzer.mapCategories
       (Examples.heavyEntry :: repeat Examples.lightEntry Examples.manySmallCount) 0
     = Server.Ok Examples.manySmallClamped
  /\ Z.of_nat (length (Analyzer.categories Examples.manySmallResult)) = 10000001%Z
  /\ ~ (Analyzer.totalWeight Examples.manySmallClamped == 0)%Q
  /\ (Documented.sumOfWeights (Analyzer.categories Examples.manySmallResult)
      < 1 - (1 # 1000000000))%Q
  /\ (Analyzer.totalWeight (Analyzer.categories Examples.manySmallResult)
      < 1 - (1 # 1000000000))%Q.
Proof.
  pose proof AnalyzerFacts.manySmallCount_Z as Hn.
  pose proof (AnalyzerFacts.manySmall_clamped Examples.manySmallCount) as Hm.
  pose proof (AnalyzerFacts.manySmall_total Examples.manySmallCount 10000000 Hn
                ltac:(vm_compute; discriminate)) as Htotal.
  pose proof (AnalyzerFacts.manySmall_normalized Examples.manySmallCount Hn) as Hnorm.
  split; [|split; [exact Hm|split; [|split; [|split]]]].
  - rewrite (AnalyzerFacts.parseAnalysis_shaped (fun _ => inr Examples.manySmall) ""
               _ _ _ eq_refl eq_refl eq_refl).
    rewrite Hm. unfold Examples.manySmallResult, Examples.manySmallClamped.
    now rewrite Hnorm.
  - cbn [Examples.manySmallResult Analyzer.categories length].
    rewrite repeat_length, Nat2Z.inj_succ, Hn. reflexivity.
  - unfold Examples.manySmallClamped. rewrite Htotal. vm_compute. discriminate.
  - cbn [Examples.manySmallResult Analyzer.categories].
    rewrite AnalyzerFacts.sumOfWeights_weights. cbn [map Binary64.exact_sum fold_right].
    fold (Binary64.exact_sum
            (map Server.weight
               (repeat (Examples.unnamed (2433889147033881 # 20282409603651670423947251286016))
                  Examples.manySmallCount))).
    rewrite map_repeat, Binary64Facts.exact_sum_repeat, Hn.
    vm_compute. reflexivity.
  - cbn [Examples.manySmallResult Analyzer.categories].
    rewrite (AnalyzerFacts.manySmall_returned_total Examples.manySmallCount 10000000 Hn
               ltac:(vm_compute; discriminate)).
    vm_compute. reflexivity.
Qed.

Lemma malformed_category_names_index_witness :
  (exists f rest, Analyzer.parseAnalysisResponse Json.parse Examples.secondMalformed
                  = Server.Throw f
                  /\ Documented.classifyAnalysis f = Documented.InvalidShape
                  /\ Documented.namedIndex f = Some 1%nat
                  /\ Analyzer.message f = ("Category " ++ "1" ++ rest)%string)
  /\ (exists f k, Analyzer.parseAnalysisResponse Json.parse Examples.secondMalformed
                  = Server.Throw f
                  /\ Documented.classifyAnalysis f = Documented.InvalidShape
                  /\ Documented.namedIndex f = Some k
                  /\ (k <= 2)%nat)
  /\ (exists res, Analyzer.parseAnalysisResponse Json.parse Examples.overweight
                  = Server.Ok res
                  /\ Forall2 (fun e c => Server.subCategories c
                                         = Documented.documentedSubCategories e)
                       [ Js.JObj [("name", Js.JStr "Tech"); ("weight", Js.JNum (3 # 2));
                                  ("description", Js.JStr "x")]%string;
                         Js.JObj [("name", Js.JStr "Games"); ("weight", Js.JNum (1 # 4));
                                  ("description", Js.JStr "y");
                                  ("subCategories",
                                   Js.JArr [Js.JStr "a"; Js.JNum 1; Js.JNull])]%string ]
                       (Analyzer.categories res)).
Proof.
  split; [|split].
  - refine (proj1 (malformed_category_names_index Json.parse Examples.secondMalformed
                     _ _ _ eq_refl eq_refl eq_refl) 1%nat (Js.JStr "not an object") _ _ _).
    + reflexivity.
    + reflexivity.
    + intros j e Hj. destruct j as [|j]; [|lia]. intros [= <-]. reflexivity.
  - refine (proj1 (proj2 (malformed_category_names_index Json.parse
                            Examples.secondMalformed _ _ _ eq_refl eq_refl eq_refl))
              2%nat (Js.JObj []) _ _); reflexivity.
  - refine (proj2 (proj2 (malformed_category_names_index Json.parse Examples.overweight
                            _ _ _ eq_refl eq_refl eq_refl)) _).
    repeat constructor.
Defined.

Lemma empty_categories_accepted_witness :
  Examples.emptyCategories
    = ("{" ++ Js.quoted "categories" ++ ":[]," ++ Js.quoted "analysisSummary" ++ ":"
       ++ Js.quoted "s" ++ "}")%string
  /\ Analyzer.parseAnalysisResponse Json.parse Examples.emptyCategories
     = Server.Ok {| Analyzer.categories := []; Analyzer.analysisSummary := "s" |}.
Proof.
  split; [reflexivity|].
  exact (proj1 (empty_categories_accepted Json.parse Examples.emptyCategories
                  _ _ eq_refl eq_refl eq_refl)).
Defined.

(** ** The recommendations parser *)

Module RecommenderFacts.
Import Js Fence Server Recommender Documented.
#[local] Open Scope string_scope.

(** *** Reading a property after the defaulting assignments *)

Lemma assoc_assoc_set (k k' : string) (v : json) (props : list (string * json)) :
  assoc k' (assoc_set k v props) = if String.eqb k' k then Some v else assoc k' props.
Proof.
  induction props as [|[k0 v0] rest IH]; simpl.
  - reflexivity.
  - destruct (String.eqb_spec k k0) as [-> | Hne]; simpl.
    + destruct (String.eqb_spec k' k0); reflexivity.
    + rewrite IH. destruct (String.eqb_spec k' k0) as [-> | Hne'].
      * destruct (String.eqb_spec k0 k); [congruence | reflexivity].
      * reflexivity.
Qed.

Lemma assoc_defaulted_other (cond : bool) (k k' : string) (v : json)
    (props : list (string * json)) :
  String.eqb k' k = false ->
  assoc k' (if cond then assoc_set k v props else props) = assoc k' props.
Proof.
  intros Hne. destruct cond; [|reflexivity]. now rewrite assoc_assoc_set, Hne.
Qed.

Lemma assoc_defaulted_same (cond : bool) (k : string) (v : json)
    (props : list (string * json)) :
  assoc k (if cond then assoc_set k v props else props)
  = if cond then Some v else assoc k props.
Proof.
  destruct cond; [|reflexivity]. now rewrite assoc_assoc_set, String.eqb_refl.
Qed.

Ltac read_fields :=
  repeat (rewrite assoc_defaulted_other by reflexivity);
  rewrite ?assoc_defaulted_same;
  repeat (rewrite assoc_defaulted_other by reflexivity).

(** *** One entry *)

Lemma processEntry_skipped (entry : json) :
  kept entry = false -> processEntry entry = None.
Proof.
  unfold processEntry.
  destruct entry as [|b|x|s|items|props]; simpl; try reflexivity.
  - now destruct b.
  - now destruct (Qeq_bool x 0).
  - now destruct (String.eqb s "").
  - intros Hk. apply andb_false_iff in Hk.
    destruct (assoc "channelTitle" props) as [[| | |t| |]|]; simpl; try reflexivity.
    simpl in Hk.
    destruct (String.eqb t ""); simpl; [reflexivity|].
    read_fields.
    destruct Hk as [Hk | Hk]; [discriminate|].
    destruct (assoc "reason" props) as [[| | |r| |]|]; simpl; try reflexivity.
    simpl in Hk. now rewrite Hk.
Qed.

Lemma processEntry_itemOf (props : list (string * json)) :
  kept (JObj props) = true -> processEntry (JObj props) = Some (itemOf props).
Proof.
  simpl. intros Hk. apply andb_prop in Hk as [Ht Hr].
  unfold processEntry. cbn [truthy typeof is_type js_type_eqb negb orb as_record].
  destruct (assoc "channelTitle" props) as [[| | |t| |]|] eqn:Etitle; try discriminate.
  destruct (assoc "reason" props) as [[| | |r| |]|] eqn:Ereason; try discriminate.
  cbn [isNonEmptyString] in Ht, Hr.
  cbn [truthy typeof is_type js_type_eqb negb orb]. rewrite Ht.
  cbn [negb orb]. read_fields. rewrite Ereason.
  cbn [truthy typeof is_type js_type_eqb negb orb]. rewrite Hr. cbn [negb orb].
  unfold itemOf. f_equal.
  f_equal; read_fields; rewrite ?Etitle, ?Ereason; try reflexivity.
  - destruct (assoc "type" props) as [[| | |s| |]|]; try reflexivity.
    cbn. unfold as_type.
    destruct (String.eqb_spec s "channel") as [-> | _]; [reflexivity|].
    destruct (String.eqb_spec s "hidden_gem") as [-> | _]; [reflexivity|].
    destruct (String.eqb_spec s "content_gap") as [-> | _]; reflexivity.
  - destruct (assoc "channelId" props) as [[]|]; reflexivity.
  - destruct (assoc "category" props) as [[| | |c| |]|]; try reflexivity.
    cbn. now destruct (String.eqb c "").
  - destruct (assoc "confidenceScore" props) as [[]|]; reflexivity.
  - destruct (assoc "subscriberCount" props) as [[]|]; reflexivity.
Qed.



(** *** The loop *)

Lemma collect_keptItems (entries : list json) (acc : list RecommendationItem) :
  collect entries acc = (acc ++ keptItems (map processEntry entries))%list.
Proof.
  revert acc. induction entries as [|e entries IH]; intros acc; simpl.
  - now rewrite app_nil_r.
  - destruct (processEntry e) as [item|]; rewrite IH; [|reflexivity].
    now rewrite <- app_assoc.
Qed.

Lemma keptItems_all_skipped (entries : list json) :
  Forall (fun e => kept e = false) entries ->
  keptItems (map processEntry entries) = [].
Proof.
  induction 1 as [|e entries He _ IH]; simpl; [reflexivity|].
  now rewrite (processEntry_skipped e He).
Qed.

Lemma keptItems_one_kept (entries : list json) :
  Exists (fun e => kept e = true) entries ->
  keptItems (map processEntry entries) <> [].
Proof.
  induction 1 as [e entries He | e entries _ IH]; simpl.
  - destruct e as [| | | | |props]; try discriminate.
    now rewrite (processEntry_itemOf props He).
  - now destruct (processEntry e).
Qed.

Section Parser.
Variable JSON_parse : string -> string + json.
#[local] Abbreviation parseRecommendationsResponse :=
  (Recommender.parseRecommendationsResponse JSON_parse).

Lemma parseRecommendations_shaped (content : string) (props : list (string * json))
    (entries : list json) :
  JSON_parse (jsonContent content) = inr (JObj props) ->
  assoc "recommendations" props = Some (JArr entries) ->
  parseRecommendationsResponse content =
    match keptItems (map processEntry entries) with
    | [] => Throw Recommender.NoValidRecommendations
    | items => Ok {| recommendations := items |}
    end.
Proof.
  intros Hparse Hrecs. unfold Recommender.parseRecommendationsResponse.
  rewrite Hparse. simpl. rewrite Hrecs. simpl.
  rewrite collect_keptItems. simpl.
  now destruct (keptItems (map processEntry entries)).
Qed.

End Parser.
End RecommenderFacts.

Section RecommendationsParser.
Import Js Fence Server Recommender Documented.
Variable JSON_parse : string -> string + json.
#[local] Abbreviation parseRecommendationsResponse :=
  (Recommender.parseRecommendationsResponse JSON_parse).


(** C7. With the top-level shape right: when every entry is skipped the
    parser fails with NoValidRecommendations, and when at least one entry
    is kept it returns a result that is not empty. *)
Theorem all_entries_skipped_fails (content : string)
    (props : list (string * json)) (entries : list json) :
  JSON_parse (jsonContent content) = inr (JObj props) ->
  assoc "recommendations" props = Some (JArr entries) ->
  (Forall (fun e => kept e = false) entries ->
   parseRecommendationsResponse content = Throw Recommender.NoValidRecommendations
   /\ classifyRecommendations Recommender.NoValidRecommendations
      = Documented.NoValidRecommendations)
  /\ (Exists (fun e => kept e = true) entries ->
      exists res, parseRecommendationsResponse content = Ok res
                  /\ recommendations res <> []).
Proof.
  intros Hparse Hrecs.
  rewrite (RecommenderFacts.parseRecommendations_shaped JSON_parse _ _ _ Hparse Hrecs).
  split.
  - intros Hall. now rewrite (RecommenderFacts.keptItems_all_skipped entries Hall).
  - intros Hone. pose proof (RecommenderFacts.keptItems_one_kept entries Hone) as Hne.
    destruct (keptItems (map processEntry entries)) as [|item items]; [easy|].
    eexists. split; [reflexivity | discriminate].
Qed.

End RecommendationsParser.


Lemma all_entries_skipped_fails_witness :
  Recommender.parseRecommendationsResponse Json.parse Examples.allSkipped
  = Server.Throw Recommender.NoValidRecommendations
  /\ exists res,
      Recommender.parseRecommendationsResponse Json.parse Examples.oneKept = Server.Ok res
      /\ Recommender.recommendations res <> [].
Proof.
  split.
  - refine (proj1 (proj1 (all_entries_skipped_fails Json.parse Examples.allSkipped
                            _ _ eq_refl eq_refl) _)).
    repeat constructor.
  - refine (proj2 (all_entries_skipped_fails Json.parse Examples.oneKept
                     _ _ eq_refl eq_refl) _).
    apply Exists_cons_tl, Exists_cons_hd. reflexivity.
Defined.

(** ** The order of the categories in the prompt *)

Module SortFacts.
Import Js Server Recommender Documented.

Lemma insert_Permutation (x : TasteCategory) (l : list TasteCategory) :
  Permutation (insert byWeightDescending x l) (x :: l).
Proof.
  induction l as [|y l IH]; simpl; [reflexivity|].
  destruct (Qlt_le_dec 0 (byWeightDescending x y)); [|reflexivity].
  rewrite IH. apply perm_swap.
Qed.

Lemma sort_Permutation (l : list TasteCategory) :
  Permutation (sort byWeightDescending l) l.
Proof.
  induction l as [|x l IH]; simpl; [reflexivity|].
  rewrite insert_Permutation. now constructor.
Qed.

Lemma compare_positive (x y : TasteCategory) :
  (0 < byWeightDescending x y)%Q <-> (weight x < weight y)%Q.
Proof. unfold byWeightDescending. split; intros H; lra. Qed.

Lemma compare_not_positive (x y : TasteCategory) :
  (byWeightDescending x y <= 0)%Q <-> (weight y <= weight x)%Q.
Proof. unfold byWeightDescending. split; intros H; lra. Qed.

Lemma insert_sorted (x : TasteCategory) (l : list TasteCategory) :
  StronglySorted descending l ->
  StronglySorted descending (insert byWeightDescending x l).
Proof.
  induction 1 as [|y l Hsorted IH Hall]; simpl.
  - repeat constructor.
  - destruct (Qlt_le_dec 0 (byWeightDescending x y)) as [Hafter | Hbefore].
    + constructor; [exact IH|].
      apply (Permutation_Forall (Permutation_sym (insert_Permutation x l))).
      constructor; [|exact Hall].
      apply Qlt_le_weak. now apply compare_positive.
    + apply compare_not_positive in Hbefore.
      constructor; [now constructor|]. constructor; [exact Hbefore|].
      eapply Forall_impl; [exact Hall|]. intros z Hz. unfold descending in *. lra.
Qed.

Lemma sort_sorted (l : list TasteCategory) :
  StronglySorted descending (sort byWeightDescending l).
Proof.
  induction l as [|x l IH]; simpl; [constructor | now apply insert_sorted].
Qed.

(** An element is never moved past one of its own weight. *)
Lemma insert_filter (v : Q) (x : TasteCategory) (l : list TasteCategory) :
  List.filter (sameWeight v) (insert byWeightDescending x l)
  = List.filter (sameWeight v) (x :: l).
Proof.
  induction l as [|y l IH]; [reflexivity|].
  cbn [insert].
  destruct (Qlt_le_dec 0 (byWeightDescending x y)) as [Hafter | Hbefore]; [|reflexivity].
  apply compare_positive in Hafter.
  cbn [List.filter] in *. rewrite IH.
  destruct (sameWeight v x) eqn:Hx; [|reflexivity].
  destruct (sameWeight v y) eqn:Hy; [|reflexivity].
  exfalso. unfold sameWeight in Hx, Hy.
  apply Qeq_bool_iff in Hx, Hy. lra.
Qed.

Lemma sort_stable (v : Q) (l : list TasteCategory) :
  List.filter (sameWeight v) (sort byWeightDescending l) = List.filter (sameWeight v) l.
Proof.
  induction l as [|x l IH]; [reflexivity|].
  cbn [sort fold_right]. fold (sort byWeightDescending l).
  rewrite insert_filter. cbn [List.filter]. now rewrite IH.
Qed.

(** [join] is the concatenation with a separator. *)
Lemma join_concat (sep : string) (items : list string) :
  join sep items = String.concat sep items.
Proof.
  induction items as [|x items IH]; [reflexivity|].
  destruct items as [|y items]; [reflexivity|].
  cbn [join String.concat] in *. now rewrite IH.
Qed.

(** [Math.round] gives the nearest integer, the upper one from the middle. *)
Lemma round_roundedTo (x : Q) : roundedTo x (round x).
Proof.
  unfold roundedTo, round.
  pose proof (Qfloor_le (x + (1 # 2))) as Hlo.
  pose proof (Qlt_floor (x + (1 # 2))) as Hhi.
  rewrite inject_Z_plus in Hhi. change (inject_Z 1) with 1%Q in Hhi.
  split; lra.
Qed.

Lemma roundedTo_unique (x : Q) (p q : Z) : roundedTo x p -> roundedTo x q -> p = q.
Proof.
  intros [Hp1 Hp2] [Hq1 Hq2].
  assert (H1 : (inject_Z p < inject_Z q + 1)%Q) by lra.
  assert (H2 : (inject_Z q < inject_Z p + 1)%Q) by lra.
  change 1%Q with (inject_Z 1) in H1, H2.
  rewrite <- inject_Z_plus, <- Zlt_Qlt in H1, H2. lia.
Qed.

Lemma formatCategory_lineOf (cat : TasteCategory) :
  formatCategory cat
  = lineOf cat (round (Binary64.mul (weight cat) 100)) (subsWhenNotEmpty cat).
Proof.
  unfold formatCategory, lineOf, subsWhenNotEmpty, string_of_Z.
  now destruct (subCategories cat) as [[|s rest]|].
Qed.

(** What [formatCategories] returns and what it leaves in the store. *)
Lemma formatCategories_run (r : loc) (w : world) :
  formatCategories r w =
    (Ok (join nl (map formatCategory (sort byWeightDescending (heap w !!! r)))),
     set_heap (<[r := sort byWeightDescending (heap w !!! r)]> (heap w)) w).
Proof. reflexivity. Qed.

End SortFacts.

(** C8, as amended. The text of [formatCategories] is its lines joined
    by line breaks, one line for each category of the array. The lines
    follow the categories by descending weight, and categories of equal
    weight keep the order they had in the array. A line is
    [- name (percent%): description], with percent the product
    [weight * 100] rounded to the nearest integer, followed by the
    sub-categories joined by [, ] in parentheses when they are present
    and not empty. *)
Theorem formatCategories_lines_sorted_stable (w : Server.world) (categories : Server.loc)
    (items : list Server.TasteCategory) :
  Server.heap w !! categories = Some items ->
  exists (sorted : list Server.TasteCategory) (percent : Server.TasteCategory -> Z),
    Permutation sorted items
    /\ StronglySorted Documented.descending sorted
    /\ (forall v : Q,
        List.filter (Documented.sameWeight v) sorted
        = List.filter (Documented.sameWeight v) items)
    /\ (forall cat : Server.TasteCategory,
        Documented.roundedTo (Binary64.mul (Server.weight cat) 100) (percent cat))
    /\ fst (Recommender.formatCategories categories w)
       = Server.Ok
           (String.concat Js.nl
              (map (fun cat =>
                      Documented.lineOf cat (percent cat) (Documented.subsWhenNotEmpty cat))
                   sorted)).
Proof.
  intros Hitems.
  assert (Hat : Server.heap w !!! categories = items)
    by (now apply lookup_total_correct).
  exists (Recommender.sort Recommender.byWeightDescending items),
         (fun cat => Js.round (Binary64.mul (Server.weight cat) 100)).
  rewrite SortFacts.formatCategories_run, Hat. cbn [fst].
  split; [apply SortFacts.sort_Permutation|].
  split; [apply SortFacts.sort_sorted|].
  split; [intros v; apply SortFacts.sort_stable|].
  split; [intros cat; apply SortFacts.round_roundedTo|].
  now rewrite SortFacts.join_concat, (map_ext _ _ SortFacts.formatCategory_lineOf).
Qed.

Lemma formatCategories_lines_sorted_stable_witness :
  fst (Recommender.formatCategories 0%nat Examples.serverWithOdd)
  = Server.Ok ("- High (50%): h (a, b)" ++ Js.nl ++ "- First (20%): f" ++ Js.nl
               ++ "- Odd (14%): o (x)")%string
  /\ exists (sorted : list Server.TasteCategory) (percent : Server.TasteCategory -> Z),
       Permutation sorted [Examples.first; Examples.odd; Examples.high]
       /\ StronglySorted Documented.descending sorted
       /\ (forall v : Q,
           List.filter (Documented.sameWeight v) sorted
           = List.filter (Documented.sameWeight v)
               [Examples.first; Examples.odd; Examples.high])
       /\ (forall cat : Server.TasteCategory,
           Documented.roundedTo (Binary64.mul (Server.weight cat) 100) (percent cat))
       /\ fst (Recommender.formatCategories 0%nat Examples.serverWithOdd)
          = Server.Ok
              (String.concat Js.nl
                 (map (fun cat =>
                         Documented.lineOf cat (percent cat)
                           (Documented.subsWhenNotEmpty cat))
                      sorted)).
Proof.
  split; [vm_compute; reflexivity|].
  apply (formatCategories_lines_sorted_stable Examples.serverWithOdd 0%nat
           [Examples.first; Examples.odd; Examples.high]).
  reflexivity.
Defined.

(** Counterexample to C8 as stated: the category [First] of the sample
    profile has a list of sub-categories, which is empty; its line ends
    with the description, where the line of the claim goes on with [ ()],
    whatever the percentage. *)
Lemma empty_subCategories_not_appended :
  Server.subCategories Examples.first = Some []
  /\ Recommender.formatCategory Examples.first = "- First (20%): f"%string
  /\ Documented.lineOf Examples.first 20 (Documented.subsWhenPresent Examples.first)
     = "- First (20%): f ()"%string
  /\ Documented.roundedTo (Binary64.mul (Server.weight Examples.first) 100) 20
  /\ (forall percent : Z,
       Recommender.formatCategory Examples.first
       <> Documented.lineOf Examples.first percent
            (Documented.subsWhenPresent Examples.first))
  /\ fst (Recommender.formatCategories 0%nat Examples.server)
     = Server.Ok ("- High (50%): h (a, b)" ++ Js.nl ++ "- First (20%): f" ++ Js.nl
                  ++ "- Second (20%): s" ++ Js.nl ++ "- Low (10%): l")%string.
Proof.
  split; [reflexivity|]. split; [vm_compute; reflexivity|].
  split; [vm_compute; reflexivity|].
  split; [split; vm_compute; [discriminate | reflexivity]|].
  split; [|vm_compute; reflexivity].
  intros percent Heq.
  replace (Recommender.formatCategory Examples.first) with "- First (20%): f"%string in Heq
    by (vm_compute; reflexivity).
  apply (f_equal String.length) in Heq. revert Heq.
  unfold Documented.lineOf, Documented.subsWhenPresent.
  cbn [Server.subCategories Server.name Server.description Examples.first String.concat].
  rewrite !FenceFacts.length_append. cbn [String.length]. lia.
Qed.

(** The lines for the sample profile: the heaviest first, the two
    categories of weight 0.2 in their order, no parentheses for an empty
    list of sub-categories. *)
Example formatCategories_sample :
  fst (Recommender.formatCategories 0%nat Examples.server)
  = Server.Ok (Js.join Js.nl
      [ "- High (50%): h (a, b)"; "- First (20%): f";
        "- Second (20%): s"; "- Low (10%): l" ]%string).
Proof. vm_compute. reflexivity. Qed.

(** ** The orchestrators and the store *)

Module ServerFacts.
Import Js Server.
#[local] Open Scope string_scope.

Lemma lift_world {E A} (message : E -> string) (r : result E A) (w : world) :
  snd (lift message r w) = w.
Proof. now destruct r. Qed.

Section Provider.
Variable fetch : FetchRequest -> result thrown HttpResponse.

(** The LLM service never touches the arrays of its callers. *)
Lemma getLLMProvider_heap (w : world) :
  heap (snd (Llm.getLLMProvider w)) = heap w.
Proof.
  unfold Llm.getLLMProvider, Llm.createGitHubModelsProvider, bind, gets, modify, ret, throw.
  destruct (cachedProvider w); [reflexivity|].
  destruct (env w !! "GITHUB_TOKEN") as [tok|]; [|reflexivity].
  destruct (String.eqb tok "") eqn:Etok; [reflexivity|].
  unfold Llm.isConfigured. cbn [token]. rewrite Etok. reflexivity.
Qed.

Lemma provider_complete_heap (p : GitHubModelsProvider) (messages : list LLMMessage)
    (options : LLMCompletionOptions) (w : world) :
  heap (snd (Llm.provider_complete fetch p messages options w)) = heap w.
Proof.
  unfold Llm.provider_complete, bind, gets, modify, ret, throw.
  destruct (negb (Llm.isConfigured p)); [reflexivity|].
  destruct (fetch _) as [response|e]; [|reflexivity].
  destruct (negb (ok response)); [reflexivity|].
  destruct (json_body response) as [data|e]; [|reflexivity].
  destruct (choices data) as [[|[choice|] rest]|]; reflexivity.
Qed.

Lemma complete_heap (messages : list LLMMessage) (options : LLMCompletionOptions)
    (w : world) :
  heap (snd (Llm.complete fetch messages options w)) = heap w.
Proof.
  unfold Llm.complete, bind.
  pose proof (getLLMProvider_heap w) as Hg.
  destruct (Llm.getLLMProvider w) as [[p|e] w1]; simpl in *; [|exact Hg].
  now rewrite provider_complete_heap.
Qed.

(** Once found, the provider is the one the cache gives back. *)
Lemma getLLMProvider_cached (w w1 : world) (p : GitHubModelsProvider) :
  Llm.getLLMProvider w = (Ok p, w1) -> Llm.getLLMProvider w1 = (Ok p, w1).
Proof.
  unfold Llm.getLLMProvider at 1, Llm.createGitHubModelsProvider, bind, gets, modify,
    ret, throw.
  destruct (cachedProvider w) as [p'|] eqn:Hcached.
  - intros [= <- <-]. unfold Llm.getLLMProvider, bind, gets. now rewrite Hcached.
  - destruct (env w !! "GITHUB_TOKEN") as [tok|]; [|discriminate].
    destruct (String.eqb tok "") eqn:Etok; [discriminate|].
    unfold Llm.isConfigured. cbn [token]. rewrite Etok. cbn [negb].
    intros [= <- <-]. reflexivity.
Qed.

(** With a provider, a reply that is not [ok] becomes an [Error] whose
    message ends with the body of the reply. *)
Lemma complete_not_ok (messages : list LLMMessage) (options : LLMCompletionOptions)
    (p : GitHubModelsProvider) (response : HttpResponse) :
  Llm.isConfigured p = true ->
  (forall request, fetch request = Ok response) ->
  ok response = false ->
  exists request, forall w w1 : world,
    Llm.getLLMProvider w = (Ok p, w1) ->
    Llm.complete fetch messages options w
    = (Throw (ThrownError ("GitHub Models API error ("
                           ++ string_of_nat (status response) ++ "): "
                           ++ text response)),
       log_request request w1).
Proof.
  intros Hconf Hfetch Hok. eexists. intros w w1 Hprovider.
  unfold Llm.complete, bind at 1. rewrite Hprovider.
  unfold Llm.provider_complete. rewrite Hconf. cbn [negb].
  unfold bind, modify. rewrite Hfetch, Hok. cbn [negb throw].
  reflexivity.
Qed.

End Provider.
End ServerFacts.

Section Orchestrators.
Import Js Server.
Variable JSON_parse : string -> string + json.
Variable fetch : FetchRequest -> result thrown HttpResponse.
Variable SYSTEM_PROMPT : string.

Section Recommendations.
Import Recommender.
Variable USER_PROMPT_TEMPLATE : string -> string -> string -> string.
#[local] Abbreviation generateRecommendations :=
  (Recommender.generateRecommendations JSON_parse fetch SYSTEM_PROMPT USER_PROMPT_TEMPLATE).

Lemma generateRecommendations_heap (input : RecommendationsInput) (w : world) :
  heap (snd (generateRecommendations input w))
  = if Nat.eqb (length (heap w !!! categories (tasteProfile input))) 0 then heap w
    else <[categories (tasteProfile input) :=
             sort byWeightDescending (heap w !!! categories (tasteProfile input))]> (heap w).
Proof.
  unfold Recommender.generateRecommendations, bind at 1, gets.
  destruct (Nat.eqb _ 0); [reflexivity|].
  unfold bind at 1, buildPrompt, bind at 1. rewrite SortFacts.formatCategories_run.
  cbn [ret]. unfold bind.
  match goal with |- context [Llm.complete ?f ?m ?o ?w'] =>
    pose proof (ServerFacts.complete_heap f m o w') as Hc;
    destruct (Llm.complete f m o w') as [[resp|e] w2] end; simpl in *.
  - now rewrite ServerFacts.lift_world.
  - exact Hc.
Qed.

(** C9. [formatCategories] leaves the array it was given sorted by
    descending weight, and so do [buildPrompt] and
    [generateRecommendations], whether the call returns or throws: after
    the call the caller's array holds the same categories in sorted order,
    and no other array has changed. *)
Theorem prompt_building_sorts_callers_array (input : RecommendationsInput) (w : world) :
  heap (snd (formatCategories (categories (tasteProfile input)) w))
    !!! categories (tasteProfile input)
  = sort byWeightDescending (heap w !!! categories (tasteProfile input))
  /\ heap (snd (buildPrompt USER_PROMPT_TEMPLATE input w))
       !!! categories (tasteProfile input)
     = sort byWeightDescending (heap w !!! categories (tasteProfile input))
  /\ heap (snd (generateRecommendations input w)) !!! categories (tasteProfile input)
     = sort byWeightDescending (heap w !!! categories (tasteProfile input))
  /\ (forall other : loc,
      other <> categories (tasteProfile input) ->
      heap (snd (generateRecommendations input w)) !! other = heap w !! other)
  /\ Permutation (sort byWeightDescending (heap w !!! categories (tasteProfile input)))
       (heap w !!! categories (tasteProfile input))
  /\ StronglySorted Documented.descending
       (sort byWeightDescending (heap w !!! categories (tasteProfile input))).
Proof.
  split; [|split; [|split; [|split; [|split]]]].
  - rewrite SortFacts.formatCategories_run. cbn [snd set_heap heap].
    apply lookup_total_insert_eq.
  - unfold buildPrompt, bind. rewrite SortFacts.formatCategories_run.
    cbn [snd ret set_heap heap]. apply lookup_total_insert_eq.
  - rewrite generateRecommendations_heap.
    destruct (heap w !!! categories (tasteProfile input)) as [|c cs] eqn:Hitems.
    + cbn [length Nat.eqb]. now rewrite Hitems.
    + cbn [length Nat.eqb]. apply lookup_total_insert_eq.
  - intros other Hother. rewrite generateRecommendations_heap.
    destruct (Nat.eqb _ 0); [reflexivity|].
    now apply lookup_insert_ne.
  - apply SortFacts.sort_Permutation.
  - apply SortFacts.sort_sorted.
Qed.

End Recommendations.

Section Analysis.
Import Analyzer.
Variable USER_PROMPT_TEMPLATE : string -> string -> string -> string -> string.
#[local] Abbreviation analyzeTaste :=
  (Analyzer.analyzeTaste JSON_parse fetch SYSTEM_PROMPT USER_PROMPT_TEMPLATE).

(** C6. With no subscription and no liked video, [analyzeTaste] throws
    the NoData error and leaves the server as it found it: no provider is
    looked up and no request is sent. *)
Theorem analyzeTaste_no_data (w : world) :
  analyzeTaste {| subscriptions := []; likedVideos := [] |} w
  = (Throw (ThrownError
       "No YouTube data available to analyze. Please sync your YouTube data first."),
     w)
  /\ network (snd (analyzeTaste {| subscriptions := []; likedVideos := [] |} w))
     = network w.
Proof. split; reflexivity. Qed.

(** With data and a provider, the call is made: one request is sent. *)
Lemma analyzeTaste_with_data_calls_provider (input : TasteAnalysisInput) (w : world)
    (p : GitHubModelsProvider) :
  (length (subscriptions input) =? 0)%nat && (length (likedVideos input) =? 0)%nat = false ->
  cachedProvider w = Some p ->
  Llm.isConfigured p = true ->
  exists request, network (snd (analyzeTaste input w)) = (network w ++ [request])%list.
Proof.
  intros Hdata Hcached Hconf.
  unfold Analyzer.analyzeTaste. rewrite Hdata.
  unfold bind at 1, Llm.complete, Llm.getLLMProvider, bind at 1 2, gets.
  rewrite Hcached. cbn [ret]. unfold Llm.provider_complete. rewrite Hconf. cbn [negb].
  unfold bind at 1, modify.
  match goal with |- context [log_request ?r w] => exists r end.
  destruct (fetch _) as [response|e]; [|reflexivity].
  destruct (negb (ok response)); [reflexivity|].
  destruct (json_body response) as [data|e]; [|reflexivity].
  destruct (choices data) as [[|[choice|] rest]|]; try reflexivity.
  cbn [ret]. now rewrite ServerFacts.lift_world.
Qed.

End Analysis.
End Orchestrators.

(** ** Failures of the analyze route *)

Section AnalyzeFailures.
Import Js Server Analyzer AnalyzeRoute.
Variable JSON_parse : string -> string + json.
Variable fetch : FetchRequest -> result thrown HttpResponse.
Variable SYSTEM_PROMPT : string.
Variable USER_PROMPT_TEMPLATE : string -> string -> string -> string -> string.
Variable db_replace_profile : TasteAnalysisResult -> result thrown (option nat).
#[local] Abbreviation analyzeTaste :=
  (Analyzer.analyzeTaste JSON_parse fetch SYSTEM_PROMPT USER_PROMPT_TEMPLATE).
#[local] Abbreviation handler :=
  (AnalyzeRoute.handler JSON_parse fetch SYSTEM_PROMPT USER_PROMPT_TEMPLATE
     db_replace_profile).

(** A provider failure goes through [analyzeTaste] as it is. *)
Lemma analyzeTaste_provider_failure (input : TasteAnalysisInput)
    (p : GitHubModelsProvider) (response : HttpResponse) :
  (length (subscriptions input) =? 0)%nat && (length (likedVideos input) =? 0)%nat = false ->
  Llm.isConfigured p = true ->
  (forall request, fetch request = Ok response) ->
  ok response = false ->
  exists request, forall w w1 : world,
    Llm.getLLMProvider w = (Ok p, w1) ->
    analyzeTaste input w
    = (Throw (ThrownError ("GitHub Models API error ("
                           ++ string_of_nat (status response) ++ "): "
                           ++ text response)%string),
       log_request request w1).
Proof.
  intros Hdata Hconf Hfetch Hok.
  unfold Analyzer.analyzeTaste. rewrite Hdata.
  match goal with |- context [Llm.complete fetch ?m ?o] =>
    destruct (ServerFacts.complete_not_ok fetch m o p response Hconf Hfetch Hok)
      as (request & Hrun) end.
  exists request. intros w w1 Hprovider. unfold bind.
  now rewrite (Hrun w w1 Hprovider).
Qed.

End AnalyzeFailures.

(** C5. The route does not do what the claim, and the rule of the
    repository never to expose internal error details to users, ask for:
    for a server with a token, one subscription and an endpoint that
    answers with status 500, [analyzeTaste] throws an [Error] that quotes
    the body of the provider's reply, and the [catch] block of the route
    sends its message to the client with status 500, not the fixed text
    'Failed to analyze taste profile' that it keeps for thrown values
    that are no [Error]. The route of the subscriptions, when its own
    upstream answers with such a body, sends a fixed text. *)
Lemma analyze_failure_exposes_provider_body :
  fst (AnalyzeRoute.handler Json.parse Examples.failingEndpoint ""
         (fun _ _ _ _ => EmptyString) (fun _ => Server.Ok (Some 1%nat))
         Examples.oneSubscription [] Examples.server)
  = Server.Throw (Server.ThrownHttp 500
      "GitHub Models API error (500): upstream stack trace: secret")
  /\ Js.includes "upstream stack trace: secret"
       "GitHub Models API error (500): upstream stack trace: secret" = true
  /\ "GitHub Models API error (500): upstream stack trace: secret"%string
     <> "Failed to analyze taste profile"%string
  /\ fst (YouTube.subscriptionsHandler YouTubeScenarios.subscriptionsDown
            YouTubeScenarios.statsDown 1 "token" [])
     = YouTube.Throws
         (Server.ThrownHttp 500 "Failed to fetch subscriptions from YouTube").
Proof.
  split; [vm_compute; reflexivity|]. split; [reflexivity|].
  split; [discriminate | vm_compute; reflexivity].
Qed.

(** The mutation seen from the caller: the request fails, the caller's
    array is reordered all the same, and nothing appears elsewhere. *)
Lemma prompt_building_sorts_callers_array_witness :
  Server.heap Examples.server !!! 0%nat
  = [Examples.low; Examples.first; Examples.high; Examples.second]
  /\ Server.heap
       (snd (Recommender.generateRecommendations Json.parse Examples.failingEndpoint ""
               (fun _ _ _ => EmptyString)
               {| Recommender.tasteProfile :=
                    {| Recommender.categories := 0%nat;
                       Recommender.analysisSummary := "s" |};
                  Recommender.existingSubscriptions := [] |}
               Examples.server)) !!! 0%nat
     = [Examples.high; Examples.first; Examples.second; Examples.low]
  /\ Server.heap
       (snd (Recommender.generateRecommendations Json.parse Examples.failingEndpoint ""
               (fun _ _ _ => EmptyString)
               {| Recommender.tasteProfile :=
                    {| Recommender.categories := 0%nat;
                       Recommender.analysisSummary := "s" |};
                  Recommender.existingSubscriptions := [] |}
               Examples.server)) !! 1%nat
     = None.
Proof.
  pose proof (prompt_building_sorts_callers_array Json.parse Examples.failingEndpoint ""
                (fun _ _ _ => EmptyString)
                {| Recommender.tasteProfile :=
                     {| Recommender.categories := 0%nat;
                        Recommender.analysisSummary := "s" |};
                   Recommender.existingSubscriptions := [] |}
                Examples.server) as (_ & _ & Hsorted & Hframe & _).
  split; [reflexivity|]. split.
  - exact Hsorted.
  - transitivity (Server.heap Examples.server !! 1%nat); [|reflexivity].
    apply Hframe. discriminate.
Defined.

(** * More of the code

    Properties of the functions around those above: the builders of the
    prompts, the parsers seen from their results, the LLM service, the
    two orchestrators and their routes, and the YouTube service. *)

#[local] Open Scope string_scope.

Module PromptFacts.
Import Js Server Analyzer.

Lemma firstn_app_within {A} (n : nat) (l extra : list A) :
  (n <= length l)%nat -> firstn n (l ++ extra) = firstn n l.
Proof.
  intros Hn. rewrite firstn_app.
  replace (n - length l)%nat with 0%nat by lia. simpl. apply app_nil_r.
Qed.

Lemma length_substring (n m : nat) (s : string) :
  (String.length (String.substring n m s) <= m)%nat.
Proof.
  revert n m. induction s as [|c s IH]; intros n m.
  - destruct n, m; simpl; lia.
  - destruct n as [|n]; simpl.
    + destruct m as [|m]; simpl; [lia|]. specialize (IH 0%nat m). lia.
    + apply IH.
Qed.

Lemma join_nonempty (sep x : string) (rest : list string) :
  x <> "" -> join sep (x :: rest) <> "".
Proof.
  intros Hx. destruct x as [|c x]; [congruence|].
  destruct rest; simpl; discriminate.
Qed.

Lemma formatSubscription_nonempty (sub : ChannelData) : formatSubscription sub <> "".
Proof.
  unfold formatSubscription.
  destruct (channelDescription sub) as [[|c d]|]; simpl; discriminate.
Qed.

Lemma formatLikedVideo_nonempty (video : VideoData) : formatLikedVideo video <> "".
Proof. unfold formatLikedVideo. simpl. discriminate. Qed.

End PromptFacts.

Module ParserFacts.
Import Js Fence Server Documented.

(** An entry that passes is well formed, and read field by field. *)
Lemma validateCategory_Ok_inv (entry : json) (index : nat) (c : TasteCategory) :
  Analyzer.validateCategory entry index = Ok c ->
  wellFormedCategory entry = true
  /\ name c = Analyzer.as_string (assoc "name" (as_record entry))
  /\ description c = Analyzer.as_string (assoc "description" (as_record entry))
  /\ weight c = clamp01 (Analyzer.as_number (assoc "weight" (as_record entry))).
Proof.
  destruct (wellFormedCategory entry) eqn:Hwf.
  - destruct entry as [| | | | |props]; try discriminate.
    unfold Analyzer.validateCategory. simpl in *.
    destruct (assoc "name" props) as [[]|]; try discriminate.
    destruct (assoc "weight" props) as [[]|]; try discriminate.
    destruct (assoc "description" props) as [[]|]; try discriminate.
    simpl. intros [= <-]. auto.
  - destruct (AnalyzerFacts.validateCategory_malformed entry index Hwf) as (f & Hf & _).
    rewrite Hf. discriminate.
Qed.

Lemma mapCategories_Ok_mirror (entries : list json) (index : nat) (cats : list TasteCategory) :
  Analyzer.mapCategories entries index = Ok cats ->
  Forall2 (fun e c =>
             wellFormedCategory e = true
             /\ name c = Analyzer.as_string (assoc "name" (as_record e))
             /\ description c = Analyzer.as_string (assoc "description" (as_record e))
             /\ weight c = clamp01 (Analyzer.as_number (assoc "weight" (as_record e))))
          entries cats.
Proof.
  revert index cats. induction entries as [|e entries IH]; intros index cats; simpl.
  - intros [= <-]. constructor.
  - destruct (Analyzer.validateCategory e index) as [c|] eqn:Hc; [|discriminate].
    destruct (Analyzer.mapCategories entries (S index)) as [cs|] eqn:Hcs; [|discriminate].
    intros [= <-]. constructor; [now apply (validateCategory_Ok_inv e index) | now apply (IH (S index))].
Qed.

(** What [map] throws comes from an entry, and names an index. *)
Lemma mapCategories_Throw_names_index (entries : list json) (index : nat)
    (f : Analyzer.failure) :
  Analyzer.mapCategories entries index = Throw f -> exists k, namedIndex f = Some k.
Proof.
  revert index. induction entries as [|e entries IH]; intros index; simpl; [discriminate|].
  destruct (wellFormedCategory e) eqn:Hwf.
  - destruct (AnalyzerFacts.validateCategory_wellFormed e index Hwf) as (c & -> & _).
    destruct (Analyzer.mapCategories entries (S index)) eqn:Hm; [discriminate|].
    intros [= <-]. now apply (IH (S index)).
  - destruct (AnalyzerFacts.validateCategory_malformed e index Hwf) as (f' & -> & _ & Hk).
    intros [= <-]. now exists index.
Qed.

(** Each weight is at most the total. *)
Lemma weight_le_total (cats : list TasteCategory) (c : TasteCategory) :
  Forall (fun c => 0 <= weight c <= 1)%Q cats ->
  In c cats -> (Binary64.fl (weight c) <= Analyzer.totalWeight cats)%Q.
Proof.
  intros Hall Hin. rewrite AnalyzerFacts.totalWeight_weights.
  apply Binary64Facts.fold_add_ge_term;
    [now apply AnalyzerFacts.weights_nonneg | discriminate | now apply in_map].
Qed.

Lemma normalizeWeights_bounds (cats : list TasteCategory) :
  Forall (fun c => 0 <= weight c <= 1)%Q cats ->
  Forall (fun c => 0 <= weight c <= 1)%Q (Analyzer.normalizeWeights cats).
Proof.
  intros Hall. unfold Analyzer.normalizeWeights.
  destruct (Qlt_le_dec 0 (Analyzer.totalWeight cats)) as [Hpos | _]; [|exact Hall].
  apply List.Forall_forall. intros c' Hin. apply in_map_iff in Hin as (c & <- & Hin).
  cbn [weight set_weight].
  pose proof (weight_le_total cats c Hall Hin) as Hle.
  pose proof (proj1 (List.Forall_forall _ _) Hall c Hin) as [H0 _].
  pose proof (AnalyzerFacts.totalWeight_fixed cats Hall) as Hfix.
  split.
  - apply Binary64Facts.div_nonneg; [exact H0 | now rewrite Hfix].
  - apply Binary64Facts.div_le_1; [exact H0 | now rewrite Hfix | now rewrite Hfix].
Qed.

Lemma Forall2_with_right {A B : Type} (P : A -> B -> Prop) (R : B -> Prop)
    (l : list A) (k : list B) :
  Forall2 P l k -> Forall R k -> Forall2 (fun a b => P a b /\ R b) l k.
Proof.
  induction 1 as [|a b l k Hab _ IH]; intros Hall; constructor.
  - inversion Hall; subst. now split.
  - inversion Hall; subst. now apply IH.
Qed.

(** The recommendations parser never returns an empty list. *)
Lemma parseRecommendations_Ok_nonempty (JSON_parse : string -> string + json)
    (content : string) (res : Recommender.RecommendationsResult) :
  Recommender.parseRecommendationsResponse JSON_parse content = Ok res ->
  Recommender.recommendations res <> [].
Proof.
  unfold Recommender.parseRecommendationsResponse.
  destruct (JSON_parse (jsonContent content)) as [e|parsed]; [discriminate|].
  destruct (negb (truthy (Some parsed)) || _); [discriminate|].
  destruct (negb (isArray _)); [discriminate|].
  destruct (Nat.eqb _ 0) eqn:Hlen; [discriminate|]. intros [= <-]. cbn.
  intros Hnil. rewrite Hnil in Hlen. discriminate.
Qed.

End ParserFacts.

Module RecommenderPromptFacts.
Import Js Server Recommender Documented.

Lemma insert_head (x : TasteCategory) (l : list TasteCategory) :
  Forall (descending x) l -> insert byWeightDescending x l = x :: l.
Proof.
  intros Hall. destruct l as [|y l]; [reflexivity|]. simpl.
  destruct (Qlt_le_dec 0 (byWeightDescending x y)) as [Hafter | _]; [|reflexivity].
  apply SortFacts.compare_positive in Hafter.
  inversion Hall as [|? ? Hxy _]; subst. unfold descending in Hxy. lra.
Qed.

(** A sorted array is left as it is. *)
Lemma sort_sorted_id (l : list TasteCategory) :
  StronglySorted descending l -> sort byWeightDescending l = l.
Proof.
  induction 1 as [|x l _ IH Hall]; [reflexivity|].
  cbn [sort fold_right]. fold (sort byWeightDescending l).
  rewrite IH. now apply insert_head.
Qed.

Lemma sort_idempotent (l : list TasteCategory) :
  sort byWeightDescending (sort byWeightDescending l) = sort byWeightDescending l.
Proof. apply sort_sorted_id, SortFacts.sort_sorted. Qed.

End RecommenderPromptFacts.

Module LlmFacts.
Import Js Server LlmClient.

(** The three ways [getLLMProvider] can go. *)
Lemma getLLMProvider_cases (w : world) :
  (exists p, cachedProvider w = Some p /\ Llm.getLLMProvider w = (Ok p, w))
  \/ (exists tok, cachedProvider w = None /\ env w !! "GITHUB_TOKEN" = Some tok
                  /\ tok <> ""
                  /\ Llm.getLLMProvider w
                     = (Ok {| token := tok;
                              model := Llm.default (env w !! "GITHUB_MODEL")
                                         Llm.DEFAULT_MODEL_github |},
                        set_cachedProvider
                          (Some {| token := tok;
                                   model := Llm.default (env w !! "GITHUB_MODEL")
                                              Llm.DEFAULT_MODEL_github |}) w))
  \/ (cachedProvider w = None
      /\ (env w !! "GITHUB_TOKEN" = None \/ env w !! "GITHUB_TOKEN" = Some "")
      /\ exists m, Llm.getLLMProvider w = (Throw (ThrownError m), w)).
Proof.
  unfold Llm.getLLMProvider, Llm.createGitHubModelsProvider, bind, gets, modify, ret, throw.
  destruct (cachedProvider w) as [p|] eqn:Hcached.
  - left. now exists p.
  - right. destruct (env w !! "GITHUB_TOKEN") as [tok|] eqn:Htok.
    + destruct (String.eqb_spec tok "") as [-> | Hne].
      * right. split; [reflexivity|]. split; [now right|]. eexists. reflexivity.
      * left. exists tok. split; [reflexivity|]. split; [reflexivity|].
        split; [assumption|].
        unfold Llm.isConfigured. cbn [token].
        destruct (String.eqb_spec tok ""); [congruence|]. reflexivity.
    + right. split; [reflexivity|]. split; [now left|]. eexists. reflexivity.
Qed.

Lemma getLLMProvider_frame (w : world) :
  network (snd (Llm.getLLMProvider w)) = network w
  /\ env (snd (Llm.getLLMProvider w)) = env w.
Proof.
  destruct (getLLMProvider_cases w)
    as [(p & _ & ->) | [(tok & _ & _ & _ & ->) | (_ & _ & m & ->)]]; now split.
Qed.

(** Looking the provider up does not depend on the callers' arrays. *)
Lemma getLLMProvider_set_heap (h : gmap loc (list TasteCategory)) (w : world) :
  Llm.getLLMProvider (set_heap h w)
  = (fst (Llm.getLLMProvider w), set_heap h (snd (Llm.getLLMProvider w))).
Proof.
  destruct w as [e h0 cached net].
  unfold Llm.getLLMProvider, Llm.createGitHubModelsProvider, bind, gets, modify, ret, throw.
  cbv beta iota delta [set_heap set_cachedProvider env heap cachedProvider network fst snd].
  destruct cached; [reflexivity|].
  destruct (e !! "GITHUB_TOKEN") as [tok|]; [|reflexivity].
  destruct (String.eqb tok "") eqn:Etok; [reflexivity|].
  unfold Llm.isConfigured. cbn [token]. rewrite Etok. reflexivity.
Qed.

Lemma provider_complete_run (fetch : FetchRequest -> result thrown HttpResponse)
    (p : GitHubModelsProvider) (messages : list LLMMessage)
    (options : LLMCompletionOptions) (w : world) :
  Llm.isConfigured p = true ->
  snd (Llm.provider_complete fetch p messages options w)
  = log_request (requestOf p messages options) w.
Proof.
  intros Hconf. unfold Llm.provider_complete. rewrite Hconf. cbn [negb].
  unfold bind, modify. fold (requestOf p messages options).
  destruct (fetch _) as [response|e]; [|reflexivity].
  destruct (negb (ok response)); [reflexivity|].
  destruct (json_body response) as [data|e]; [|reflexivity].
  destruct (choices data) as [[|[choice|] rest]|]; reflexivity.
Qed.

(** The outcome of a call whose reply is [ok] and decodes. *)
Lemma provider_complete_ok (fetch : FetchRequest -> result thrown HttpResponse)
    (p : GitHubModelsProvider) (messages : list LLMMessage)
    (options : LLMCompletionOptions) (w : world)
    (response : HttpResponse) (data : GitHubModelsResponse) :
  Llm.isConfigured p = true ->
  fetch (requestOf p messages options) = Ok response ->
  ok response = true ->
  json_body response = Ok data ->
  fst (Llm.provider_complete fetch p messages options w)
  = match choices data with
    | None | Some [] => Throw (ThrownError "GitHub Models API returned no choices")
    | Some (None :: _) => Throw (ThrownError "GitHub Models API returned empty choice")
    | Some (Some choice :: _) =>
        Ok {| response_content := message_content choice;
              response_usage := usage data;
              response_model := Llm.default (data_model data) (model p) |}
    end.
Proof.
  intros Hconf Hfetch Hok Hjson. unfold Llm.provider_complete. rewrite Hconf. cbn [negb].
  unfold bind, modify. fold (requestOf p messages options).
  rewrite Hfetch, Hok, Hjson. cbn [negb].
  destruct (choices data) as [[|[choice|] rest]|]; reflexivity.
Qed.

(** A call that returns has sent exactly one request, and returns the
    content of the first choice of the reply. *)
Lemma provider_complete_Ok_inv (fetch : FetchRequest -> result thrown HttpResponse)
    (p : GitHubModelsProvider) (messages : list LLMMessage)
    (options : LLMCompletionOptions) (w w' : world) (r : LLMCompletionResponse) :
  Llm.provider_complete fetch p messages options w = (Ok r, w') ->
  Llm.isConfigured p = true
  /\ w' = log_request (requestOf p messages options) w
  /\ exists response data choice rest,
       fetch (requestOf p messages options) = Ok response
       /\ ok response = true
       /\ json_body response = Ok data
       /\ choices data = Some (Some choice :: rest)
       /\ response_content r = message_content choice.
Proof.
  unfold Llm.provider_complete.
  destruct (Llm.isConfigured p) eqn:Hconf; cbn [negb]; [|discriminate].
  unfold bind, modify. fold (requestOf p messages options).
  destruct (fetch _) as [response|e] eqn:Hfetch; [|discriminate].
  destruct (ok response) eqn:Hok; cbn [negb]; [|discriminate].
  destruct (json_body response) as [data|e] eqn:Hjson; [|discriminate].
  destruct (choices data) as [[|[choice|] rest]|] eqn:Hchoices; try discriminate.
  intros [= <- <-]. split; [reflexivity|]. split; [reflexivity|].
  exists response, data, choice, rest. auto.
Qed.

Lemma complete_run (fetch : FetchRequest -> result thrown HttpResponse)
    (messages : list LLMMessage) (options : LLMCompletionOptions)
    (w w1 : world) (p : GitHubModelsProvider) :
  Llm.getLLMProvider w = (Ok p, w1) ->
  Llm.complete fetch messages options w
  = Llm.provider_complete fetch p messages options w1.
Proof. intros Hprovider. unfold Llm.complete, bind. now rewrite Hprovider. Qed.

Lemma complete_Ok_inv (fetch : FetchRequest -> result thrown HttpResponse)
    (messages : list LLMMessage) (options : LLMCompletionOptions)
    (w w' : world) (r : LLMCompletionResponse) :
  Llm.complete fetch messages options w = (Ok r, w') ->
  exists p w1,
    Llm.getLLMProvider w = (Ok p, w1)
    /\ Llm.isConfigured p = true
    /\ w' = log_request (requestOf p messages options) w1
    /\ exists response data choice rest,
         fetch (requestOf p messages options) = Ok response
         /\ ok response = true
         /\ json_body response = Ok data
         /\ choices data = Some (Some choice :: rest)
         /\ response_content r = message_content choice.
Proof.
  unfold Llm.complete, bind.
  destruct (Llm.getLLMProvider w) as [[p|e] w1] eqn:Hprovider; [|discriminate].
  intros Hrun. exists p, w1. split; [reflexivity|].
  exact (provider_complete_Ok_inv fetch p messages options w1 w' r Hrun).
Qed.

(** [isLLMConfigured] returns, and says whether a provider is found. *)
Lemma isLLMConfigured_run (w : world) :
  (exists p w', Llm.isLLMConfigured w = (Ok true, w')
                /\ Llm.getLLMProvider w = (Ok p, w')
                /\ Llm.getLLMProvider w' = (Ok p, w')
                /\ network w' = network w /\ heap w' = heap w /\ env w' = env w)
  \/ (Llm.isLLMConfigured w = (Ok false, w)
      /\ cachedProvider w = None
      /\ (env w !! "GITHUB_TOKEN" = None \/ env w !! "GITHUB_TOKEN" = Some "")).
Proof.
  unfold Llm.isLLMConfigured, try_catch, bind.
  destruct (getLLMProvider_cases w)
    as [(p & Hc & H) | [(tok & Hc & Htok & Hne & H) | (Hc & Htok & m & H)]]; rewrite H.
  - left. exists p, w. repeat split; try reflexivity. exact H.
  - left. eexists _, _. split; [reflexivity|]. split; [reflexivity|].
    split; [|repeat split].
    eapply ServerFacts.getLLMProvider_cached. exact H.
  - right. now split.
Qed.

End LlmFacts.

Module RouteFacts.
Import Js Server LlmClient.

(** What a [catch] block of the two POST routes throws has a status code. *)
Lemma analyze_catch_block_status {A} (e : thrown) (w : world) :
  exists e', @AnalyzeRoute.catch_block A e w = (Throw e', w)
             /\ AnalyzeRoute.has_statusCode e' = true.
Proof.
  unfold AnalyzeRoute.catch_block.
  destruct (AnalyzeRoute.has_statusCode e) eqn:Hcode; eexists; split;
    try reflexivity; assumption.
Qed.

Lemma recommendations_catch_block_status {A} (e : thrown) (w : world) :
  exists e', @RecommendationsRoute.catch_block A e w = (Throw e', w)
             /\ AnalyzeRoute.has_statusCode e' = true.
Proof.
  unfold RecommendationsRoute.catch_block.
  destruct (AnalyzeRoute.has_statusCode e) eqn:Hcode; eexists; split;
    try reflexivity; assumption.
Qed.

(** Every recommendation is counted under one of the three types. *)
Lemma countOf_sum (recs : list Recommender.RecommendationItem) :
  (RecommendationsRoute.countOf Recommender.channel recs
   + RecommendationsRoute.countOf Recommender.hidden_gem recs
   + RecommendationsRoute.countOf Recommender.content_gap recs)%nat
  = length recs.
Proof.
  unfold RecommendationsRoute.countOf.
  induction recs as [|r recs IH]; [reflexivity|]. simpl.
  destruct (Recommender.type r); simpl; lia.
Qed.

Section Orchestration.
Variable JSON_parse : string -> string + json.
Variable fetch : FetchRequest -> result thrown HttpResponse.
Variable SYSTEM_PROMPT : string.

(** The options of the two orchestrators. *)
#[local] Abbreviation analysisOptions :=
  {| temperature := Some (7 # 10)%Q; maxTokens := Some 2000%nat;
     topP := None; stop := None |}.
#[local] Abbreviation recommendationOptions :=
  {| temperature := Some (8 # 10)%Q; maxTokens := Some 3000%nat;
     topP := None; stop := None |}.

Lemma analyzeTaste_run (USER_PROMPT_TEMPLATE : string -> string -> string -> string -> string)
    (input : Analyzer.TasteAnalysisInput) (w : world) :
  Analyzer.subscriptions input <> [] \/ Analyzer.likedVideos input <> [] ->
  Analyzer.analyzeTaste JSON_parse fetch SYSTEM_PROMPT USER_PROMPT_TEMPLATE input w
  = bind (Llm.complete fetch
            [ {| role := system; content := SYSTEM_PROMPT |};
              {| role := user;
                 content := Analyzer.buildAnalysisPrompt USER_PROMPT_TEMPLATE input |} ]
            analysisOptions)
         (fun response =>
            lift Analyzer.message
              (Analyzer.parseAnalysisResponse JSON_parse (response_content response))) w.
Proof.
  intros Hdata. unfold Analyzer.analyzeTaste.
  destruct (Analyzer.subscriptions input), (Analyzer.likedVideos input);
    try reflexivity. destruct Hdata; congruence.
Qed.

(** A taste analysis that returns has sent one request, and returns what
    the parser makes of the first choice of the reply. *)
Lemma analyzeTaste_Ok_inv
    (USER_PROMPT_TEMPLATE : string -> string -> string -> string -> string)
    (input : Analyzer.TasteAnalysisInput) (w w' : world)
    (result : Analyzer.TasteAnalysisResult) :
  Analyzer.analyzeTaste JSON_parse fetch SYSTEM_PROMPT USER_PROMPT_TEMPLATE input w
  = (Ok result, w') ->
  (Analyzer.subscriptions input <> [] \/ Analyzer.likedVideos input <> [])
  /\ exists p w1 response data choice rest,
       Llm.getLLMProvider w = (Ok p, w1)
       /\ w' = log_request
                 (requestOf p
                    [ {| role := system; content := SYSTEM_PROMPT |};
                      {| role := user;
                         content :=
                           Analyzer.buildAnalysisPrompt USER_PROMPT_TEMPLATE input |} ]
                    analysisOptions) w1
       /\ fetch (requestOf p
                   [ {| role := system; content := SYSTEM_PROMPT |};
                     {| role := user;
                        content :=
                          Analyzer.buildAnalysisPrompt USER_PROMPT_TEMPLATE input |} ]
                   analysisOptions) = Ok response
       /\ json_body response = Ok data
       /\ choices data = Some (Some choice :: rest)
       /\ Analyzer.parseAnalysisResponse JSON_parse (message_content choice) = Ok result.
Proof.
  intros Hrun.
  assert (Hdata : Analyzer.subscriptions input <> [] \/ Analyzer.likedVideos input <> []).
  { revert Hrun. unfold Analyzer.analyzeTaste.
    destruct (Analyzer.subscriptions input); [|left; discriminate].
    destruct (Analyzer.likedVideos input); [discriminate | right; discriminate]. }
  split; [exact Hdata|].
  rewrite (analyzeTaste_run _ _ _ Hdata) in Hrun. unfold bind in Hrun.
  destruct (Llm.complete _ _ _ w) as [[r|e] w2] eqn:Hcomplete; [|discriminate].
  destruct (LlmFacts.complete_Ok_inv _ _ _ _ _ _ Hcomplete)
    as (p & w1 & Hprovider & _ & -> & response & data & choice & rest
        & Hfetch & _ & Hjson & Hchoices & Hcontent).
  exists p, w1, response, data, choice, rest.
  rewrite Hcontent in Hrun.
  destruct (Analyzer.parseAnalysisResponse JSON_parse (message_content choice))
    as [res|f]; [|discriminate].
  injection Hrun as <- <-. auto 10.
Qed.

(** The same for the recommender, whose run also sorts the caller's array. *)
Lemma generateRecommendations_Ok_inv
    (USER_PROMPT_TEMPLATE : string -> string -> string -> string)
    (input : Recommender.RecommendationsInput) (w w' : world)
    (result : Recommender.RecommendationsResult) :
  Recommender.generateRecommendations JSON_parse fetch SYSTEM_PROMPT USER_PROMPT_TEMPLATE
    input w = (Ok result, w') ->
  heap w !!! Recommender.categories (Recommender.tasteProfile input) <> []
  /\ exists p request choice,
       fst (Llm.getLLMProvider w) = Ok p
       /\ network w' = (network w ++ [request])%list
       /\ request
          = requestOf p
              [ {| role := system; content := SYSTEM_PROMPT |};
                {| role := user;
                   content :=
                     USER_PROMPT_TEMPLATE
                       (Recommender.analysisSummary (Recommender.tasteProfile input))
                       (join nl
                          (map Recommender.formatCategory
                             (Recommender.sort Recommender.byWeightDescending
                                (heap w !!! Recommender.categories
                                              (Recommender.tasteProfile input)))))
                       (Recommender.formatExclusions
                          (Recommender.existingSubscriptions input) 100) |} ]
              recommendationOptions
       /\ Recommender.parseRecommendationsResponse JSON_parse (message_content choice)
          = Ok result.
Proof.
  unfold Recommender.generateRecommendations, bind at 1, gets.
  destruct (heap w !!! Recommender.categories (Recommender.tasteProfile input))
    as [|c cs] eqn:Hheap; [discriminate|].
  cbn [length Nat.eqb]. unfold bind at 1, Recommender.buildPrompt, bind at 1.
  rewrite SortFacts.formatCategories_run, Hheap. cbn [ret].
  set (w0 := set_heap _ w). unfold bind at 1.
  destruct (Llm.complete _ _ _ w0) as [[r|e] w2] eqn:Hcomplete; [|discriminate].
  destruct (LlmFacts.complete_Ok_inv _ _ _ _ _ _ Hcomplete)
    as (p & w1 & Hprovider & _ & -> & response & data & choice & rest
        & Hfetch & _ & Hjson & Hchoices & Hcontent).
  rewrite Hcontent.
  destruct (Recommender.parseRecommendationsResponse JSON_parse (message_content choice))
    as [res|f] eqn:Hparse; [|discriminate].
  intros [= <- <-]. split; [discriminate|].
  subst w0. rewrite LlmFacts.getLLMProvider_set_heap in Hprovider.
  injection Hprovider as Hp Hw1.
  eexists p, _, choice. split; [exact Hp|]. split; [|split; [reflexivity | exact Hparse]].
  cbn [network log_request]. rewrite <- Hw1. cbn [network set_heap].
  now rewrite (proj1 (LlmFacts.getLLMProvider_frame w)).
Qed.

End Orchestration.
End RouteFacts.

Module YouTubeFacts.
Import Js Server YouTube.
#[local] Open Scope youtube_scope.

Lemma find_snoc {A} (p : A -> bool) (l : list A) (x : A) :
  find p (l ++ [x])
  = match find p l with
    | Some y => Some y
    | None => if p x then Some x else None
    end.
Proof.
  induction l as [|y l IH]; simpl; [reflexivity|]. now destruct (p y).
Qed.

(** In [statsMap] the last item of an id is the one that stays. *)
Lemma statsMapOf_lookup (items : list YouTubeChannelItem) (k : string) :
  statsMapOf items !! k
  = match find (fun item => String.eqb (item_id item) k) (rev items) with
    | Some item => Some (statsOf item)
    | None => None
    end.
Proof.
  unfold statsMapOf. induction items as [|x items IH] using rev_ind; [reflexivity|].
  rewrite fold_left_app, rev_app_distr. simpl.
  destruct (String.eqb_spec (item_id x) k) as [<- | Hne].
  - apply lookup_insert_eq.
  - rewrite lookup_insert_ne by assumption. exact IH.
Qed.

Lemma withStats_keeps (statsMap : gmap string Stats) (batch : list YouTubeChannel) :
  Forall2 (fun c e => id e = id c /\ title e = title c
                      /\ description e = description c /\ thumbnail e = thumbnail c)
          batch (map (withStats statsMap) batch).
Proof. induction batch; constructor; auto. Qed.

Lemma pushVideos_spec (maxResults : Z) (items : list YouTubeVideoItem)
    (videos videos' : list YouTubeVideo) (fetched fetched' : nat) (returned : bool) :
  pushVideos maxResults items videos fetched = (videos', fetched', returned) ->
  fetched = length videos ->
  (Z.of_nat fetched < maxResults)%Z \/ fetched = 0%nat ->
  fetched' = length videos'
  /\ videos' = (videos ++ map toVideo (firstn (fetched' - fetched) items))%list
  /\ (fetched <= fetched')%nat
  /\ (if returned
      then (Z.of_nat fetched' <= Z.max 1 maxResults)%Z /\ (fetched < fetched')%nat
      else ((Z.of_nat fetched' < maxResults)%Z \/ (fetched' = 0%nat /\ items = []))
           /\ fetched' = (fetched + length items)%nat).
Proof.
  revert videos fetched. induction items as [|item items IH]; intros videos fetched; simpl.
  - intros [= <- <- <-] Hlen Hinv. rewrite Nat.sub_diag. simpl. rewrite app_nil_r.
    repeat split; try assumption; try lia. destruct Hinv; [now left | now right].
  - destruct (Z.leb_spec maxResults (Z.of_nat (S fetched))) as [Hle | Hlt].
    + intros [= <- <- <-] Hlen Hinv.
      replace (S fetched - fetched)%nat with 1%nat by lia. simpl.
      rewrite length_app. simpl. repeat split; try lia.
    + intros Hrun Hlen Hinv.
      destruct (IH (videos ++ [toVideo item])%list (S fetched) Hrun)
        as (Hlen' & Hvideos & Hle' & Hreturned).
      { rewrite length_app. simpl. lia. }
      { left. exact Hlt. }
      split; [exact Hlen'|]. split; [|split; [lia|]].
      * rewrite Hvideos, <- app_assoc. simpl.
        replace (fetched' - fetched)%nat with (S (fetched' - S fetched)) by lia.
        reflexivity.
      * destruct returned.
        -- split; [tauto | lia].
        -- destruct Hreturned as [[H | [H _]] ->]; [|lia]. split; [now left | simpl; lia].
Qed.

Section Service.
Variable subscriptionsEndpoint :
  Request -> result thrown (Response YouTubeSubscriptionItem).
Variable channelsEndpoint : Request -> result thrown (Response YouTubeChannelItem).
Variable videosEndpoint : Request -> result thrown (Response YouTubeVideoItem).
#[local] Abbreviation enrichBatches := (YouTube.enrichBatches channelsEndpoint).
#[local] Abbreviation enrichChannelsWithStats :=
  (YouTube.enrichChannelsWithStats channelsEndpoint).
#[local] Abbreviation subscriptionPages := (YouTube.subscriptionPages subscriptionsEndpoint).
#[local] Abbreviation likedVideoPages := (YouTube.likedVideoPages videosEndpoint).

Lemma enrichBatches_done (fuel : nat) (accessToken : string)
    (channels enriched : list YouTubeChannel) (i : nat) (sent : list Request) :
  (length channels <= i)%nat ->
  enrichBatches fuel accessToken channels i enriched sent = (Returns enriched, sent).
Proof.
  intros Hi. destruct fuel; simpl;
    destruct (Nat.ltb_spec i (length channels)); try lia; reflexivity.
Qed.

(** The loop neither loses nor renames a channel, and has fuel enough. *)
Lemma enrichBatches_keeps (fuel : nat) (accessToken : string)
    (channels enriched : list YouTubeChannel) (i : nat) (sent : list Request) :
  (length channels <= i + 50 * fuel)%nat ->
  Forall2 (fun c e => id e = id c /\ title e = title c
                      /\ description e = description c /\ thumbnail e = thumbnail c)
          (firstn i channels) enriched ->
  match fst (enrichBatches fuel accessToken channels i enriched sent) with
  | Returns result =>
      Forall2 (fun c e => id e = id c /\ title e = title c
                          /\ description e = description c /\ thumbnail e = thumbnail c)
              channels result
  | Throws e =>
      exists request,
        channelsEndpoint request = Throw e
        \/ exists response, channelsEndpoint request = Ok response
                            /\ json response = Throw e
  | OutOfFuel => False
  end.
Proof.
  revert i enriched sent. induction fuel as [|fuel IH]; intros i enriched sent Hfuel Hsame.
  - rewrite enrichBatches_done by lia. simpl. now rewrite firstn_all2 in Hsame by lia.
  - simpl. destruct (Nat.ltb_spec i (length channels)) as [Hlt | Hge].
    + unfold bind, call.
      destruct (channelsEndpoint _) as [response|e] eqn:Hcall; simpl.
      * destruct (ok response); simpl.
        -- destruct (json response) as [data|e] eqn:Hjson; simpl.
           ++ apply IH; [lia|]. rewrite <- take_take_drop.
              apply Forall2_app; [exact Hsame | apply withStats_keeps].
           ++ eexists. right. eexists. split; [exact Hcall | exact Hjson].
        -- apply Forall_Forall2_diag, Forall_true. auto.
      * eexists. left. exact Hcall.
    + simpl. now rewrite firstn_all2 in Hsame by lia.
Qed.

(** The requests of the loop: one for each batch, of 1 to 50 channels. *)
Lemma enrichBatches_requests (fuel : nat) (accessToken : string)
    (channels enriched : list YouTubeChannel) (i : nat) (sent : list Request) :
  exists new,
    snd (enrichBatches fuel accessToken channels i enriched sent) = (sent ++ new)%list
    /\ (50 * length new <= (length channels - i) + 49)%nat
    /\ Forall (fun request =>
                 exists batch, request = channelsRequest accessToken batch
                               /\ batch <> [] /\ (length batch <= 50)%nat) new.
Proof.
  revert i enriched sent. induction fuel as [|fuel IH]; intros i enriched sent.
  - exists []. rewrite app_nil_r. simpl.
    destruct (Nat.ltb i (length channels)); simpl; repeat split; try lia; constructor.
  - simpl. destruct (Nat.ltb_spec i (length channels)) as [Hlt | Hge].
    + assert (Hbatch : firstn 50 (skipn i channels) <> []
                       /\ (length (firstn 50 (skipn i channels)) <= 50)%nat).
      { split.
        - intros Hnil. apply (f_equal (@length _)) in Hnil.
          rewrite length_take, length_drop in Hnil. cbn [length] in Hnil. lia.
        - rewrite length_take. lia. }
      unfold bind, call.
      destruct (channelsEndpoint _) as [response|e] eqn:Hcall; simpl.
      * destruct (ok response); simpl.
        -- destruct (json response) as [data|e] eqn:Hjson; simpl.
           ++ match goal with |- context [enrichBatches fuel _ _ _ ?e ?s] =>
                destruct (IH (i + 50)%nat e s) as (new & -> & Hcount & Hall)
              end.
              eexists (_ :: new). rewrite <- app_assoc. split; [reflexivity|].
              split; [simpl; lia|]. constructor; [|exact Hall].
              eexists. split; [reflexivity | exact Hbatch].
           ++ eexists [_]. split; [reflexivity|]. split; [simpl; lia|].
              constructor; [|constructor]. eexists. split; [reflexivity | exact Hbatch].
        -- eexists [_]. split; [reflexivity|]. split; [simpl; lia|].
           constructor; [|constructor]. eexists. split; [reflexivity | exact Hbatch].
      * eexists [_]. split; [reflexivity|]. split; [simpl; lia|].
        constructor; [|constructor]. eexists. split; [reflexivity | exact Hbatch].
    + exists []. rewrite app_nil_r. simpl. repeat split; try lia. constructor.
Qed.

Lemma enrichChannelsWithStats_returns_or_throws (accessToken : string)
    (channels : list YouTubeChannel) (sent : list Request) :
  fst (enrichChannelsWithStats accessToken channels sent) <> OutOfFuel.
Proof.
  pose proof (enrichBatches_keeps (length channels) accessToken channels [] 0 sent) as H.
  unfold YouTube.enrichChannelsWithStats.
  destruct (fst (enrichBatches _ _ _ _ _ _)); try discriminate.
  intros _. apply H; [lia | constructor].
Qed.

(** What the loop of [fetchLikedVideos] returns is no longer than the
    limit, or has one video. *)
Lemma likedVideoPages_cap (fuel : nat) (accessToken : string)
    (maxResults : Z) (pageToken : option string) (videos : list YouTubeVideo)
    (fetched : nat) (sent : list Request) :
  fetched = length videos ->
  (Z.of_nat fetched < maxResults)%Z \/ fetched = 0%nat ->
  match fst (likedVideoPages fuel accessToken maxResults pageToken videos fetched sent) with
  | Returns result => (Z.of_nat (length result) <= Z.max 1 maxResults)%Z
  | Throws e =>
      (exists request, videosEndpoint request = Throw e)
      \/ (exists request response,
            videosEndpoint request = Ok response
            /\ (json response = Throw e
                \/ (ok response = false
                    /\ e = ThrownError ("Failed to fetch liked videos: " ++ text response))))
  | OutOfFuel => True
  end.
Proof.
  revert pageToken videos fetched sent.
  induction fuel as [|fuel IH]; intros pageToken videos fetched sent Hlen Hinv; simpl;
    [exact I|].
  unfold bind, call.
  destruct (videosEndpoint _) as [response|e] eqn:Hcall; simpl.
  - destruct (ok response) eqn:Hok; simpl.
    + destruct (json response) as [data|e] eqn:Hjson; simpl.
      * destruct (pushVideos _ _ _ _) as [[videos' fetched'] returned] eqn:Hpush.
        destruct (pushVideos_spec _ _ _ _ _ _ _ Hpush Hlen Hinv)
          as (Hlen' & _ & _ & Hreturned).
        destruct returned; simpl; [lia|].
        destruct Hreturned as [Hinv' _].
        assert (Hdone : (Z.of_nat (length videos') <= Z.max 1 maxResults)%Z) by lia.
        destruct (nextPageToken data) as [[|c t]|]; simpl; try exact Hdone.
        destruct (Z.ltb_spec (Z.of_nat fetched') maxResults); simpl; [|exact Hdone].
        apply IH; [exact Hlen' | now left].
      * right. eexists _, _. split; [exact Hcall | now left].
    + right. eexists _, _. split; [exact Hcall|]. right. now split.
  - left. eexists. exact Hcall.
Qed.

(** When no page of the API is empty, the loop of [fetchLikedVideos] ends
    within [maxResults] pages. *)
Lemma likedVideoPages_ends (fuel : nat) (accessToken : string)
    (maxResults : Z) (pageToken : option string) (videos : list YouTubeVideo)
    (fetched : nat) (sent : list Request) :
  (forall request response data,
     videosEndpoint request = Ok response -> json response = Ok data ->
     items data <> []) ->
  fetched = length videos ->
  (Z.of_nat fetched < maxResults)%Z \/ fetched = 0%nat ->
  (1 <= fuel)%nat -> (maxResults - Z.of_nat fetched <= Z.of_nat fuel)%Z ->
  fst (likedVideoPages fuel accessToken maxResults pageToken videos fetched sent)
  <> OutOfFuel.
Proof.
  intros Hfull. revert pageToken videos fetched sent.
  induction fuel as [|fuel IH]; intros pageToken videos fetched sent Hlen Hinv H1 Hfuel;
    [lia|].
  simpl. unfold bind, call.
  destruct (videosEndpoint _) as [response|e] eqn:Hcall; simpl; [|discriminate].
  destruct (ok response) eqn:Hok; simpl; [|discriminate].
  destruct (json response) as [data|e] eqn:Hjson; simpl; [|discriminate].
  destruct (pushVideos _ _ _ _) as [[videos' fetched'] returned] eqn:Hpush.
  destruct (pushVideos_spec _ _ _ _ _ _ _ Hpush Hlen Hinv)
    as (Hlen' & _ & _ & Hreturned).
  destruct returned; simpl; [discriminate|].
  destruct Hreturned as [Hinv' Hcount].
  pose proof (Hfull _ _ _ Hcall Hjson) as Hitems.
  assert (Hgrow : (fetched < fetched')%nat).
  { destruct (items data); [congruence | simpl in Hcount; lia]. }
  destruct (nextPageToken data) as [[|c t]|]; simpl; try discriminate.
  destruct (Z.ltb_spec (Z.of_nat fetched') maxResults); simpl; [|discriminate].
  apply IH; [exact Hlen' | now left | lia | lia].
Qed.

Lemma enrichBatches_step (fuel : nat) (accessToken : string)
    (channels enriched : list YouTubeChannel) (i : nat) (sent : list Request) :
  (i < length channels)%nat ->
  enrichBatches (S fuel) accessToken channels i enriched sent
  = bind (call channelsEndpoint
            (channelsRequest accessToken (firstn 50 (skipn i channels))))
         (fun response =>
            if negb (ok response) then ret channels
            else
              bind (lift (json response))
                   (fun data =>
                      enrichBatches fuel accessToken channels (i + 50)
                        (enriched
                         ++ map (withStats (statsMapOf (items data)))
                              (firstn 50 (skipn i channels)))%list)) sent.
Proof.
  intros Hi. simpl. destruct (Nat.ltb_spec i (length channels)); [reflexivity | lia].
Qed.

(** The pages give channels without counts. *)
Lemma subscriptionPages_counts (fuel : nat) (accessToken : string)
    (pageToken : option string) (channels result : list YouTubeChannel)
    (sent sent' : list Request) :
  Forall (fun c => subscriberCount c = None /\ videoCount c = None) channels ->
  subscriptionPages fuel accessToken pageToken channels sent = (Returns result, sent') ->
  Forall (fun c => subscriberCount c = None /\ videoCount c = None) result.
Proof.
  revert pageToken channels sent.
  induction fuel as [|fuel IH]; intros pageToken channels sent Hall; simpl; [discriminate|].
  unfold bind, call.
  destruct (subscriptionsEndpoint _) as [response|e]; simpl; [|discriminate].
  destruct (ok response); simpl; [|discriminate].
  destruct (json response) as [data|e]; simpl; [|discriminate].
  assert (Hall' : Forall (fun c => subscriberCount c = None /\ videoCount c = None)
                    (channels ++ map toChannel (items data))).
  { apply Forall_app. split; [exact Hall|].
    apply List.Forall_forall. intros c Hin. apply in_map_iff in Hin as (item & <- & _).
    now split. }
  destruct (nextPageToken data) as [[|c t]|].
  - intros [= <- <-]. exact Hall'.
  - apply IH. exact Hall'.
  - intros [= <- <-]. exact Hall'.
Qed.

End Service.
End YouTubeFacts.

(** ** The prompts of the analyzer *)

Section AnalyzerPrompts.
Import Js Server Analyzer.

(** X1. [formatSubscriptions] and [formatLikedVideos] read the first
    [maxItems] items only: items added to a list that already has
    [maxItems] of them leave the text as it is. *)
Theorem format_lists_ignore_items_past_cap (subs extraSubs : list ChannelData)
    (videos extraVideos : list VideoData) (maxSubs maxVideos : nat) :
  (maxSubs <= length subs)%nat ->
  (maxVideos <= length videos)%nat ->
  formatSubscriptions (subs ++ extraSubs) maxSubs = formatSubscriptions subs maxSubs
  /\ formatLikedVideos (videos ++ extraVideos) maxVideos
     = formatLikedVideos videos maxVideos.
Proof.
  unfold formatSubscriptions, formatLikedVideos.
  intros Hsubs Hvideos. now rewrite !PromptFacts.firstn_app_within.
Qed.

Lemma format_lists_ignore_items_past_cap_witness :
  formatSubscriptions (Examples.oneSubscription ++ Examples.oneSubscription) 1
  = "- Fireship"
  /\ formatLikedVideos (Scenarios.oneVideo ++ Scenarios.oneVideo) 1
     = formatLikedVideos Scenarios.oneVideo 1.
Proof.
  destruct (format_lists_ignore_items_past_cap
              Examples.oneSubscription Examples.oneSubscription
              Scenarios.oneVideo Scenarios.oneVideo 1 1 (le_n 1) (le_n 1))
    as [Hsubs Hvideos].
  split; [|exact Hvideos].
  transitivity (formatSubscriptions Examples.oneSubscription 1);
    [exact Hsubs | reflexivity].
Defined.

(** X2. The line of a subscription is at most 108 characters longer than
    the channel's title, however long the description is: the description
    is cut after 100 characters. *)
Theorem formatSubscription_length_bounded (sub : ChannelData) :
  (String.length (formatSubscription sub) <= String.length (channelTitle sub) + 108)%nat.
Proof.
  unfold formatSubscription.
  destruct (channelDescription sub) as [[|c d]|]; cbn [join];
    rewrite ?FenceFacts.length_append; cbn [String.length]; try lia.
  pose proof (PromptFacts.length_substring 0 100 (String c d)).
  destruct (Nat.ltb 100 _); cbn [String.length] in *; lia.
Qed.

Section Prompt.
Variable USER_PROMPT_TEMPLATE : string -> string -> string -> string -> string.

(** X3. [buildAnalysisPrompt] fills the template with the total numbers
    of subscriptions and of liked videos, not with the numbers of lines
    shown, and puts the placeholder text exactly where a list is empty. *)
Theorem buildAnalysisPrompt_placeholders (input : TasteAnalysisInput) :
  buildAnalysisPrompt USER_PROMPT_TEMPLATE input
  = USER_PROMPT_TEMPLATE
      (string_of_nat (length (subscriptions input)))
      (match subscriptions input with
       | [] => "No subscriptions available"
       | _ :: _ => formatSubscriptions (subscriptions input) 50
       end)
      (string_of_nat (length (likedVideos input)))
      (match likedVideos input with
       | [] => "No liked videos available"
       | _ :: _ => formatLikedVideos (likedVideos input) 30
       end).
Proof.
  unfold buildAnalysisPrompt. f_equal.
  - destruct (subscriptions input) as [|sub subs]; [reflexivity|].
    unfold formatSubscriptions. cbn [firstn map].
    pose proof (PromptFacts.join_nonempty nl (formatSubscription sub)
                  (map formatSubscription (firstn 49 subs))
                  (PromptFacts.formatSubscription_nonempty sub)) as Hne.
    unfold or_else. now destruct (join nl _).
  - destruct (likedVideos input) as [|video videos]; [reflexivity|].
    unfold formatLikedVideos. cbn [firstn map].
    pose proof (PromptFacts.join_nonempty nl (formatLikedVideo video)
                  (map formatLikedVideo (firstn 29 videos))
                  (PromptFacts.formatLikedVideo_nonempty video)) as Hne.
    unfold or_else. now destruct (join nl _).
Qed.

End Prompt.
End AnalyzerPrompts.

(** ** The two parsers *)

Section Parsers.
Import Js Fence Server Documented.
Variable JSON_parse : string -> string + json.
#[local] Abbreviation parseAnalysisResponse := (Analyzer.parseAnalysisResponse JSON_parse).
#[local] Abbreviation parseRecommendationsResponse :=
  (Recommender.parseRecommendationsResponse JSON_parse).

(** X4. Each parser fails with [Failed to parse LLM response as JSON]
    exactly when [JSON.parse] throws on the content without its fence, and
    the two parsers fail with [LLM response is not an object] on the same
    contents. *)
Theorem parsers_agree_on_unreadable_content (content : string) :
  (forall e, parseAnalysisResponse content = Throw (Analyzer.FailedToParse e)
             <-> JSON_parse (jsonContent content) = inl e)
  /\ (forall e, parseRecommendationsResponse content = Throw (Recommender.FailedToParse e)
                <-> JSON_parse (jsonContent content) = inl e)
  /\ (parseAnalysisResponse content = Throw Analyzer.NotAnObject
      <-> parseRecommendationsResponse content = Throw Recommender.NotAnObject).
Proof.
  unfold Analyzer.parseAnalysisResponse, Recommender.parseRecommendationsResponse.
  destruct (JSON_parse (jsonContent content)) as [e'|parsed].
  - split; [|split]; [intros e; split; intros [= ->]; reflexivity ..|].
    split; discriminate.
  - assert (Hmap : forall entries f,
              Analyzer.mapCategories entries 0 = Throw f ->
              f <> Analyzer.NotAnObject /\ forall e, f <> Analyzer.FailedToParse e).
    { intros entries f Hf.
      destruct (ParserFacts.mapCategories_Throw_names_index _ _ _ Hf) as (k & Hk).
      split; [|intros e]; intros ->; discriminate. }
    unfold Recommender.is_type.
    destruct (negb (truthy (Some parsed)) || _) eqn:Hobject.
    + repeat split; congruence.
    + split; [|split].
      * intros e. split; [|discriminate].
        destruct (negb (isArray _)); [discriminate|].
        destruct (negb (js_type_eqb _ TString)); [discriminate|].
        destruct (Analyzer.mapCategories _ 0) as [cats|f] eqn:Hm; [discriminate|].
        intros [= ->]. now destruct (proj2 (Hmap _ _ Hm) e).
      * intros e. split; [|discriminate].
        destruct (negb (isArray _)); [discriminate|].
        destruct (Nat.eqb _ 0); discriminate.
      * split.
        -- destruct (negb (isArray _)); [discriminate|].
           destruct (negb (js_type_eqb _ TString)); [discriminate|].
           destruct (Analyzer.mapCategories _ 0) as [cats|f] eqn:Hm; [discriminate|].
           intros [= ->]. now destruct (proj1 (Hmap _ _ Hm)).
        -- destruct (negb (isArray _)); [discriminate|].
           destruct (Nat.eqb _ 0); discriminate.
Qed.

(** X5. [parseAnalysisResponse] returns exactly for the contents that
    [JSON.parse] reads as an object whose [categories] is an array of
    well-formed entries and whose [analysisSummary] is a string. *)
Theorem analysis_accepted_exactly_when_well_formed (content : string) :
  (exists res, parseAnalysisResponse content = Ok res) <->
  (exists props entries summary,
      JSON_parse (jsonContent content) = inr (JObj props)
      /\ assoc "categories" props = Some (JArr entries)
      /\ assoc "analysisSummary" props = Some (JStr summary)
      /\ Forall (fun e => wellFormedCategory e = true) entries).
Proof.
  split.
  - intros (res & Hres). revert Hres. unfold Analyzer.parseAnalysisResponse.
    destruct (JSON_parse (jsonContent content)) as [e|parsed]; [discriminate|].
    destruct parsed as [|b|x|s|items|props]; simpl; try discriminate.
    + now destruct b.
    + now destruct (Qeq_bool x 0).
    + now destruct (String.eqb s "").
    + destruct (assoc "categories" props) as [[| | | |entries|]|] eqn:Hcats; simpl;
        try discriminate.
      destruct (assoc "analysisSummary" props) as [[| | |summary| |]|] eqn:Hsum; simpl;
        try discriminate.
      destruct (Analyzer.mapCategories entries 0) as [cats|] eqn:Hm; [|discriminate].
      intros _. exists props, entries, summary.
      split; [reflexivity|]. split; [exact Hcats|]. split; [exact Hsum|].
      eapply Forall2_Forall_l; [exact (ParserFacts.mapCategories_Ok_mirror _ _ _ Hm)|].
      apply Forall_true. tauto.
  - intros (props & entries & summary & Hparse & Hcats & Hsum & Hall).
    rewrite (AnalyzerFacts.parseAnalysis_shaped JSON_parse _ _ _ _ Hparse Hcats Hsum).
    destruct (AnalyzerFacts.mapCategories_wellFormed entries 0 Hall) as (cats & -> & _).
    eexists. reflexivity.
Qed.

(** X6. What [parseAnalysisResponse] returns mirrors the response: the
    summary is the response's, and the categories are those of the
    response, one for one and in order, each with the name and the
    description of its entry and a weight between 0 and 1. *)
Theorem analysis_result_mirrors_entries (content : string)
    (props : list (string * json)) (entries : list json) (res : Analyzer.TasteAnalysisResult) :
  JSON_parse (jsonContent content) = inr (JObj props) ->
  assoc "categories" props = Some (JArr entries) ->
  parseAnalysisResponse content = Ok res ->
  assoc "analysisSummary" props = Some (JStr (Analyzer.analysisSummary res))
  /\ Forall2 (fun e c =>
                assoc "name" (as_record e) = Some (JStr (name c))
                /\ assoc "description" (as_record e) = Some (JStr (description c))
                /\ (0 <= weight c <= 1)%Q)
             entries (Analyzer.categories res).
Proof.
  intros Hparse Hcats. unfold Analyzer.parseAnalysisResponse.
  rewrite Hparse. simpl. rewrite Hcats. simpl.
  destruct (assoc "analysisSummary" props) as [[| | |summary| |]|]; simpl; try discriminate.
  destruct (Analyzer.mapCategories entries 0) as [cats|] eqn:Hm; [|discriminate].
  intros [= <-]. simpl. split; [reflexivity|].
  pose proof (ParserFacts.normalizeWeights_bounds cats
                (AnalyzerFacts.mapCategories_Ok_inv _ _ _ Hm)) as Hbounds.
  assert (Hboth : Forall2
            (fun e c' => assoc "name" (as_record e) = Some (JStr (name c'))
                         /\ assoc "description" (as_record e)
                            = Some (JStr (description c')))
            entries (Analyzer.normalizeWeights cats)).
  { eapply AnalyzerFacts.Forall2_compose;
      [| exact (ParserFacts.mapCategories_Ok_mirror _ _ _ Hm)
       | exact (AnalyzerFacts.normalizeWeights_keeps cats)].
    intros e c c' (Hwf & Hn & Hd & _) (Hn' & Hd' & _). cbn beta.
    rewrite Hn', Hd', Hn, Hd.
    destruct e as [| | | | |eprops]; try discriminate. simpl in *.
    destruct (assoc "name" eprops) as [[]|]; try discriminate.
    destruct (assoc "weight" eprops) as [[]|]; try discriminate.
    destruct (assoc "description" eprops) as [[]|]; try discriminate.
    auto. }
  eapply Forall2_impl; [exact (ParserFacts.Forall2_with_right _ _ _ _ Hboth Hbounds)|].
  cbn beta. tauto.
Qed.

(** X7. Normalising keeps the order of the weights: of two categories
    of the result, the one whose entry has the smaller clamped weight has
    the smaller weight, or the same. *)
Theorem normalisation_keeps_order (content : string)
    (props : list (string * json)) (entries : list json) (res : Analyzer.TasteAnalysisResult)
    (i j : nat) (ei ej : json) (ci cj : TasteCategory) :
  JSON_parse (jsonContent content) = inr (JObj props) ->
  assoc "categories" props = Some (JArr entries) ->
  parseAnalysisResponse content = Ok res ->
  entries !! i = Some ei -> entries !! j = Some ej ->
  Analyzer.categories res !! i = Some ci -> Analyzer.categories res !! j = Some cj ->
  (clamp01 (Analyzer.as_number (assoc "weight" (as_record ei)))
   <= clamp01 (Analyzer.as_number (assoc "weight" (as_record ej))))%Q ->
  (weight ci <= weight cj)%Q.
Proof.
  intros Hparse Hcats. unfold Analyzer.parseAnalysisResponse.
  rewrite Hparse. simpl. rewrite Hcats. simpl.
  destruct (assoc "analysisSummary" props) as [[| | |summary| |]|]; simpl; try discriminate.
  destruct (Analyzer.mapCategories entries 0) as [cats|] eqn:Hm; [|discriminate].
  intros [= <-] Hei Hej. simpl.
  pose proof (ParserFacts.mapCategories_Ok_mirror _ _ _ Hm) as Hmirror.
  pose proof (AnalyzerFacts.mapCategories_Ok_inv _ _ _ Hm) as Hbounds.
  destruct (Forall2_lookup_l _ _ _ _ _ Hmirror Hei) as (di & Hdi & _ & _ & _ & Hwi).
  destruct (Forall2_lookup_l _ _ _ _ _ Hmirror Hej) as (dj & Hdj & _ & _ & _ & Hwj).
  rewrite <- Hwi, <- Hwj.
  unfold Analyzer.normalizeWeights.
  destruct (Qlt_le_dec 0 (Analyzer.totalWeight cats)) as [Hpos | _].
  - rewrite !list_lookup_fmap, Hdi, Hdj. simpl. intros [= <-] [= <-] Hle. simpl.
    apply Binary64Facts.div_mono; [|exact Hle|].
    + exact (proj1 (Forall_lookup_1 _ _ _ _ Hbounds Hdi)).
    + now rewrite (AnalyzerFacts.totalWeight_fixed cats Hbounds).
  - rewrite Hdi, Hdj. now intros [= <-] [= <-].
Qed.

(** X8. What [parseRecommendationsResponse] returns is never empty, and
    each of its items has a title, a reason and a category that are not
    empty and a confidence score between 0 and 1. *)
Theorem returned_recommendations_are_complete (content : string)
    (res : Recommender.RecommendationsResult) :
  parseRecommendationsResponse content = Ok res ->
  Recommender.recommendations res <> []
  /\ Forall (fun item =>
               Recommender.channelTitle item <> ""
               /\ Recommender.reason item <> ""
               /\ Recommender.category item <> ""
               /\ (0 <= Recommender.confidenceScore item <= 1)%Q)
            (Recommender.recommendations res).
Proof.
  intros Hres. split; [exact (ParserFacts.parseRecommendations_Ok_nonempty _ _ _ Hres)|].
  revert Hres. unfold Recommender.parseRecommendationsResponse.
  destruct (JSON_parse (jsonContent content)) as [e|parsed]; [discriminate|].
  destruct (negb (truthy (Some parsed)) || _); [discriminate|].
  destruct (negb (isArray _)); [discriminate|].
  rewrite RecommenderFacts.collect_keptItems. cbn [app].
  generalize (Recommender.as_array (assoc "recommendations" (as_record parsed))) as entries.
  intros entries.
  destruct (Nat.eqb _ 0) eqn:Hlen; [discriminate|]. intros [= <-]. cbn.
  clear Hlen. induction entries as [|e entries IH]; [constructor|]. cbn.
  destruct (kept e) eqn:Hk.
  - destruct e as [| | | | |eprops]; try discriminate.
    rewrite (RecommenderFacts.processEntry_itemOf eprops Hk). constructor; [|exact IH].
    simpl in Hk. apply andb_prop in Hk as [Ht Hr]. unfold itemOf. cbn.
    destruct (assoc "channelTitle" eprops) as [[| | |t| |]|]; try discriminate.
    destruct (assoc "reason" eprops) as [[| | |r| |]|]; try discriminate.
    simpl in Ht, Hr. cbn.
    repeat split.
    + intros ->. discriminate.
    + intros ->. discriminate.
    + destruct (assoc "category" eprops) as [[| | |c| |]|]; cbn; try discriminate.
      destruct (String.eqb_spec c ""); cbn; [discriminate | assumption].
    + destruct (assoc "confidenceScore" eprops) as [[]|];
        try apply AnalyzerFacts.clamp01_bounds; lra.
    + destruct (assoc "confidenceScore" eprops) as [[]|];
        try apply AnalyzerFacts.clamp01_bounds; lra.
  - now rewrite (RecommenderFacts.processEntry_skipped e Hk).
Qed.

End Parsers.

Lemma analysis_result_mirrors_entries_witness :
  Analyzer.parseAnalysisResponse Json.parse Examples.overweight
  = Server.Ok Examples.overweightResult
  /\ exists props entries,
       Json.parse (Fence.jsonContent Examples.overweight) = inr (Js.JObj props)
       /\ Js.assoc "categories" props = Some (Js.JArr entries)
       /\ Js.assoc "analysisSummary" props = Some (Js.JStr "s")
       /\ Forall2 (fun e c =>
                     Js.assoc "name" (Js.as_record e) = Some (Js.JStr (Server.name c))
                     /\ Js.assoc "description" (Js.as_record e)
                        = Some (Js.JStr (Server.description c))
                     /\ (0 <= Server.weight c <= 1)%Q)
                  entries (Analyzer.categories Examples.overweightResult).
Proof.
  split; [reflexivity|]. eexists _, _.
  split; [reflexivity|]. split; [reflexivity|].
  exact (analysis_result_mirrors_entries Json.parse Examples.overweight _ _
           Examples.overweightResult eq_refl eq_refl eq_refl).
Defined.

Lemma normalisation_keeps_order_witness :
  Analyzer.parseAnalysisResponse Json.parse Examples.overweight
  = Server.Ok Examples.overweightResult
  /\ (3602879701896397 # 18014398509481984 <= 3602879701896397 # 4503599627370496)%Q.
Proof.
  split; [reflexivity|].
  refine (normalisation_keeps_order Json.parse Examples.overweight _ _
            Examples.overweightResult 1 0 _ _ _ _
            eq_refl eq_refl eq_refl eq_refl eq_refl eq_refl eq_refl _).
  vm_compute. discriminate.
Defined.

Lemma returned_recommendations_are_complete_witness :
  exists res,
    Recommender.parseRecommendationsResponse Json.parse Examples.oneKept = Server.Ok res
    /\ Recommender.recommendations res <> []
    /\ Forall (fun item =>
                 Recommender.channelTitle item <> ""
                 /\ Recommender.reason item <> ""
                 /\ Recommender.category item <> ""
                 /\ (0 <= Recommender.confidenceScore item <= 1)%Q)
              (Recommender.recommendations res).
Proof.
  eexists. split; [reflexivity|].
  exact (returned_recommendations_are_complete Json.parse Examples.oneKept _ eq_refl).
Defined.

(** ** The prompt of the recommender *)

Section RecommenderPrompts.
Import Js Server Recommender.

(** X9. [formatExclusions] names the first [maxItems] subscriptions only,
    and answers [None] for an empty list alone: with a limit of 0 a
    non-empty list gives the empty text. *)
Theorem formatExclusions_cap (subscriptions extra : list string) (maxItems : nat) :
  subscriptions <> [] ->
  (maxItems <= length subscriptions)%nat ->
  formatExclusions (subscriptions ++ extra) maxItems
  = join ", " (firstn maxItems subscriptions)
  /\ formatExclusions (subscriptions ++ extra) 0 = ""
  /\ formatExclusions [] maxItems = "None".
Proof.
  intros Hne Hn. unfold formatExclusions.
  destruct subscriptions as [|s rest]; [congruence|].
  cbn [app length Nat.eqb]. split; [|split; reflexivity]. f_equal.
  change (s :: (rest ++ extra)%list) with ((s :: rest) ++ extra)%list.
  now apply PromptFacts.firstn_app_within.
Qed.

Lemma formatExclusions_cap_witness :
  formatExclusions (["a"; "b"] ++ ["c"]) 2 = "a, b"
  /\ formatExclusions (["a"; "b"] ++ ["c"]) 0 = ""
  /\ formatExclusions [] 2 = "None".
Proof.
  destruct (formatExclusions_cap ["a"; "b"] ["c"] 2) as (Hcap & Hzero & Hnone).
  - discriminate.
  - apply le_n.
  - split; [|split; [exact Hzero | exact Hnone]].
    transitivity (join ", " (firstn 2 ["a"; "b"])); [exact Hcap | reflexivity].
Defined.

(** X10. Formatting the same array of categories again gives the same
    text and leaves the server as the first call left it: the array is
    sorted once. *)
Theorem formatCategories_twice (categories : loc) (w : world) :
  formatCategories categories (snd (formatCategories categories w))
  = formatCategories categories w.
Proof.
  rewrite !SortFacts.formatCategories_run. cbn [snd set_heap heap].
  rewrite lookup_total_insert_eq, RecommenderPromptFacts.sort_idempotent.
  f_equal. unfold set_heap. cbn. f_equal. apply insert_insert_eq.
Qed.

End RecommenderPrompts.

(** ** The LLM service *)

Section Service.
Import Js Server LlmClient.
Variable fetch : FetchRequest -> result thrown HttpResponse.

(** X11. With a provider that has a token, [complete] sends exactly one
    request, whatever the endpoint answers and whether the call returns
    or throws; beyond this request and the provider it keeps, it changes
    nothing on the server. *)
Theorem complete_sends_one_request (messages : list LLMMessage)
    (options : LLMCompletionOptions) (w w1 : world) (p : GitHubModelsProvider) :
  Llm.getLLMProvider w = (Ok p, w1) ->
  Llm.isConfigured p = true ->
  snd (Llm.complete fetch messages options w)
  = log_request (requestOf p messages options) w1
  /\ network (snd (Llm.complete fetch messages options w))
     = (network w ++ [requestOf p messages options])%list
  /\ authorization (requestOf p messages options) = "Bearer " ++ token p.
Proof.
  intros Hprovider Hconf.
  rewrite (LlmFacts.complete_run fetch messages options w w1 p Hprovider).
  rewrite (LlmFacts.provider_complete_run fetch p messages options w1 Hconf).
  split; [reflexivity|]. split; [|reflexivity].
  cbn [network log_request].
  pose proof (LlmFacts.getLLMProvider_frame w) as [Hnet _].
  rewrite Hprovider in Hnet. cbn in Hnet. now rewrite Hnet.
Qed.

(** X12. When the endpoint answers [ok] with a body that decodes,
    [complete] returns the content of the first choice, the usage as
    given, and the model of the reply or else the provider's; without a
    first choice it throws. *)
Theorem complete_returns_first_choice (messages : list LLMMessage)
    (options : LLMCompletionOptions) (w w1 : world) (p : GitHubModelsProvider)
    (response : HttpResponse) (data : GitHubModelsResponse) :
  Llm.getLLMProvider w = (Ok p, w1) ->
  Llm.isConfigured p = true ->
  fetch (requestOf p messages options) = Ok response ->
  ok response = true ->
  json_body response = Ok data ->
  Llm.complete fetch messages options w
  = (match choices data with
     | None | Some [] => Throw (ThrownError "GitHub Models API returned no choices")
     | Some (None :: _) => Throw (ThrownError "GitHub Models API returned empty choice")
     | Some (Some choice :: _) =>
         Ok {| response_content := message_content choice;
               response_usage := usage data;
               response_model := Llm.default (data_model data) (model p) |}
     end,
     log_request (requestOf p messages options) w1).
Proof.
  intros Hprovider Hconf Hfetch Hok Hjson.
  pose proof (LlmFacts.provider_complete_ok fetch p messages options w1 response data
                Hconf Hfetch Hok Hjson) as Hfst.
  pose proof (LlmFacts.provider_complete_run fetch p messages options w1 Hconf) as Hsnd.
  rewrite (LlmFacts.complete_run fetch messages options w w1 p Hprovider).
  destruct (Llm.provider_complete fetch p messages options w1) as [r w2].
  cbn [fst snd] in *. now subst r w2.
Qed.

End Service.

Lemma complete_sends_one_request_witness :
  exists request,
    Server.network
      (snd (Llm.complete Examples.failingEndpoint [] LlmClient.noOptions Examples.server))
    = [request]
    /\ Server.authorization request = "Bearer t"
    /\ Server.body_temperature (Server.body request) = (7 # 10)%Q
    /\ Server.body_max_tokens (Server.body request) = 4000%nat.
Proof.
  destruct (complete_sends_one_request Examples.failingEndpoint [] LlmClient.noOptions
              Examples.server Scenarios.ready Scenarios.provider eq_refl eq_refl)
    as (_ & Hnet & _).
  eexists. split; [exact Hnet|]. repeat split.
Defined.

Lemma complete_returns_first_choice_witness :
  Llm.complete (Scenarios.answering "hello") [] LlmClient.noOptions Examples.server
  = (Server.Ok {| Server.response_content := "hello";
                  Server.response_usage := None;
                  Server.response_model := "openai/gpt-4o" |},
     Server.log_request (LlmClient.requestOf Scenarios.provider [] LlmClient.noOptions)
       Scenarios.ready).
Proof.
  exact (complete_returns_first_choice (Scenarios.answering "hello") []
           LlmClient.noOptions Examples.server Scenarios.ready Scenarios.provider
           _ _ eq_refl eq_refl eq_refl eq_refl eq_refl).
Defined.

Section Provider.
Import Js Server LlmClient.

(** X13. Once a provider is found it is kept: later calls return the same
    provider, with the token and the model it was built with, whatever
    the environment has become. *)
Theorem provider_cache_outlives_environment (w w1 : world) (p : GitHubModelsProvider)
    (e : gmap string string) :
  Llm.getLLMProvider w = (Ok p, w1) ->
  Llm.getLLMProvider (set_env e w1) = (Ok p, set_env e w1).
Proof.
  intros Hprovider.
  assert (Hcached : cachedProvider w1 = Some p).
  { destruct (LlmFacts.getLLMProvider_cases w)
      as [(p' & Hc & H) | [(tok & _ & _ & _ & H) | (_ & _ & m & H)]];
      rewrite H in Hprovider; try discriminate; injection Hprovider as <- <-;
      [assumption | reflexivity]. }
  unfold Llm.getLLMProvider, bind, gets. cbn [set_env cachedProvider].
  now rewrite Hcached.
Qed.

(** X14. [isLLMConfigured] never throws and sends nothing. It answers
    [true] exactly when a provider is kept already or the environment has
    a token that is not empty, and then a provider is kept afterwards;
    when it answers [false] the server is as before. *)
Theorem isLLMConfigured_never_throws (w : world) :
  exists (b : bool) (w' : world),
    Llm.isLLMConfigured w = (Ok b, w')
    /\ network w' = network w /\ heap w' = heap w /\ env w' = env w
    /\ (b = true <->
        (exists p, cachedProvider w = Some p)
        \/ (exists tok, env w !! "GITHUB_TOKEN" = Some tok /\ tok <> ""))
    /\ (b = true -> exists p, Llm.getLLMProvider w' = (Ok p, w'))
    /\ (b = false -> w' = w).
Proof.
  unfold Llm.isLLMConfigured, try_catch, bind.
  destruct (LlmFacts.getLLMProvider_cases w)
    as [(p & Hc & H) | [(tok & Hc & Htok & Hne & H) | (Hc & Htok & m & H)]]; rewrite H.
  - exists true, w. repeat split; try reflexivity; try discriminate.
    + intros _. left. now exists p.
    + intros _. now exists p.
  - eexists true, _. split; [reflexivity|]. repeat split; try discriminate.
    + intros _. right. now exists tok.
    + intros _. eexists. eapply ServerFacts.getLLMProvider_cached. exact H.
  - exists false, w. repeat split; try reflexivity; try discriminate.
    intros [(p & Hp) | (tok & Ht & Hne)]; [congruence|].
    destruct Htok as [Hn | He]; rewrite Ht in *; congruence.
Qed.

(** X15. The status route never throws and sends nothing. With a provider
    it reports the provider [github] and the provider's model; without
    one it reports that none is configured and leaves the server as it
    was. *)
Theorem statusHandler_never_throws (w : world) :
  exists (r : StatusResponse) (w' : world),
    statusHandler w = (Ok r, w')
    /\ network w' = network w /\ heap w' = heap w
    /\ match fst (Llm.getLLMProvider w) with
       | Ok p =>
           r = {| configured := true; provider := Some "github";
                  status_model := Some (model p);
                  status_message := "LLM ready with github provider" |}
       | Throw _ =>
           r = {| configured := false; provider := None; status_model := None;
                  status_message :=
                    "No LLM provider configured. Set GITHUB_TOKEN environment variable." |}
           /\ w' = w
       end.
Proof.
  unfold statusHandler, bind at 1.
  destruct (LlmFacts.isLLMConfigured_run w)
    as [(p & w' & -> & Hprovider & Hagain & Hnet & Hheap & _) | (-> & Hc & Htok)].
  - cbn [negb]. unfold bind. rewrite Hagain, Hprovider. cbn [fst ret].
    eexists _, w'. repeat split; assumption.
  - cbn [negb ret].
    destruct (LlmFacts.getLLMProvider_cases w)
      as [(p & Hc' & H) | [(tok & _ & Htok' & Hne & H) | (_ & _ & m & H)]].
    + congruence.
    + destruct Htok as [Hn | He]; rewrite Htok' in *; congruence.
    + rewrite H. cbn [fst]. eexists _, w. repeat split.
Qed.

End Provider.

Lemma provider_cache_outlives_environment_witness :
  Llm.getLLMProvider (LlmClient.set_env ∅ Scenarios.ready)
  = (Server.Ok Scenarios.provider, LlmClient.set_env ∅ Scenarios.ready)
  /\ Server.env (LlmClient.set_env ∅ Scenarios.ready) !! "GITHUB_TOKEN" = None.
Proof.
  split; [|reflexivity].
  exact (provider_cache_outlives_environment Examples.server Scenarios.ready
           Scenarios.provider ∅ eq_refl).
Defined.

(** ** The two orchestrators *)

Section Orchestration.
Import Js Server LlmClient.
Variable JSON_parse : string -> string + json.
Variable fetch : FetchRequest -> result thrown HttpResponse.
Variable SYSTEM_PROMPT : string.

(** X16. With data, a provider and an endpoint that answers, [analyzeTaste]
    sends one request, of temperature 0.7 and at most 2000 tokens, whose
    messages are the system prompt and the prompt built from the input;
    it returns what [parseAnalysisResponse] makes of the first choice, and
    throws the parser's message when the parser fails. *)
Theorem analyzeTaste_composes
    (USER_PROMPT_TEMPLATE : string -> string -> string -> string -> string)
    (input : Analyzer.TasteAnalysisInput) (w w1 : world)
    (p : GitHubModelsProvider) (response : HttpResponse) (data : GitHubModelsResponse)
    (choice : GitHubModelsChoice) (rest : list (option GitHubModelsChoice)) :
  Analyzer.subscriptions input <> [] \/ Analyzer.likedVideos input <> [] ->
  Llm.getLLMProvider w = (Ok p, w1) ->
  Llm.isConfigured p = true ->
  (forall request, fetch request = Ok response) ->
  ok response = true ->
  json_body response = Ok data ->
  choices data = Some (Some choice :: rest) ->
  exists request,
    Analyzer.analyzeTaste JSON_parse fetch SYSTEM_PROMPT USER_PROMPT_TEMPLATE input w
    = (match Analyzer.parseAnalysisResponse JSON_parse (message_content choice) with
       | Ok result => Ok result
       | Throw f => Throw (ThrownError (Analyzer.message f))
       end, log_request request w1)
    /\ url request = Llm.GITHUB_MODELS_API_URL
    /\ body_model (body request) = model p
    /\ body_temperature (body request) = (7 # 10)%Q
    /\ body_max_tokens (body request) = 2000%nat
    /\ body_messages (body request)
       = [ {| role := system; content := SYSTEM_PROMPT |};
           {| role := user;
              content := Analyzer.buildAnalysisPrompt USER_PROMPT_TEMPLATE input |} ].
Proof.
  intros Hdata Hprovider Hconf Hfetch Hok Hjson Hchoices.
  rewrite (RouteFacts.analyzeTaste_run _ _ _ _ _ _ Hdata). unfold bind.
  match goal with |- context [Llm.complete fetch ?m ?o w] =>
    rewrite (LlmFacts.complete_run fetch m o w w1 p Hprovider);
    pose proof (LlmFacts.provider_complete_ok fetch p m o w1 response data
                  Hconf (Hfetch _) Hok Hjson) as Hfst;
    pose proof (LlmFacts.provider_complete_run fetch p m o w1 Hconf) as Hsnd;
    exists (requestOf p m o);
    destruct (Llm.provider_complete fetch p m o w1) as [r w2]
  end.
  cbn [fst snd] in Hfst, Hsnd. rewrite Hchoices in Hfst. subst r w2.
  cbn [response_content]. split; [|repeat split].
  destruct (Analyzer.parseAnalysisResponse JSON_parse (message_content choice));
    reflexivity.
Qed.

(** X17. With a profile that has categories, a provider and an endpoint
    that answers, [generateRecommendations] sends one request, of
    temperature 0.8 and at most 3000 tokens, whose user message is the
    template filled with the summary, the lines of the categories sorted
    by weight, and the first 100 subscriptions; it returns what
    [parseRecommendationsResponse] makes of the first choice. *)
Theorem generateRecommendations_composes
    (USER_PROMPT_TEMPLATE : string -> string -> string -> string)
    (input : Recommender.RecommendationsInput) (w w1 : world)
    (p : GitHubModelsProvider) (response : HttpResponse) (data : GitHubModelsResponse)
    (choice : GitHubModelsChoice) (rest : list (option GitHubModelsChoice)) :
  heap w !!! Recommender.categories (Recommender.tasteProfile input) <> [] ->
  Llm.getLLMProvider w = (Ok p, w1) ->
  Llm.isConfigured p = true ->
  (forall request, fetch request = Ok response) ->
  ok response = true ->
  json_body response = Ok data ->
  choices data = Some (Some choice :: rest) ->
  exists request w',
    Recommender.generateRecommendations JSON_parse fetch SYSTEM_PROMPT
      USER_PROMPT_TEMPLATE input w
    = (match Recommender.parseRecommendationsResponse JSON_parse
               (message_content choice) with
       | Ok result => Ok result
       | Throw f => Throw (ThrownError (Recommender.message f))
       end, w')
    /\ network w' = (network w ++ [request])%list
    /\ url request = Llm.GITHUB_MODELS_API_URL
    /\ body_temperature (body request) = (8 # 10)%Q
    /\ body_max_tokens (body request) = 3000%nat
    /\ body_messages (body request)
       = [ {| role := system; content := SYSTEM_PROMPT |};
           {| role := user;
              content :=
                USER_PROMPT_TEMPLATE
                  (Recommender.analysisSummary (Recommender.tasteProfile input))
                  (join nl
                     (map Recommender.formatCategory
                        (Recommender.sort Recommender.byWeightDescending
                           (heap w !!! Recommender.categories
                                         (Recommender.tasteProfile input)))))
                  (Recommender.formatExclusions
                     (Recommender.existingSubscriptions input) 100) |} ].
Proof.
  intros Hitems Hprovider Hconf Hfetch Hok Hjson Hchoices.
  unfold Recommender.generateRecommendations, bind at 1, gets.
  destruct (heap w !!! Recommender.categories (Recommender.tasteProfile input))
    as [|c cs] eqn:Hheap; [congruence|].
  cbn [length Nat.eqb]. unfold bind at 1, Recommender.buildPrompt, bind at 1.
  rewrite SortFacts.formatCategories_run, Hheap. cbn [ret].
  set (w0 := set_heap _ w).
  assert (Hprovider0 : Llm.getLLMProvider w0 = (Ok p, set_heap (heap w0) w1)).
  { subst w0. rewrite LlmFacts.getLLMProvider_set_heap, Hprovider. reflexivity. }
  unfold bind at 1.
  match goal with |- context [Llm.complete fetch ?m ?o w0] =>
    rewrite (LlmFacts.complete_run fetch m o w0 _ p Hprovider0);
    pose proof (LlmFacts.provider_complete_ok fetch p m o (set_heap (heap w0) w1)
                  response data Hconf (Hfetch _) Hok Hjson) as Hfst;
    pose proof (LlmFacts.provider_complete_run fetch p m o (set_heap (heap w0) w1) Hconf)
      as Hsnd;
    exists (requestOf p m o);
    destruct (Llm.provider_complete fetch p m o (set_heap (heap w0) w1)) as [r w2]
  end.
  cbn [fst snd] in Hfst, Hsnd. rewrite Hchoices in Hfst. subst r w2.
  cbn [response_content]. eexists. split.
  - destruct (Recommender.parseRecommendationsResponse JSON_parse (message_content choice));
      reflexivity.
  - pose proof (LlmFacts.getLLMProvider_frame w) as [Hnet _].
    rewrite Hprovider in Hnet. cbn in Hnet.
    destruct (Recommender.parseRecommendationsResponse JSON_parse (message_content choice));
      cbn; rewrite Hnet; repeat split.
Qed.

End Orchestration.

Lemma analyzeTaste_composes_witness :
  exists request,
    Analyzer.analyzeTaste Json.parse (Scenarios.answering Examples.emptyCategories)
      "system" (fun _ _ _ _ => "user")
      {| Analyzer.subscriptions := Examples.oneSubscription; Analyzer.likedVideos := [] |}
      Examples.server
    = (Server.Ok {| Analyzer.categories := []; Analyzer.analysisSummary := "s" |},
       Server.log_request request Scenarios.ready)
    /\ Server.body_temperature (Server.body request) = (7 # 10)%Q
    /\ Server.body_max_tokens (Server.body request) = 2000%nat
    /\ Server.body_messages (Server.body request)
       = [ {| Server.role := Server.system; Server.content := "system" |};
           {| Server.role := Server.user; Server.content := "user" |} ].
Proof.
  destruct (analyzeTaste_composes Json.parse (Scenarios.answering Examples.emptyCategories)
              "system" (fun _ _ _ _ => "user")
              {| Analyzer.subscriptions := Examples.oneSubscription;
                 Analyzer.likedVideos := [] |}
              Examples.server Scenarios.ready Scenarios.provider _ _ _ []
              ltac:(left; discriminate)
              eq_refl eq_refl (fun _ => eq_refl) eq_refl eq_refl eq_refl)
    as (request & Hrun & _ & _ & Htemperature & Htokens & Hmessages).
  exists request. split; [|split; [|split]]; assumption.
Defined.

Lemma generateRecommendations_composes_witness :
  exists request w',
    Recommender.generateRecommendations Json.parse (Scenarios.answering Examples.oneKept)
      "system" (fun _ categoriesText _ => categoriesText)
      {| Recommender.tasteProfile := Scenarios.profile;
         Recommender.existingSubscriptions := [] |}
      Examples.server
    = (Server.Ok {| Recommender.recommendations :=
          [ {| Recommender.type := Recommender.hidden_gem;
               Recommender.channelTitle := "B";
               Recommender.channelId := Some "UC1";
               Recommender.reason := "why";
               Recommender.category := "Tech";
               Recommender.confidenceScore := Js.clamp01 (3 # 2);
               Recommender.subscriberCount := Some 1000%Q |} ] |}, w')
    /\ Server.network w' = [request]
    /\ Server.body_temperature (Server.body request) = (8 # 10)%Q
    /\ Server.body_max_tokens (Server.body request) = 3000%nat.
Proof.
  destruct (generateRecommendations_composes Json.parse
              (Scenarios.answering Examples.oneKept)
              "system" (fun _ categoriesText _ => categoriesText)
              {| Recommender.tasteProfile := Scenarios.profile;
                 Recommender.existingSubscriptions := [] |}
              Examples.server Scenarios.ready Scenarios.provider _ _ _ []
              ltac:(vm_compute; discriminate)
              eq_refl eq_refl (fun _ => eq_refl) eq_refl eq_refl eq_refl)
    as (request & w' & Hrun & Hnet & _ & Htemperature & Htokens & _).
  exists request, w'. split; [|split; [|split]]; assumption.
Defined.

(** ** The two POST routes *)

Section Routes.
Import Js Server LlmClient.
Variable JSON_parse : string -> string + json.
Variable fetch : FetchRequest -> result thrown HttpResponse.
(** The prompts of the analyzer and of the recommender. *)
Variable ANALYZER_SYSTEM_PROMPT : string.
Variable ANALYZER_TEMPLATE : string -> string -> string -> string -> string.
Variable RECOMMENDER_SYSTEM_PROMPT : string.
Variable RECOMMENDER_TEMPLATE : string -> string -> string -> string.
Variable db_replace_profile : Analyzer.TasteAnalysisResult -> result thrown (option nat).
Variable db_replace_recommendations :
  list RecommendationsRoute.NewRow -> result thrown (list RecommendationsRoute.Row).

#[local] Abbreviation analyze :=
  (AnalyzeRoute.handler JSON_parse fetch ANALYZER_SYSTEM_PROMPT ANALYZER_TEMPLATE
     db_replace_profile).
#[local] Abbreviation recommend :=
  (RecommendationsRoute.handler JSON_parse fetch RECOMMENDER_SYSTEM_PROMPT
     RECOMMENDER_TEMPLATE db_replace_recommendations).

(** X18. Whatever fails in POST /api/analyze or in POST
    /api/recommendations, what reaches the client has a status code: an
    [Error] thrown by the services or by the database is never passed on
    as it is. *)
Theorem route_failures_carry_status (userSubscriptions : list Analyzer.ChannelData)
    (userLikedVideos : list Analyzer.VideoData)
    (tasteProfile : option Recommender.TasteProfileInput)
    (existingChannels : list string) (w : world) :
  match fst (analyze userSubscriptions userLikedVideos w) with
  | Throw e => AnalyzeRoute.has_statusCode e = true
  | Ok _ => True
  end
  /\ match fst (recommend tasteProfile existingChannels w) with
     | Throw e => AnalyzeRoute.has_statusCode e = true
     | Ok _ => True
     end.
Proof.
  unfold AnalyzeRoute.handler, RecommendationsRoute.handler, bind at 1 3.
  destruct (LlmFacts.isLLMConfigured_run w)
    as [(p & w1 & -> & _) | (-> & _)]; cbn [negb]; [|split; reflexivity].
  unfold try_catch. split.
  - match goal with |- context [match ?m w1 with _ => _ end] =>
      destruct (m w1) as [[r|e] w2] end; [exact I|].
    destruct (@RouteFacts.analyze_catch_block_status AnalyzeRoute.AnalyzeResponse e w2)
      as (e' & -> & Hcode). exact Hcode.
  - match goal with |- context [match ?m w1 with _ => _ end] =>
      destruct (m w1) as [[r|e] w2] end; [exact I|].
    destruct (@RouteFacts.recommendations_catch_block_status
                RecommendationsRoute.RecommendationsResponse e w2)
      as (e' & -> & Hcode). exact Hcode.
Qed.

(** X19. Without a provider kept and without a token that is not empty,
    both routes answer 503 before reading anything, and leave the server
    as it was. *)
Theorem routes_refuse_without_provider (userSubscriptions : list Analyzer.ChannelData)
    (userLikedVideos : list Analyzer.VideoData)
    (tasteProfile : option Recommender.TasteProfileInput)
    (existingChannels : list string) (w : world) :
  cachedProvider w = None ->
  env w !! "GITHUB_TOKEN" = None \/ env w !! "GITHUB_TOKEN" = Some "" ->
  analyze userSubscriptions userLikedVideos w
  = (Throw (ThrownHttp 503
       "LLM service is not configured. Please set GITHUB_TOKEN environment variable."), w)
  /\ recommend tasteProfile existingChannels w
     = (Throw (ThrownHttp 503
          "LLM service is not configured. Please set GITHUB_TOKEN environment variable."),
        w).
Proof.
  intros Hcached Htoken.
  unfold AnalyzeRoute.handler, RecommendationsRoute.handler, bind at 1 3.
  destruct (LlmFacts.isLLMConfigured_run w)
    as [(p & w1 & _ & Hprovider & _) | (-> & _)]; [|split; reflexivity].
  exfalso.
  destruct (LlmFacts.getLLMProvider_cases w)
    as [(p' & Hc & _) | [(tok & _ & Htok & Hne & _) | (_ & _ & m & H)]].
  - congruence.
  - destruct Htoken as [Hn | He]; rewrite Htok in *; congruence.
  - rewrite H in Hprovider. discriminate.
Qed.

(** X20. With a provider but nothing to work on, neither route sends a
    request. POST /api/analyze answers 400 when the user has neither
    subscriptions nor liked videos. POST /api/recommendations answers 400
    when there is no taste profile, and 500 when the profile has no
    category; the array of the profile is left as it was. *)
Theorem routes_without_data_send_nothing
    (tasteProfile : option Recommender.TasteProfileInput)
    (existingChannels : list string) (w : world) :
  fst (Llm.isLLMConfigured w) = Ok true ->
  match tasteProfile with
  | Some profile => heap w !!! Recommender.categories profile = []
  | None => True
  end ->
  fst (analyze [] [] w)
  = Throw (ThrownHttp 400 "No YouTube data found. Please sync your YouTube data first.")
  /\ fst (recommend tasteProfile existingChannels w)
     = Throw (match tasteProfile with
              | None =>
                  ThrownHttp 400 "No taste profile found. Please analyze your tastes first."
              | Some _ =>
                  ThrownHttp 500
                    "No taste profile available. Please analyze your tastes first."
              end)
  /\ network (snd (analyze [] [] w)) = network w
  /\ network (snd (recommend tasteProfile existingChannels w)) = network w
  /\ heap (snd (recommend tasteProfile existingChannels w)) = heap w.
Proof.
  intros Hconfigured Hprofile.
  destruct (LlmFacts.isLLMConfigured_run w)
    as [(p & w1 & Hrun & _ & _ & Hnet & Hheap & _) | (Hrun & _)];
    rewrite Hrun in Hconfigured; [|discriminate].
  assert (Hanalyze : analyze [] [] w
            = (Throw (ThrownHttp 400
                 "No YouTube data found. Please sync your YouTube data first."), w1)).
  { unfold AnalyzeRoute.handler, bind at 1. rewrite Hrun. reflexivity. }
  assert (Hrecommend : recommend tasteProfile existingChannels w
            = (Throw (match tasteProfile with
                      | None =>
                          ThrownHttp 400
                            "No taste profile found. Please analyze your tastes first."
                      | Some _ =>
                          ThrownHttp 500
                            "No taste profile available. Please analyze your tastes first."
                      end), w1)).
  { unfold RecommendationsRoute.handler, bind at 1. rewrite Hrun. cbn [negb].
    unfold try_catch. destruct tasteProfile as [profile|]; [|reflexivity].
    unfold bind, Recommender.generateRecommendations, bind, gets.
    cbn [Recommender.tasteProfile Recommender.categories].
    rewrite Hheap, Hprofile. reflexivity. }
  rewrite Hanalyze, Hrecommend. cbn [fst snd]. auto.
Qed.

(** X21. A reply of POST /api/analyze means that the user had data, that
    exactly one request went to the provider, with the prompt built from
    the user's rows, that the parser accepted the first choice of the
    reply, and that the database stored the result under the id given
    back; the message states the numbers of rows. *)
Theorem analyze_success_saved_after_one_request
    (userSubscriptions : list Analyzer.ChannelData)
    (userLikedVideos : list Analyzer.VideoData)
    (w w' : world) (r : AnalyzeRoute.AnalyzeResponse) :
  analyze userSubscriptions userLikedVideos w = (Ok r, w') ->
  (userSubscriptions <> [] \/ userLikedVideos <> [])
  /\ exists result request response data choice rest,
       network w' = (network w ++ [request])%list
       /\ body_messages (body request)
          = [ {| role := system; content := ANALYZER_SYSTEM_PROMPT |};
              {| role := user;
                 content :=
                   Analyzer.buildAnalysisPrompt ANALYZER_TEMPLATE
                     {| Analyzer.subscriptions := userSubscriptions;
                        Analyzer.likedVideos := userLikedVideos |} |} ]
       /\ fetch request = Ok response
       /\ json_body response = Ok data
       /\ choices data = Some (Some choice :: rest)
       /\ Analyzer.parseAnalysisResponse JSON_parse (message_content choice) = Ok result
       /\ db_replace_profile result = Ok (Some (AnalyzeRoute.profile_id r))
       /\ AnalyzeRoute.response_message r
          = "Analyzed " ++ string_of_nat (length userSubscriptions)
            ++ " subscriptions and " ++ string_of_nat (length userLikedVideos)
            ++ " liked videos".
Proof.
  unfold AnalyzeRoute.handler, bind at 1.
  destruct (LlmFacts.isLLMConfigured_run w)
    as [(p & w1 & -> & _ & Hprovider & Hnet & _) | (-> & _)]; cbn [negb];
    [|discriminate].
  unfold try_catch.
  destruct (Nat.eqb (length userSubscriptions) 0 && Nat.eqb (length userLikedVideos) 0)
    eqn:Hempty.
  { cbn [throw]. intros Hcatch.
    destruct (@RouteFacts.analyze_catch_block_status AnalyzeRoute.AnalyzeResponse
                (ThrownHttp 400 "No YouTube data found. Please sync your YouTube data first.")
                w1) as (e' & He' & _).
    rewrite He' in Hcatch. discriminate. }
  unfold bind.
  destruct (Analyzer.analyzeTaste _ _ _ _ _ w1) as [[result|e] w2] eqn:Hanalyze.
  - destruct (RouteFacts.analyzeTaste_Ok_inv _ _ _ _ _ _ _ _ Hanalyze)
      as (Hdata & p' & w1' & response & data & choice & rest
          & Hprovider' & -> & Hfetch & Hjson & Hchoices & Hparse).
    rewrite Hprovider in Hprovider'. injection Hprovider' as <- <-.
    destruct (db_replace_profile result) as [[id|]|e] eqn:Hdb.
    + cbn [ret]. intros [= <- <-]. split; [exact Hdata|].
      eexists result, _, response, data, choice, rest.
      split; [cbn [network log_request]; now rewrite Hnet|].
      split; [reflexivity|]. split; [exact Hfetch|]. auto.
    + cbn [throw]. intros Hcatch.
      destruct (@RouteFacts.analyze_catch_block_status AnalyzeRoute.AnalyzeResponse
                  (ThrownError "Failed to save taste profile") (log_request
                     (requestOf p
                        [ {| role := system; content := ANALYZER_SYSTEM_PROMPT |};
                          {| role := user;
                             content :=
                               Analyzer.buildAnalysisPrompt ANALYZER_TEMPLATE
                                 {| Analyzer.subscriptions := userSubscriptions;
                                    Analyzer.likedVideos := userLikedVideos |} |} ]
                        {| temperature := Some (7 # 10)%Q; maxTokens := Some 2000%nat;
                           topP := None; stop := None |}) w1))
        as (e' & He' & _).
      rewrite He' in Hcatch. discriminate.
    + cbn [throw]. intros Hcatch.
      match type of Hcatch with AnalyzeRoute.catch_block ?x ?y = _ =>
        destruct (@RouteFacts.analyze_catch_block_status AnalyzeRoute.AnalyzeResponse x y)
          as (e' & He' & _) end.
      rewrite He' in Hcatch. discriminate.
  - intros Hcatch.
    destruct (@RouteFacts.analyze_catch_block_status AnalyzeRoute.AnalyzeResponse e w2)
      as (e' & He' & _).
    rewrite He' in Hcatch. discriminate.
Qed.

(** X22. A reply of POST /api/recommendations means that there was a
    taste profile with categories and that exactly one request went to
    the provider. The three counts add up to the number in the message,
    which is the number of recommendations generated and is not 0; the
    recommendations listed are the rows the database gave back. *)
Theorem recommendations_success_counts
    (tasteProfile : option Recommender.TasteProfileInput)
    (existingChannels : list string) (w w' : world)
    (r : RecommendationsRoute.RecommendationsResponse) :
  recommend tasteProfile existingChannels w = (Ok r, w') ->
  exists profile result rows request total,
    tasteProfile = Some profile
    /\ heap w !!! Recommender.categories profile <> []
    /\ network w' = (network w ++ [request])%list
    /\ total = length (Recommender.recommendations result)
    /\ (0 < total)%nat
    /\ (RecommendationsRoute.count_channel (RecommendationsRoute.counts r)
        + RecommendationsRoute.count_hidden_gem (RecommendationsRoute.counts r)
        + RecommendationsRoute.count_content_gap (RecommendationsRoute.counts r))%nat
       = total
    /\ RecommendationsRoute.response_message r
       = "Generated " ++ string_of_nat total ++ " personalized recommendations"
    /\ db_replace_recommendations
         (map RecommendationsRoute.toNewRow (Recommender.recommendations result))
       = Ok rows
    /\ RecommendationsRoute.response_recommendations r
       = map RecommendationsRoute.toResponseItem rows.
Proof.
  unfold RecommendationsRoute.handler, bind at 1.
  destruct (LlmFacts.isLLMConfigured_run w)
    as [(p & w1 & -> & _ & Hprovider & Hnet & Hheap & _) | (-> & _)]; cbn [negb];
    [|discriminate].
  unfold try_catch.
  destruct tasteProfile as [profile|].
  2:{ cbn [throw]. intros Hcatch.
      match type of Hcatch with RecommendationsRoute.catch_block ?x ?y = _ =>
        destruct (@RouteFacts.recommendations_catch_block_status
                    RecommendationsRoute.RecommendationsResponse x y)
          as (e' & He' & _) end.
      rewrite He' in Hcatch. discriminate. }
  unfold bind.
  destruct (Recommender.generateRecommendations _ _ _ _ _ w1)
    as [[result|e] w2] eqn:Hgenerate.
  - destruct (RouteFacts.generateRecommendations_Ok_inv _ _ _ _ _ _ _ _ Hgenerate)
      as (Hitems & p' & request & choice & _ & Hnet' & _ & Hparse).
    cbn [Recommender.tasteProfile Recommender.categories] in Hitems.
    destruct (db_replace_recommendations _) as [rows|e] eqn:Hdb.
    + cbn [ret]. intros [= <- <-].
      exists profile, result, rows, request, (length (Recommender.recommendations result)).
      cbn [RecommendationsRoute.counts RecommendationsRoute.count_channel
           RecommendationsRoute.count_hidden_gem RecommendationsRoute.count_content_gap
           RecommendationsRoute.response_message
           RecommendationsRoute.response_recommendations].
      split; [reflexivity|]. split; [now rewrite <- Hheap|].
      split; [now rewrite Hnet', Hnet|]. split; [reflexivity|].
      split.
      { pose proof (ParserFacts.parseRecommendations_Ok_nonempty _ _ _ Hparse) as Hne.
        destruct (Recommender.recommendations result); [congruence | simpl; lia]. }
      split; [apply RouteFacts.countOf_sum|]. split; [reflexivity|].
      split; [exact Hdb | reflexivity].
    + cbn [throw]. intros Hcatch.
      match type of Hcatch with RecommendationsRoute.catch_block ?x ?y = _ =>
        destruct (@RouteFacts.recommendations_catch_block_status
                    RecommendationsRoute.RecommendationsResponse x y)
          as (e' & He' & _) end.
      rewrite He' in Hcatch. discriminate.
  - intros Hcatch.
    destruct (@RouteFacts.recommendations_catch_block_status
                RecommendationsRoute.RecommendationsResponse e w2)
      as (e' & He' & _).
    rewrite He' in Hcatch. discriminate.
Qed.

End Routes.

Lemma routes_refuse_without_provider_witness :
  AnalyzeRoute.handler Json.parse Examples.failingEndpoint "" (fun _ _ _ _ => "")
    Scenarios.storeProfile Examples.oneSubscription [] Scenarios.unconfigured
  = (Server.Throw (Server.ThrownHttp 503
       "LLM service is not configured. Please set GITHUB_TOKEN environment variable."),
     Scenarios.unconfigured)
  /\ RecommendationsRoute.handler Json.parse Examples.failingEndpoint ""
       (fun _ _ _ => "") Scenarios.insertRows (Some Scenarios.profile) []
       Scenarios.unconfigured
     = (Server.Throw (Server.ThrownHttp 503
          "LLM service is not configured. Please set GITHUB_TOKEN environment variable."),
        Scenarios.unconfigured).
Proof.
  apply (routes_refuse_without_provider Json.parse Examples.failingEndpoint
           "" (fun _ _ _ _ => "") "" (fun _ _ _ => "")
           Scenarios.storeProfile Scenarios.insertRows
           Examples.oneSubscription [] (Some Scenarios.profile) []
           Scenarios.unconfigured).
  - reflexivity.
  - left. reflexivity.
Defined.

Lemma routes_without_data_send_nothing_witness :
  fst (RecommendationsRoute.handler Json.parse Examples.failingEndpoint ""
         (fun _ _ _ => "") Scenarios.insertRows (Some Scenarios.emptyProfile) []
         Scenarios.ready)
  = Server.Throw (Server.ThrownHttp 500
      "No taste profile available. Please analyze your tastes first.")
  /\ Server.network
       (snd (RecommendationsRoute.handler Json.parse Examples.failingEndpoint ""
               (fun _ _ _ => "") Scenarios.insertRows (Some Scenarios.emptyProfile) []
               Scenarios.ready))
     = [].
Proof.
  destruct (routes_without_data_send_nothing Json.parse Examples.failingEndpoint
              "" (fun _ _ _ _ => "") "" (fun _ _ _ => "")
              Scenarios.storeProfile Scenarios.insertRows
              (Some Scenarios.emptyProfile) [] Scenarios.ready)
    as (_ & Hrecommend & _ & Hnet & _).
  - reflexivity.
  - reflexivity.
  - split; [exact Hrecommend | exact Hnet].
Defined.

Lemma analyze_success_saved_after_one_request_witness :
  exists r w' request,
    AnalyzeRoute.handler Json.parse (Scenarios.answering Examples.emptyCategories)
      "system" (fun _ _ _ _ => "user") Scenarios.storeProfile
      Examples.oneSubscription [] Examples.server
    = (Server.Ok r, w')
    /\ AnalyzeRoute.profile_id r = 7%nat
    /\ AnalyzeRoute.response_message r = "Analyzed 1 subscriptions and 0 liked videos"
    /\ Server.network w' = [request].
Proof.
  destruct (analyze_success_saved_after_one_request Json.parse
              (Scenarios.answering Examples.emptyCategories)
              "system" (fun _ _ _ _ => "user") Scenarios.storeProfile
              Examples.oneSubscription [] Examples.server _ _ eq_refl)
    as (_ & result & request & response & data & choice & rest
        & Hnet & _ & _ & _ & _ & _ & _ & Hmessage).
  eexists _, _, request. split; [reflexivity|]. split; [reflexivity|].
  split; [exact Hmessage | exact Hnet].
Defined.

Lemma recommendations_success_counts_witness :
  exists r w',
    RecommendationsRoute.handler Json.parse (Scenarios.answering Examples.oneKept)
      "system" (fun _ _ _ => "user") Scenarios.insertRows
      (Some Scenarios.profile) [] Examples.server
    = (Server.Ok r, w')
    /\ RecommendationsRoute.counts r
       = {| RecommendationsRoute.count_channel := 0;
            RecommendationsRoute.count_hidden_gem := 1;
            RecommendationsRoute.count_content_gap := 0 |}
    /\ RecommendationsRoute.response_message r
       = "Generated 1 personalized recommendations"
    /\ exists request, Server.network w' = [request].
Proof.
  destruct (recommendations_success_counts Json.parse
              (Scenarios.answering Examples.oneKept)
              "system" (fun _ _ _ => "user") Scenarios.insertRows
              (Some Scenarios.profile) [] Examples.server _ _ eq_refl)
    as (profile & result & rows & request & total
        & _ & _ & Hnet & _ & _ & _ & _ & _ & _).
  eexists _, _. split; [reflexivity|]. split; [reflexivity|].
  split; [reflexivity|]. exists request. exact Hnet.
Defined.

(** ** The YouTube service *)

Section YouTubeService.
Import Js Server YouTube.
#[local] Open Scope youtube_scope.
Variable subscriptionsEndpoint :
  Request -> result thrown (Response YouTubeSubscriptionItem).
Variable channelsEndpoint : Request -> result thrown (Response YouTubeChannelItem).
Variable videosEndpoint : Request -> result thrown (Response YouTubeVideoItem).
#[local] Abbreviation enrichChannelsWithStats :=
  (YouTube.enrichChannelsWithStats channelsEndpoint).
#[local] Abbreviation fetchSubscriptions :=
  (YouTube.fetchSubscriptions subscriptionsEndpoint channelsEndpoint).
#[local] Abbreviation fetchLikedVideos := (YouTube.fetchLikedVideos videosEndpoint).
#[local] Abbreviation likedVideosHandler := (YouTube.likedVideosHandler videosEndpoint).
#[local] Abbreviation subscriptionsHandler :=
  (YouTube.subscriptionsHandler subscriptionsEndpoint channelsEndpoint).

(** X23. [enrichChannelsWithStats] always ends. What it returns has the
    channels it was given, one for one and in order, with their ids,
    titles, descriptions and thumbnails; it throws only what [fetch] or
    the decoding of a reply throws. It asks for the statistics of at most
    50 channels at a time, in no more requests than there are batches of
    50, and in none for no channel. *)
Theorem enrichChannelsWithStats_keeps_channels_in_batches (accessToken : string)
    (channels : list YouTubeChannel) (sent : list Request) :
  match fst (enrichChannelsWithStats accessToken channels sent) with
  | Returns enriched =>
      Forall2 (fun c e => id e = id c /\ title e = title c
                          /\ description e = description c /\ thumbnail e = thumbnail c)
              channels enriched
  | Throws e =>
      exists request,
        channelsEndpoint request = Throw e
        \/ exists response, channelsEndpoint request = Ok response
                            /\ json response = Throw e
  | OutOfFuel => False
  end
  /\ exists new,
       snd (enrichChannelsWithStats accessToken channels sent) = (sent ++ new)%list
       /\ (length new <= (length channels + 49) / 50)%nat
       /\ Forall (fun request =>
                    exists batch, request = channelsRequest accessToken batch
                                  /\ batch <> [] /\ (length batch <= 50)%nat) new.
Proof.
  unfold YouTube.enrichChannelsWithStats. split.
  - apply YouTubeFacts.enrichBatches_keeps; [lia | constructor].
  - destruct (YouTubeFacts.enrichBatches_requests channelsEndpoint (length channels)
                accessToken channels [] 0 sent) as (new & Hsent & Hcount & Hall).
    exists new. split; [exact Hsent|]. split; [|exact Hall].
    apply Nat.div_le_lower_bound; lia.
Qed.

(** X24. For a single batch that the API answers, each channel gets the
    counts of the last item of the reply that has its id, read with
    [parseInt], and no counts when no item has its id, whatever counts it
    had before. *)
Theorem enrichment_takes_last_statistics (accessToken : string)
    (channels : list YouTubeChannel) (sent : list Request)
    (response : Response YouTubeChannelItem)
    (data : YouTubeListResponse YouTubeChannelItem) :
  channels <> [] ->
  (length channels <= 50)%nat ->
  channelsEndpoint (channelsRequest accessToken channels) = Ok response ->
  ok response = true ->
  json response = Ok data ->
  enrichChannelsWithStats accessToken channels sent
  = (Returns
       (map (fun channel =>
               let last :=
                 find (fun item => String.eqb (item_id item) (id channel))
                      (rev (items data)) in
               {| id := id channel;
                  title := title channel;
                  description := description channel;
                  thumbnail := thumbnail channel;
                  subscriberCount :=
                    match last with
                    | Some item => stats_subscriberCount (statsOf item)
                    | None => None
                    end;
                  videoCount :=
                    match last with
                    | Some item => stats_videoCount (statsOf item)
                    | None => None
                    end |})
            channels),
     (sent ++ [channelsRequest accessToken channels])%list).
Proof.
  intros Hne Hlen Hcall Hok Hjson. unfold YouTube.enrichChannelsWithStats.
  destruct (length channels) as [|n] eqn:Hn; [now destruct channels|].
  rewrite YouTubeFacts.enrichBatches_step by lia.
  rewrite drop_0, firstn_all2 by lia.
  unfold bind, call. rewrite Hcall, Hok, Hjson. cbn [negb lift ret].
  rewrite YouTubeFacts.enrichBatches_done by lia. cbn [app].
  f_equal. f_equal. apply map_ext. intros channel. unfold withStats.
  rewrite YouTubeFacts.statsMapOf_lookup.
  now destruct (find _ _).
Qed.

(** X25. [fetchLikedVideos] returns no more videos than [maxResults], or
    one video when [maxResults] is less than 1; it throws only what
    [fetch] or the decoding of a reply throws, or its own error for a
    reply that is not [ok]. *)
Theorem fetchLikedVideos_cap (fuel : nat) (accessToken : string) (maxResults : Z)
    (sent : list Request) :
  match fst (fetchLikedVideos fuel accessToken maxResults sent) with
  | Returns videos => (Z.of_nat (length videos) <= Z.max 1 maxResults)%Z
  | Throws e =>
      (exists request, videosEndpoint request = Throw e)
      \/ (exists request response,
            videosEndpoint request = Ok response
            /\ (json response = Throw e
                \/ (ok response = false
                    /\ e = ThrownError ("Failed to fetch liked videos: " ++ text response))))
  | OutOfFuel => True
  end.
Proof.
  apply YouTubeFacts.likedVideoPages_cap; [reflexivity | now right].
Qed.

(** X26. When no page of the API is empty, [fetchLikedVideos] ends within
    [maxResults] pages, even if the API names a next page for ever. *)
Theorem fetchLikedVideos_ends (fuel : nat) (accessToken : string) (maxResults : Z)
    (sent : list Request) :
  (forall request response data,
     videosEndpoint request = Ok response -> json response = Ok data ->
     items data <> []) ->
  (Z.max 1 maxResults <= Z.of_nat fuel)%Z ->
  fst (fetchLikedVideos fuel accessToken maxResults sent) <> OutOfFuel.
Proof.
  intros Hfull Hfuel.
  apply YouTubeFacts.likedVideoPages_ends; try assumption; try reflexivity; lia.
Qed.

(** X27. With a limit of 1 or less, be it 0 or negative, and a first page
    that has an item, [fetchLikedVideos] returns that one item, after one
    request. *)
Theorem fetchLikedVideos_nonpositive_limit (fuel : nat) (accessToken : string)
    (maxResults : Z) (sent : list Request) (response : Response YouTubeVideoItem)
    (data : YouTubeListResponse YouTubeVideoItem) (item : YouTubeVideoItem)
    (rest : list YouTubeVideoItem) :
  (maxResults <= 1)%Z ->
  videosEndpoint (videosRequest accessToken None) = Ok response ->
  ok response = true ->
  json response = Ok data ->
  items data = item :: rest ->
  fetchLikedVideos (S fuel) accessToken maxResults sent
  = (Returns [toVideo item], (sent ++ [videosRequest accessToken None])%list).
Proof.
  intros Hmax Hcall Hok Hjson Hitems.
  unfold YouTube.fetchLikedVideos. cbn [YouTube.likedVideoPages].
  unfold bind, call. rewrite Hcall, Hok, Hjson. cbn [negb lift ret].
  rewrite Hitems. cbn [pushVideos app].
  destruct (Z.leb_spec maxResults (Z.of_nat 1)); [reflexivity | lia].
Qed.

(** X29. The two GET routes never pass on what went wrong upstream: the
    client gets status 500 with a fixed message. The liked videos route
    counts the videos it lists, and lists at most 500 whatever [limit]
    asks for; without a usable [limit] it asks for 200. *)
Theorem youtube_routes_hide_upstream_errors (fuel : nat) (accessToken : string)
    (limit : option string) (sent : list Request) :
  match fst (likedVideosHandler fuel accessToken limit sent) with
  | Returns listing =>
      count listing = length (data listing) /\ (count listing <= 500)%nat
  | Throws e => e = ThrownHttp 500 "Failed to fetch liked videos from YouTube"
  | OutOfFuel => True
  end
  /\ match fst (subscriptionsHandler fuel accessToken sent) with
     | Returns listing => count listing = length (data listing)
     | Throws e => e = ThrownHttp 500 "Failed to fetch subscriptions from YouTube"
     | OutOfFuel => True
     end
  /\ (maxResultsOf limit <= 500)%Z
  /\ maxResultsOf None = 200%Z
  /\ maxResultsOf (Some "0") = 200%Z.
Proof.
  split; [|split; [|split; [|split; reflexivity]]].
  - unfold YouTube.likedVideosHandler, try_catch, bind.
    pose proof (YouTubeFacts.likedVideoPages_cap videosEndpoint fuel accessToken
                  (maxResultsOf limit) None [] 0 sent eq_refl (or_intror eq_refl)) as Hcap.
    unfold YouTube.fetchLikedVideos.
    destruct (YouTube.likedVideoPages _ _ _ _ _ _ _ _) as [[videos|e|] sent'];
      cbn [fst ret throw data count] in *; try easy.
    split; [reflexivity|]. unfold maxResultsOf in Hcap. lia.
  - unfold YouTube.subscriptionsHandler, try_catch, bind.
    destruct (YouTube.fetchSubscriptions _ _ _ _ _) as [[channels|e|] sent'];
      cbn [fst ret throw data count]; easy.
  - unfold maxResultsOf. lia.
Qed.

(** X30. Statistics that cannot be had do not fail [fetchSubscriptions]:
    when the API refuses them, the channels gathered from the pages are
    returned as they are, without counts, after a single request for
    statistics. *)
Theorem fetchSubscriptions_without_stats (fuel : nat) (accessToken : string)
    (sent sent' : list Request) (channels : list YouTubeChannel) :
  (forall request, exists response,
      channelsEndpoint request = Ok response /\ ok response = false) ->
  YouTube.subscriptionPages subscriptionsEndpoint fuel accessToken None [] sent
  = (Returns channels, sent') ->
  fetchSubscriptions fuel accessToken sent
  = (Returns channels,
     match channels with
     | [] => sent'
     | _ :: _ => (sent' ++ [channelsRequest accessToken (firstn 50 channels)])%list
     end)
  /\ Forall (fun c => subscriberCount c = None /\ videoCount c = None) channels.
Proof.
  intros Hdown Hpages. split.
  - unfold YouTube.fetchSubscriptions, bind at 1. rewrite Hpages.
    unfold bind, YouTube.enrichChannelsWithStats.
    destruct channels as [|c cs]; [reflexivity|].
    cbn [length]. rewrite YouTubeFacts.enrichBatches_step by (simpl; lia).
    rewrite drop_0. unfold bind, call.
    destruct (Hdown (channelsRequest accessToken (firstn 50 (c :: cs))))
      as (response & -> & ->).
    reflexivity.
  - eapply YouTubeFacts.subscriptionPages_counts; [|exact Hpages]. constructor.
Qed.

End YouTubeService.

Lemma enrichment_takes_last_statistics_witness :
  YouTube.enrichChannelsWithStats YouTubeScenarios.statsTwice "token"
    YouTubeScenarios.twoChannels []
  = (YouTube.Returns
       [ {| YouTube.id := "a"; YouTube.title := "a"; YouTube.description := "";
            YouTube.thumbnail := "";
            YouTube.subscriberCount := Some (YouTube.Int 12);
            YouTube.videoCount := None |};
         {| YouTube.id := "b"; YouTube.title := "b"; YouTube.description := "";
            YouTube.thumbnail := "";
            YouTube.subscriberCount := None;
            YouTube.videoCount := None |} ],
     [ YouTube.channelsRequest "token" YouTubeScenarios.twoChannels ])
  /\ YouTube.query (YouTube.channelsRequest "token" YouTubeScenarios.twoChannels)
     = [("part", "statistics"); ("id", "a,b")].
Proof.
  split; [|reflexivity].
  refine (eq_trans
            (enrichment_takes_last_statistics YouTubeScenarios.statsTwice "token"
               YouTubeScenarios.twoChannels [] _ _ _ _ eq_refl eq_refl eq_refl)
            eq_refl).
  - discriminate.
  - simpl. lia.
Defined.

Lemma fetchLikedVideos_ends_witness :
  YouTube.fetchLikedVideos YouTubeScenarios.endlessVideos 3 "token" 3 []
  = (YouTube.Returns
       [ YouTube.toVideo (YouTubeScenarios.likedItem "v1");
         YouTube.toVideo (YouTubeScenarios.likedItem "v2");
         YouTube.toVideo (YouTubeScenarios.likedItem "v1") ],
     [ YouTube.videosRequest "token" None;
       YouTube.videosRequest "token" (Some "next") ])
  /\ fst (YouTube.fetchLikedVideos YouTubeScenarios.endlessVideos 3 "token" 3 [])
     <> YouTube.OutOfFuel.
Proof.
  split; [reflexivity|].
  apply (fetchLikedVideos_ends YouTubeScenarios.endlessVideos 3 "token" 3 []).
  - intros request response data [= <-] [= <-]. discriminate.
  - vm_compute. discriminate.
Defined.

Lemma fetchLikedVideos_nonpositive_limit_witness :
  YouTube.fetchLikedVideos YouTubeScenarios.endlessVideos 1 "token" (-5) []
  = (YouTube.Returns [ YouTube.toVideo (YouTubeScenarios.likedItem "v1") ],
     [ YouTube.videosRequest "token" None ]).
Proof.
  refine (fetchLikedVideos_nonpositive_limit YouTubeScenarios.endlessVideos 0 "token"
            (-5) [] _ _ _ _ _ eq_refl eq_refl eq_refl eq_refl).
  vm_compute. discriminate.
Defined.

Lemma fetchSubscriptions_without_stats_witness :
  YouTube.fetchSubscriptions YouTubeScenarios.twoPages YouTubeScenarios.statsDown
    2 "token" []
  = (YouTube.Returns YouTubeScenarios.twoChannels,
     [ YouTube.subscriptionsRequest "token" None;
       YouTube.subscriptionsRequest "token" (Some "p2");
       YouTube.channelsRequest "token" YouTubeScenarios.twoChannels ])
  /\ Forall (fun c => YouTube.subscriberCount c = None /\ YouTube.videoCount c = None)
       YouTubeScenarios.twoChannels.
Proof.
  refine (fetchSubscriptions_without_stats YouTubeScenarios.twoPages
            YouTubeScenarios.statsDown 2 "token" [] _ YouTubeScenarios.twoChannels
            _ eq_refl).
  intros request. eexists. split; reflexivity.
Defined.
